(** * BRASS deterministic verifier: spend-verification pipeline

    A shallow embedding of [worker/deterministic-verifier.js] and of the two
    counter-store adapters ([worker/adapters/kv-store.js],
    [worker/adapters/durable-object-store.js]), with the properties of the
    specification stated and settled against it. *)

From Stdlib Require Import ZArith List String Ascii Bool Lia.
From Stdlib Require Strings.Byte.
From Bignums Require Import BigZ.
From stdpp Require Import gmap strings pretty.
Import ListNotations.

Local Open Scope Z_scope.

(** ** Bytes

    A [Uint8Array] is a list of bytes, each kept as an integer in 0..255. *)

Definition bytes := list Z.

Definition utf8ToBytes (s : string) : bytes :=
  map (fun b => Z.of_N (Byte.to_N b)) (list_byte_of_string s).

(** [bytesToBig]: the big-endian integer spelled by the bytes (the source
    builds the hexadecimal string and reads it with [BigInt]). *)
Definition bytesToBig (b : bytes) : Z :=
  fold_left (fun acc x => acc * 256 + x) b 0.

(** Big-endian encoding of [x] on [len] bytes. *)
Fixpoint be_bytes (len : nat) (x : Z) : bytes :=
  match len with
  | O => []
  | S k => be_bytes k (x / 256) ++ [x mod 256]
  end.

(** ** SHA-256 (FIPS 180-4), the [sha256] of @noble/hashes *)

Module Sha256.

Definition mask32 : Z := 0xffffffff.
Definition add32 (x y : Z) : Z := Z.land (x + y) mask32.
Definition rotr (k x : Z) : Z :=
  Z.lor (Z.shiftr x k) (Z.land (Z.shiftl x (32 - k)) mask32).
Definition not32 (x : Z) : Z := Z.lxor x mask32.

(** The [k] 32-bit words of [x], most significant first. *)
Fixpoint unpack32 (k : nat) (x : Z) : list Z :=
  match k with
  | O => []
  | S k' => unpack32 k' (Z.shiftr x 32) ++ [Z.land x mask32]
  end.

Definition Ch (x y z : Z) : Z := Z.lxor (Z.land x y) (Z.land (not32 x) z).
Definition Maj (x y z : Z) : Z :=
  Z.lxor (Z.lxor (Z.land x y) (Z.land x z)) (Z.land y z).
Definition Sum0 (x : Z) : Z := Z.lxor (Z.lxor (rotr 2 x) (rotr 13 x)) (rotr 22 x).
Definition Sum1 (x : Z) : Z := Z.lxor (Z.lxor (rotr 6 x) (rotr 11 x)) (rotr 25 x).
Definition sig0 (x : Z) : Z := Z.lxor (Z.lxor (rotr 7 x) (rotr 18 x)) (Z.shiftr x 3).
Definition sig1 (x : Z) : Z := Z.lxor (Z.lxor (rotr 17 x) (rotr 19 x)) (Z.shiftr x 10).

(** The round constants, eight 32-bit words to a row. *)
Definition K : list Z :=
  flat_map (unpack32 8)
    [ 0x428a2f9871374491b5c0fbcfe9b5dba53956c25b59f111f1923f82a4ab1c5ed5;
      0xd807aa9812835b01243185be550c7dc372be5d7480deb1fe9bdc06a7c19bf174;
      0xe49b69c1efbe47860fc19dc6240ca1cc2de92c6f4a7484aa5cb0a9dc76f988da;
      0x983e5152a831c66db00327c8bf597fc7c6e00bf3d5a7914706ca635114292967;
      0x27b70a852e1b21384d2c6dfc53380d13650a7354766a0abb81c2c92e92722c85;
      0xa2bfe8a1a81a664bc24b8b70c76c51a3d192e819d6990624f40e3585106aa070;
      0x19a4c1161e376c082748774c34b0bcb5391c0cb34ed8aa4a5b9cca4f682e6ff3;
      0x748f82ee78a5636f84c878148cc7020890befffaa4506cebbef9a3f7c67178f2 ].

(** The initial hash value. *)
Definition H0 : list Z :=
  unpack32 8 0x6a09e667bb67ae853c6ef372a54ff53a510e527f9b05688c1f83d9ab5be0cd19.

(** Padding: a 1 bit, zeros up to 56 mod 64, the bit length on 8 bytes. *)
Definition pad (m : bytes) : bytes :=
  let len := Z.of_nat (length m) in
  m ++ [0x80] ++ repeat 0 (Z.to_nat ((55 - len) mod 64)) ++ be_bytes 8 (8 * len).

Fixpoint words (fuel : nat) (b : bytes) : list Z :=
  match fuel, b with
  | S f, b0 :: b1 :: b2 :: b3 :: rest =>
      bytesToBig [b0; b1; b2; b3] :: words f rest
  | _, _ => []
  end.

(** The message schedule, newest word first: [sched] holds W(t-1), W(t-2), ... *)
Fixpoint schedule (k : nat) (sched : list Z) : list Z :=
  match k with
  | O => sched
  | S k' =>
      let w :=
        add32 (add32 (sig1 (nth 1 sched 0)) (nth 6 sched 0))
              (add32 (sig0 (nth 14 sched 0)) (nth 15 sched 0)) in
      schedule k' (w :: sched)
  end.

Record regs := Regs { ra : Z; rb : Z; rc : Z; rd : Z; re : Z; rf : Z; rg : Z; rh : Z }.

Definition round (s : regs) (kw : Z * Z) : regs :=
  let '(k, w) := kw in
  let t1 := add32 (add32 (add32 (rh s) (Sum1 (re s))) (Ch (re s) (rf s) (rg s)))
                  (add32 k w) in
  let t2 := add32 (Sum0 (ra s)) (Maj (ra s) (rb s) (rc s)) in
  Regs (add32 t1 t2) (ra s) (rb s) (rc s) (add32 (rd s) t1) (re s) (rf s) (rg s).

Definition regs_of (h : list Z) : regs :=
  Regs (nth 0 h 0) (nth 1 h 0) (nth 2 h 0) (nth 3 h 0)
       (nth 4 h 0) (nth 5 h 0) (nth 6 h 0) (nth 7 h 0).

Definition compress (h : list Z) (block : list Z) : list Z :=
  let w := rev (schedule 48 (rev block)) in
  let s := fold_left round (combine K w) (regs_of h) in
  [ add32 (nth 0 h 0) (ra s); add32 (nth 1 h 0) (rb s);
    add32 (nth 2 h 0) (rc s); add32 (nth 3 h 0) (rd s);
    add32 (nth 4 h 0) (re s); add32 (nth 5 h 0) (rf s);
    add32 (nth 6 h 0) (rg s); add32 (nth 7 h 0) (rh s) ].

Fixpoint blocks (fuel : nat) (h : list Z) (ws : list Z) : list Z :=
  match fuel with
  | O => h
  | S f =>
      match ws with
      | [] => h
      | _ => blocks f (compress h (firstn 16 ws)) (skipn 16 ws)
      end
  end.

Definition sha256 (m : bytes) : bytes :=
  let p := pad m in
  let ws := words (length p) p in
  flat_map (be_bytes 4) (blocks (length ws) H0 ws).

End Sha256.


(** ** Exceptions

    A JavaScript call either returns or throws an [Error] with a message. *)

Inductive Exc (A : Type) : Type :=
| Threw (message : string)
| Ok (a : A).
Arguments Threw {A} message.
Arguments Ok {A} a.

#[global] Instance exc_ret : MRet Exc := fun A a => Ok a.
#[global] Instance exc_bind : MBind Exc := fun A B f x =>
  match x with
  | Threw m => Threw m
  | Ok a => f a
  end.

(** ** The curve P-256, the [p256] of @noble/curves

    A [ProjectivePoint] is kept in its normal form: the identity [ZERO] or an
    affine pair of coordinates.  Sums and multiples are computed in Jacobian
    coordinates over arbitrary-precision integers and normalised at the end.
    The library's contract is kept where the verifier depends on it:
    [multiply] rejects a scalar outside 1..n-1, [toRawBytes] and
    [assertValidity] reject the identity, [fromHex] accepts the 33-byte
    compressed and the 65-byte uncompressed encodings of a point on the
    curve. *)

Module P256.

Definition p : Z := 0xffffffff00000001000000000000000000000000ffffffffffffffffffffffff.
Definition b : Z := 0x5ac635d8aa3a93e7b3ebbd55769886bc651d06b0cc53b0f63bce3c3e27d2604b.
Definition n : Z := 0xffffffff00000000ffffffffffffffffbce6faada7179e84f3b9cac2fc632551.
Definition Gx : Z := 0x6b17d1f2e12c4247f8bce6e563a440f277037d812deb33a0f4a13945d898c296.
Definition Gy : Z := 0x4fe342e2fe1a7f9b8ee7eb4a7c0f9e162bce33576b315ececbb6406837bf51f5.

Inductive point := ZERO | Affine (x y : Z).

Definition BASE : point := Affine Gx Gy.

Definition equals (P Q : point) : bool :=
  match P, Q with
  | ZERO, ZERO => true
  | Affine x1 y1, Affine x2 y2 => (x1 =? x2) && (y1 =? y2)
  | _, _ => false
  end.

(** Field arithmetic modulo [p]. *)
Definition bp : bigZ := BigZ.of_Z p.
Definition ba : bigZ := BigZ.of_Z (p - 3).
Definition bb : bigZ := BigZ.of_Z b.
Definition fmul (x y : bigZ) : bigZ := BigZ.modulo (BigZ.mul x y) bp.
Definition fadd (x y : bigZ) : bigZ := BigZ.modulo (BigZ.add x y) bp.
Definition fsub (x y : bigZ) : bigZ := BigZ.modulo (BigZ.sub x y) bp.
Definition is0 (x : bigZ) : bool := BigZ.eqb x 0%bigZ.

Fixpoint fpow_pos (x : bigZ) (e : positive) : bigZ :=
  match e with
  | xH => BigZ.modulo x bp
  | xO e' => let h := fpow_pos x e' in fmul h h
  | xI e' => let h := fpow_pos x e' in fmul (fmul h h) x
  end.

Definition fpow (x : bigZ) (e : Z) : bigZ :=
  match e with
  | Zpos e' => fpow_pos x e'
  | _ => 1%bigZ
  end.

Definition finv (x : bigZ) : bigZ := fpow x (p - 2).

(** Right-hand side of the curve equation y^2 = x^3 - 3x + b. *)
Definition weierstrass (x : bigZ) : bigZ :=
  fadd (fadd (fmul (fmul x x) x) (fmul ba x)) bb.

Definition on_curve (x y : Z) : bool :=
  let bx := BigZ.of_Z x in
  let by_ := BigZ.of_Z y in
  BigZ.eqb (fmul by_ by_) (weierstrass bx).

(** Jacobian triple (X, Y, Z) for the affine point (X/Z^2, Y/Z^3); Z = 0 is
    the identity. *)
Definition jac : Type := bigZ * bigZ * bigZ.
Definition jzero : jac := (1%bigZ, 1%bigZ, 0%bigZ).

Definition to_jac (P : point) : jac :=
  match P with
  | ZERO => jzero
  | Affine x y => (BigZ.of_Z x, BigZ.of_Z y, 1%bigZ)
  end.

Definition of_jac (J : jac) : point :=
  let '(X, Y, Zc) := J in
  if is0 Zc then ZERO
  else
    let zi := finv Zc in
    let zi2 := fmul zi zi in
    Affine (BigZ.to_Z (fmul X zi2)) (BigZ.to_Z (fmul Y (fmul zi2 zi))).

Definition jdouble (J : jac) : jac :=
  let '(X, Y, Zc) := J in
  if is0 Zc || is0 Y then jzero
  else
    let yy := fmul Y Y in
    let s := fmul 4%bigZ (fmul X yy) in
    let zz := fmul Zc Zc in
    let m := fadd (fmul 3%bigZ (fmul X X)) (fmul ba (fmul zz zz)) in
    let X3 := fsub (fmul m m) (fmul 2%bigZ s) in
    let Y3 := fsub (fmul m (fsub s X3)) (fmul 8%bigZ (fmul yy yy)) in
    (X3, Y3, fmul 2%bigZ (fmul Y Zc)).

Definition jadd (J1 J2 : jac) : jac :=
  let '(X1, Y1, Z1) := J1 in
  let '(X2, Y2, Z2) := J2 in
  if is0 Z1 then J2
  else if is0 Z2 then J1
  else
    let z1z1 := fmul Z1 Z1 in
    let z2z2 := fmul Z2 Z2 in
    let u1 := fmul X1 z2z2 in
    let u2 := fmul X2 z1z1 in
    let s1 := fmul Y1 (fmul Z2 z2z2) in
    let s2 := fmul Y2 (fmul Z1 z1z1) in
    if BigZ.eqb u1 u2 then
      if BigZ.eqb s1 s2 then jdouble J1 else jzero
    else
      let h := fsub u2 u1 in
      let r := fsub s2 s1 in
      let hh := fmul h h in
      let hhh := fmul h hh in
      let v := fmul u1 hh in
      let X3 := fsub (fsub (fmul r r) hhh) (fmul 2%bigZ v) in
      let Y3 := fsub (fmul r (fsub v X3)) (fmul s1 hhh) in
      (X3, Y3, fmul h (fmul Z1 Z2)).

Fixpoint jmul_pos (J : jac) (k : positive) : jac :=
  match k with
  | xH => J
  | xO k' => jdouble (jmul_pos J k')
  | xI k' => jadd (jdouble (jmul_pos J k')) J
  end.

(** [P.add(Q)] *)
Definition add (P Q : point) : point := of_jac (jadd (to_jac P) (to_jac Q)).

(** The group multiple k.P, for any k. *)
Definition scalar_mul (P : point) (k : Z) : point :=
  match k with
  | Zpos k' => of_jac (jmul_pos (to_jac P) k')
  | _ => ZERO
  end.

Definition err_scalar : string := "Expected valid bigint: 0 < bigint < curve.n".
Definition err_zero : string := "bad point: ZERO".
Definition err_not_on_curve : string := "Point is not on curve".
Definition err_length : string := "Point of invalid length".

(** [P.multiply(k)]: throws unless 0 < k < n. *)
Definition multiply (P : point) (k : Z) : Exc point :=
  if (0 <? k) && (k <? n) then Ok (scalar_mul P k) else Threw err_scalar.

(** [P.assertValidity()] *)
Definition assertValidity (P : point) : Exc unit :=
  match P with
  | ZERO => Threw err_zero
  | Affine x y =>
      if (0 <=? x) && (x <? p) && (0 <=? y) && (y <? p) && on_curve x y
      then Ok tt else Threw err_not_on_curve
  end.

(** [P.toRawBytes(true)]: the 33-byte compressed encoding. *)
Definition toRawBytes (P : point) : Exc bytes :=
  match P with
  | ZERO => Threw err_zero
  | Affine x y => Ok ((if Z.odd y then 3 else 2) :: be_bytes 32 x)
  end.

(** Square root modulo p (p = 3 mod 4), when there is one. *)
Definition fsqrt (v : bigZ) : option bigZ :=
  let r := fpow v ((p + 1) / 4) in
  if BigZ.eqb (fmul r r) (BigZ.modulo v bp) then Some r else None.

(** [ProjectivePoint.fromHex(bytes)] *)
Definition fromHex (enc : bytes) : Exc point :=
  match enc with
  | head :: tail =>
      if (length enc =? 33)%nat && ((head =? 2) || (head =? 3)) then
        let x := bytesToBig tail in
        if (0 <? x) && (x <? p) then
          match fsqrt (weierstrass (BigZ.of_Z x)) with
          | Some r =>
              let y := BigZ.to_Z r in
              let y' := if Bool.eqb (Z.odd y) (Z.odd head) then y else (p - y) mod p in
              Ok (Affine x y')
          | None => Threw err_not_on_curve
          end
        else Threw err_not_on_curve
      else if (length enc =? 65)%nat && (head =? 4) then
        let P := Affine (bytesToBig (firstn 32 tail)) (bytesToBig (skipn 32 tail)) in
        match assertValidity P with
        | Ok _ => Ok P
        | Threw m => Threw m
        end
      else Threw err_length
  | [] => Threw err_length
  end.

End P256.

(** ** Counter-store data

    A decision is the object a store hands back from [spend]; the optional
    fields are the ones a JavaScript object may lack. *)

Record Decision := mkDecision {
  ok : bool;
  remaining : option Z;
  error : option string;
  idempotent : option bool
}.

(** [{ ok: false, error: 'limit_exceeded', remaining: 0 }] *)
Definition failureResponse : Decision :=
  mkDecision false (Some 0) (Some "limit_exceeded"%string) None.

(** [{ ok: true, remaining }] *)
Definition successResponse (remaining : Z) : Decision :=
  mkDecision true (Some remaining) None None.

(** [{ ...cached, idempotent: true }] *)
Definition replayed (cached : Decision) : Decision :=
  mkDecision (ok cached) (remaining cached) (error cached) (Some true).

(** What a key holds: a counter, or a decision (the object that [JSON.parse]
    gives back from the string [JSON.stringify] wrote), with the
    [expirationTtl] the value was put with, if any. *)
Inductive value := VNum (count : Z) | VJson (d : Decision).

Record entry := Entry { e_value : value; e_ttl : option Z }.

(** The KV namespace [env.BRASS_KV]. *)
Abbreviation KVNamespace := (gmap string entry).

(** The Durable Object namespace [env.BRASS_COUNTER]: the storage of every
    object, addressed by the object's name and the key inside its storage. *)
Abbreviation DONamespace := (gmap (string * string) entry).

Definition get_json {K} `{Countable K} (m : gmap K entry) (k : K) : option Decision :=
  match m !! k with
  | Some (Entry (VJson d) _) => Some d
  | _ => None
  end.

(** A counter read: [parseInt(get(k) || '0', 10)] or [get(k) || 0].

    Counts and limits are JavaScript numbers in the source.  They are kept as
    integers here, which is what the code computes as long as they are safe
    integers (of absolute value below 2^53); the statements on the value of
    a counter or of [remaining] are made for that range. *)
Definition get_count {K} `{Countable K} (m : gmap K entry) (k : K) : Z :=
  match m !! k with
  | Some (Entry (VNum c) _) => c
  | _ => 0
  end.

Definition put {K} `{Countable K} (m : gmap K entry) (k : K) (v : value)
    (ttl : option Z) : gmap K entry :=
  <[k := Entry v ttl]> m.

Record CounterKey := mkCounterKey {
  projectId : string;
  issuerPk : string;
  origin : string;
  epoch : string;
  policy : string;
  window : string;
  y : string
}.

Record SpendParams := mkSpendParams {
  key : CounterKey;
  IK : string;
  limit : Z;
  ttlSeconds : Z
}.

Record GraceParams := mkGraceParams {
  g_projectId : string;
  graceKey : string;
  g_ttlSeconds : Z
}.

(** [{ hit: true, response }] or [{ hit: false }] *)
Inductive GraceGuard := Hit (response : Decision) | Miss.

(** ** The request payload *)

Record Proof := mkProof { pc : string; pr : string }.

(** The fields the handler reads from the parsed body.  The required ones
    are strings; the optional ones may be absent. *)
Record Payload := mkPayload {
  p_KID : string;
  p_AADr : string;
  p_origin : string;
  p_epoch : Z;
  p_c : string;
  p_Z : string;
  p_Zprime : string;
  p_P : string;
  p_M : string;
  p_piI : Proof;
  p_piC : Proof;
  p_d_client : option string;
  p_tls_exporter_b64 : option string;
  p_http_method : option string;
  p_http_path : option string;
  p_http_body_hash_b64 : option string
}.

(** What [lookupApiKey] resolves to. *)
Record KeyData := mkKeyData {
  valid : bool;
  k_error : option string;
  k_projectId : string;
  k_limit : option Z
}.

(** ** Imported helpers

    [worker/shared/crypto.js], [worker/shared/storage-interface.js],
    [worker/shared/api-key-lookup.js] and the platform's [JSON.parse] are
    used by the verifier through their interface only; the verifier and the
    stores are modelled over any implementation of them.  A helper that can
    throw returns an [Exc]. *)

Class Imports := {
  H3 : list bytes -> bytes;
  canonicalOrigin : string -> Exc string;
  currentEpochDays : Z -> string;
  windowId : string -> string;
  parsePolicyId : string -> string;
  secondsUntilWindowEnd : Z -> string -> Z;
  isInGracePeriod : Z -> Z -> bool;
  deriveEta : string -> string -> string -> string -> string -> bytes;
  deriveNullifierY : string -> string -> string -> bytes -> bytes;
  deriveIdempotencyKey : bytes -> bytes -> string -> Exc string;
  deriveGraceNullifier :
    string -> string -> string -> string -> string -> string -> string -> string -> bytes;
  deriveTlsBinding : option bytes -> bytes;
  bytesToB64url : bytes -> string;
  b64urlToBytes : string -> Exc bytes;
  secretToBytes : string -> Exc bytes;
  buildCounterKey : CounterKey -> string;
  buildLegacyCounterKey : CounterKey -> string;
  lookupApiKey : string -> KVNamespace -> Exc KeyData;
  JSON_parse : string -> Exc Payload;
  toUpperCase : string -> string
}.

Section Stores.
Context `{Imports}.

Local Open Scope string_scope.

(** *** worker/adapters/kv-store.js *)

Definition enableMigrationFallback : bool := true.

Definition ik_key (project IK : string) : string :=
  "ik:project:" +:+ project +:+ ":" +:+ IK.

Definition grace_key (project graceKey : string) : string :=
  "grace:project:" +:+ project +:+ ":" +:+ graceKey.

Definition count_key (counterKey : string) : string := "count:" +:+ counterKey.

(** [KVStore.spend].  [currentCount + 1] and [Math.max(0, limit - newCount)]
    are the integer operations, exact for safe integers. *)
Definition KVStore_spend (params : SpendParams) (kv : KVNamespace)
    : Decision * KVNamespace :=
  let counterKey := buildCounterKey (key params) in
  let ikKey := ik_key (projectId (key params)) (IK params) in
  match get_json kv ikKey with
  | Some cached => (replayed cached, kv)
  | None =>
      let countKey := count_key counterKey in
      let currentCount := get_count kv countKey in
      let '(currentCount, kv) :=
        if (currentCount =? 0)%Z && enableMigrationFallback then
          let legacyKey := buildLegacyCounterKey (key params) in
          let legacyCountKey := count_key legacyKey in
          let legacyCount := get_count kv legacyCountKey in
          if (0 <? legacyCount)%Z then
            (legacyCount,
             put kv countKey (VNum legacyCount) (Some (ttlSeconds params)))
          else (currentCount, kv)
        else (currentCount, kv) in
      if (limit params <=? currentCount)%Z then
        (failureResponse,
         put kv ikKey (VJson failureResponse) (Some (ttlSeconds params)))
      else
        let newCount := (currentCount + 1)%Z in
        let remaining := Z.max 0 (limit params - newCount) in
        (successResponse remaining,
         put (put kv countKey (VNum newCount) (Some (ttlSeconds params)))
             ikKey (VJson (successResponse remaining)) (Some (ttlSeconds params)))
  end.

(** [KVStore.guardGrace] *)
Definition KVStore_guardGrace (g : GraceParams) (kv : KVNamespace) : GraceGuard :=
  match get_json kv (grace_key (g_projectId g) (graceKey g)) with
  | Some cached => Hit cached
  | None => Miss
  end.

(** [KVStore.cacheGraceResponse] *)
Definition KVStore_cacheGraceResponse (g : GraceParams) (response : Decision)
    (kv : KVNamespace) : KVNamespace :=
  let k := grace_key (g_projectId g) (graceKey g) in
  match get_json kv k with
  | Some existing => kv
  | None => put kv k (VJson response) (Some (g_ttlSeconds g))
  end.

(** *** worker/adapters/durable-object-store.js: the object [BrassCounterDO] *)

Inductive DOBody :=
| DOText (text : string)
| DODecision (d : Decision)
| DOGuard (g : GraceGuard)
| DOAck (acknowledged : bool).

Record DOResponse := mkDOResponse { do_status : Z; do_body : DOBody }.

(** [response.ok]: a status in 200..299. *)
Definition response_ok (r : DOResponse) : bool :=
  (200 <=? do_status r)%Z && (do_status r <=? 299)%Z.

Inductive DORequest :=
| ReqSpend (project IK : string) (limit ttlSeconds : Z)
| ReqGraceCheck (g : GraceParams)
| ReqGraceCache (g : GraceParams) (response : Decision).

(** [BrassCounterDO.handleSpend], on the storage of the object [name].
    [count += 1] and [Math.max(0, limit - count)] are the integer operations,
    exact for safe integers. *)
Definition handleSpend (name : string) (project IK : string) (limit ttlSeconds : Z)
    (ns : DONamespace) : DOResponse * DONamespace :=
  let ikKey := ik_key project IK in
  match get_json ns (name, ikKey) with
  | Some cached =>
      let status := if ok cached then 200%Z else 429%Z in
      (mkDOResponse status (DODecision (replayed cached)), ns)
  | None =>
      let count := get_count ns (name, "count") in
      let '(count, ns) :=
        if (count =? 0)%Z && enableMigrationFallback then
          let legacyCount := get_count ns (name, "legacy_count") in
          if (0 <? legacyCount)%Z then
            (legacyCount, put ns (name, "count") (VNum legacyCount) None)
          else (count, ns)
        else (count, ns) in
      if (limit <=? count)%Z then
        (mkDOResponse 429 (DODecision failureResponse),
         put ns (name, ikKey) (VJson failureResponse) (Some ttlSeconds))
      else
        let count := (count + 1)%Z in
        let remaining := Z.max 0 (limit - count) in
        (mkDOResponse 200 (DODecision (successResponse remaining)),
         put (put ns (name, "count") (VNum count) (Some ttlSeconds))
             (name, ikKey) (VJson (successResponse remaining)) (Some ttlSeconds))
  end.

(** [BrassCounterDO.handleGraceCheck] *)
Definition handleGraceCheck (name : string) (g : GraceParams) (ns : DONamespace)
    : DOResponse :=
  match get_json ns (name, grace_key (g_projectId g) (graceKey g)) with
  | Some cached => mkDOResponse 200 (DOGuard (Hit cached))
  | None => mkDOResponse 200 (DOGuard Miss)
  end.

(** [BrassCounterDO.handleGraceCache] *)
Definition handleGraceCache (name : string) (g : GraceParams) (response : Decision)
    (ns : DONamespace) : DOResponse * DONamespace :=
  let k := grace_key (g_projectId g) (graceKey g) in
  match get_json ns (name, k) with
  | Some existing => (mkDOResponse 200 (DOAck true), ns)
  | None =>
      (mkDOResponse 200 (DOAck true),
       put ns (name, k) (VJson response) (Some (g_ttlSeconds g)))
  end.

(** [BrassCounterDO.fetch]: the routes of the object [name]. *)
Definition BrassCounterDO_fetch (name : string) (method pathname : string)
    (body : DORequest) (ns : DONamespace) : DOResponse * DONamespace :=
  if negb (String.eqb method "POST") then
    (mkDOResponse 405 (DOText "Method Not Allowed"), ns)
  else if String.eqb pathname "/grace/check" then
    match body with
    | ReqGraceCheck g => (handleGraceCheck name g ns, ns)
    | _ => (mkDOResponse 500 (DOGuard Miss), ns)
    end
  else if String.eqb pathname "/grace/cache" then
    match body with
    | ReqGraceCache g response => handleGraceCache name g response ns
    | _ => (mkDOResponse 500 (DOAck false), ns)
    end
  else if String.eqb pathname "/spend" then
    match body with
    | ReqSpend project IK limit ttlSeconds =>
        handleSpend name project IK limit ttlSeconds ns
    | _ => (mkDOResponse 500 (DODecision (mkDecision false None None None)), ns)
    end
  else (mkDOResponse 404 (DOText "Not Found"), ns).

(** *** worker/adapters/durable-object-store.js: the adapter [DurableObjectStore] *)

Definition err_json : string := "Unexpected token in JSON".

(** [DurableObjectStore.spend] *)
Definition DurableObjectStore_spend (params : SpendParams) (ns : DONamespace)
    : Exc Decision * DONamespace :=
  let counterKey := buildCounterKey (key params) in
  let '(response, ns) :=
    BrassCounterDO_fetch counterKey "POST" "/spend"
      (ReqSpend (projectId (key params)) (IK params) (limit params) (ttlSeconds params))
      ns in
  match do_body response with
  | DODecision d =>
      if negb (response_ok response) then
        let e := match error d with
                 | Some e => if String.eqb e "" then "unknown_error" else e
                 | None => "unknown_error"
                 end in
        (Ok (mkDecision false None (Some e) None), ns)
      else (Ok d, ns)
  | _ => (Threw err_json, ns)
  end.

Definition grace_object (g : GraceParams) : string :=
  "grace:" +:+ g_projectId g +:+ ":" +:+ graceKey g.

(** [DurableObjectStore.guardGrace] *)
Definition DurableObjectStore_guardGrace (g : GraceParams) (ns : DONamespace)
    : Exc GraceGuard * DONamespace :=
  let '(response, ns) :=
    BrassCounterDO_fetch (grace_object g) "POST" "/grace/check" (ReqGraceCheck g) ns in
  match do_body response with
  | DOGuard r => (Ok r, ns)
  | _ => (Threw err_json, ns)
  end.

(** [DurableObjectStore.cacheGraceResponse] *)
Definition DurableObjectStore_cacheGraceResponse (g : GraceParams)
    (response : Decision) (ns : DONamespace) : DONamespace :=
  snd (BrassCounterDO_fetch (grace_object g) "POST" "/grace/cache"
         (ReqGraceCache g response) ns).

End Stores.

(** ** worker/deterministic-verifier.js *)

Record Request := mkRequest {
  method : string;
  pathname : string;
  authorization : option string;
  bodyText : string
}.

(** The environment bindings the handler reads.  A numeric setting holds the
    integer that [parseInt] reads from the configured string. *)
Record Env := mkEnv {
  BRASS_KV_bound : bool;
  BRASS_USE_ENV_AUTH : bool;
  BRASS_SECRET_KEY : option string;
  BRASS_PROJECT_ID : option string;
  BRASS_RATE_LIMIT : option Z;
  BRASS_ISSUER_PUBKEY : string;
  BRASS_KV_SECRET : string;
  STORAGE_BACKEND : option string;
  BRASS_COUNTER_bound : bool;
  BOUNDARY_GRACE_SECONDS : option Z;
  TELEMETRY_configured : bool
}.

Inductive Body :=
| Text (text : string)
| Health (ts : Z) (mode : string)
| ErrorBody (kind : string)
| GraceReplay (cached : Decision)
| Denied (kind : option string) (remaining : Z) (windowUsed : string)
| Success (remaining : option Z) (idempotent : bool) (windowUsed : string).

Record Response := mkResponse { status : Z; body : Body }.

(** An emitted telemetry event: the origin and the result it reports. *)
Record TelemetryEvent := mkEvent { t_origin : string; t_result : string }.

(** A call made on the store interface. *)
Inductive StoreCall :=
| CallGuardGrace (g : GraceParams)
| CallSpend (params : SpendParams)
| CallCacheGraceResponse (g : GraceParams) (response : Decision).

(** Everything a request can change: the two counter stores and the
    telemetry sink.  [calls] is the log of the calls the handler made on the
    store interface; the program does not read it, it is kept to state which
    calls a request makes. *)
Record World := mkWorld {
  BRASS_KV : KVNamespace;
  BRASS_COUNTER : DONamespace;
  telemetry : list TelemetryEvent;
  calls : list StoreCall
}.

(** The handler's local state: the world and the variable [origin], which
    the [catch] block reads. *)
Record HState := mkHState { world : World; origin_var : string }.

Inductive outcome (A : Type) : Type :=
| Next (a : A)
| Return (r : Response)
| Raise (message : string).
Arguments Next {A} a.
Arguments Return {A} r.
Arguments Raise {A} message.

Definition Handler (A : Type) : Type := HState -> outcome A * HState.

Definition h_ret {A} (a : A) : Handler A := fun s => (Next a, s).

Definition h_bind {A B} (c : Handler A) (k : A -> Handler B) : Handler B :=
  fun s =>
    match c s with
    | (Next a, s') => k a s'
    | (Return r, s') => (Return r, s')
    | (Raise m, s') => (Raise m, s')
    end.

Notation "'let*' x ':=' c 'in' k" := (h_bind c (fun x => k))
  (at level 10, x name, c at level 100, k at level 200).

Definition respond {A} (r : Response) : Handler A := fun s => (Return r, s).

Definition try {A} (x : Exc A) : Handler A :=
  fun s => (match x with Ok a => Next a | Threw m => Raise m end, s).

Definition set_origin (o : string) : Handler unit :=
  fun s => (Next tt, mkHState (world s) o).

Definition or_else (s fallback : string) : string :=
  if String.eqb s "" then fallback else s.

(** [emitTelemetry]: an event is emitted only when the sink is configured. *)
Definition emitTelemetry (env : Env) (result : string) : Handler unit :=
  fun s =>
    if TELEMETRY_configured env then
      let w := world s in
      let ev := mkEvent (or_else (origin_var s) "unknown") result in
      (Next tt,
       mkHState (mkWorld (BRASS_KV w) (BRASS_COUNTER w) (telemetry w ++ [ev]) (calls w))
                (origin_var s))
    else (Next tt, s).

Definition truthy (o : option string) : bool :=
  match o with
  | Some s => negb (String.eqb s "")
  | None => false
  end.

Definition CONFIG_LABEL_DLEQ : string := "OPRF_METERING_DLEQ_v1".
Definition CONFIG_LABEL_HTTP_CTX : string := "HTTP_CTX_v1".
Definition CONFIG_PROTOCOL_VERSION : string := "BRASS_v2.0".
Definition CONFIG_CIPHER_SUITE : string := "P256_SHA256".
Definition CONFIG_DEFAULT_RATE_LIMIT : Z := 10.

Definition n : Z := P256.n.
Definition G : P256.point := P256.BASE.

(** [modN]: the remainder of BigInt's [%] (it truncates), moved into 0..n-1. *)
Definition modN (x : Z) : Z :=
  let r := Z.rem x n in if r <? 0 then r + n else r.

(** [ctEqual] *)
Definition ctEqual (a b : bytes) : bool :=
  if negb (length a =? length b)%nat then false
  else fold_left (fun v xy => Z.lor v (Z.lxor (fst xy) (snd xy))) (combine a b) 0 =? 0.

Record DleqArgs := mkDleqArgs {
  label : string;
  g1 : P256.point;
  h1 : P256.point;
  g2 : P256.point;
  h2 : P256.point;
  A1 : P256.point;
  A2 : P256.point;
  c : Z;
  r : Z;
  bind : bytes
}.

Section Verifier.
Context `{Imports}.

Local Open Scope string_scope.

(** [dleqVerify] *)
Definition dleqVerify (a : DleqArgs) : Exc bool :=
  e_g1 ← P256.toRawBytes (g1 a);
  e_h1 ← P256.toRawBytes (h1 a);
  e_g2 ← P256.toRawBytes (g2 a);
  e_h2 ← P256.toRawBytes (h2 a);
  e_A1 ← P256.toRawBytes (A1 a);
  e_A2 ← P256.toRawBytes (A2 a);
  let challenge :=
    H3 [utf8ToBytes ("BRASS:" +:+ label a +:+ ":");
        e_g1; e_h1; e_g2; e_h2; e_A1; e_A2; bind a] in
  let chal := modN (bytesToBig challenge) in
  mret (chal =? c a)%Z.

(** [decodePoint] *)
Definition decodePoint (b64 : string) : Exc P256.point :=
  enc ← b64urlToBytes b64;
  P ← match P256.fromHex enc with
      | Ok P => Ok P
      | Threw _ => Threw "invalid_point_encoding"
      end;
  _ ← P256.assertValidity P;
  if P256.equals P P256.ZERO then Threw "invalid_point_infinity" else mret P.

Definition json_error (status : Z) (kind : string) : Response :=
  mkResponse status (ErrorBody kind).

(** [bytesToBig(b64urlToBytes(s))] *)
Definition scalar_of (s : string) : Exc Z :=
  b ← b64urlToBytes s; mret (bytesToBig b).

(** [Q1.multiply(k1).add(Q2.multiply(k2))] *)
Definition combine2 (Q1 : P256.point) (k1 : Z) (Q2 : P256.point) (k2 : Z)
    : Exc P256.point :=
  t1 ← P256.multiply Q1 k1;
  t2 ← P256.multiply Q2 k2;
  mret (P256.add t1 t2).

(** The verification of the client proof: lines "A1c = ..." to "okC". *)
Definition verifyPiC (Ppt Mpt : P256.point) (cC rC : Z) (bindC : bytes) : Exc bool :=
  A1c ← combine2 Ppt rC Mpt cC;
  let A2c := G in
  dleqVerify (mkDleqArgs CONFIG_LABEL_DLEQ Ppt Mpt G G A1c A2c cC rC bindC).

(** The verification of the issuer proof: lines "A1 = ..." to "okI". *)
Definition verifyPiI (Y Mpt Zpt : P256.point) (cI rI : Z) : Exc bool :=
  A1 ← combine2 G rI Y cI;
  A2 ← combine2 Mpt rI Zpt cI;
  let bindI : bytes := [] in
  dleqVerify (mkDleqArgs CONFIG_LABEL_DLEQ G Y Mpt Zpt A1 A2 cI rI bindI).


(** The request-binding digest [d]. *)
Definition compute_d (request : Request) (payload : Payload) : Exc bytes :=
  if truthy (p_http_method payload) && truthy (p_http_path payload)
     && truthy (p_http_body_hash_b64 payload)
  then
    body_hash ← b64urlToBytes (default "" (p_http_body_hash_b64 payload));
    mret (H3 [utf8ToBytes ("BRASS:" +:+ CONFIG_LABEL_HTTP_CTX +:+ ":");
              utf8ToBytes (toUpperCase (default "" (p_http_method payload)));
              utf8ToBytes (default "" (p_http_path payload));
              body_hash])
  else
    mret (H3 [utf8ToBytes ("BRASS:" +:+ CONFIG_LABEL_HTTP_CTX +:+ ":");
              utf8ToBytes (toUpperCase (method request));
              utf8ToBytes (pathname request);
              Sha256.sha256 (utf8ToBytes (bodyText request))]).

(** The binding of the client proof, [bindC]. *)
Definition compute_bindC (payload : Payload) (y nonce d tlsBinding : bytes)
    (window policyId : string) (eta : bytes) : bytes :=
  H3 [utf8ToBytes "BIND"; y; nonce; d; tlsBinding;
      utf8ToBytes window;
      utf8ToBytes CONFIG_CIPHER_SUITE;
      utf8ToBytes CONFIG_PROTOCOL_VERSION;
      utf8ToBytes policyId;
      utf8ToBytes (p_AADr payload);
      utf8ToBytes (p_KID payload);
      eta].

(** API-key authentication: the tenant and its limit. *)
Definition authenticate (request : Request) (env : Env) : Handler (string * Z) :=
  let auth := default "" (authorization request) in
  if negb (String.prefix "Bearer " auth) then
    respond (json_error 401 "missing_api_key")
  else
    let apiKey := String.substring 7 (String.length auth - 7) auth in
    if BRASS_KV_bound env && negb (BRASS_USE_ENV_AUTH env) then
      let* keyData := (fun s => try (lookupApiKey apiKey (BRASS_KV (world s))) s) in
      if negb (valid keyData) then
        respond (json_error 401
                   (match k_error keyData with
                    | Some e => or_else e "invalid_api_key"
                    | None => "invalid_api_key"
                    end))
      else
        h_ret (k_projectId keyData,
               match k_limit keyData with
               | Some l => if (l =? 0)%Z then CONFIG_DEFAULT_RATE_LIMIT else l
               | None => CONFIG_DEFAULT_RATE_LIMIT
               end)
    else
      if negb (bool_decide (Some apiKey = BRASS_SECRET_KEY env)) then
        respond (json_error 401 "invalid_api_key")
      else
        h_ret (match BRASS_PROJECT_ID env with
               | Some p => or_else p "default"
               | None => "default"
               end,
               match BRASS_RATE_LIMIT env with
               | Some l => l
               | None => CONFIG_DEFAULT_RATE_LIMIT
               end).

(** What the verification leaves for the accounting that follows. *)
Record Verified := mkVerified {
  v_projectId : string;
  v_limit : Z;
  v_payload : Payload;
  v_originCanonical : string;
  v_epochDays : string;
  v_policyId : string;
  v_window : string;
  v_y : bytes
}.

(** From the parsing of the body to the verdict on the client proof, for the
    authenticated tenant. *)
Definition verify_presentation (request : Request) (env : Env) (now : Z)
    (tenant : string * Z) : Handler Verified :=
  let projectId := fst tenant in
  let limit := snd tenant in
  let* payload := try (JSON_parse (bodyText request)) in
  let* _ := set_origin (p_origin payload) in
  let* d := try (compute_d request payload) in
  let* Ppt := try (decodePoint (p_P payload)) in
  let* Mpt := try (decodePoint (p_M payload)) in
  let* Zpt := try (decodePoint (p_Z payload)) in
  let* Zppt := try (decodePoint (p_Zprime payload)) in
  let* Y := try (decodePoint (BRASS_ISSUER_PUBKEY env)) in
  let* cI := try (scalar_of (pc (p_piI payload))) in
  let* rI := try (scalar_of (pr (p_piI payload))) in
  let* okI := try (verifyPiI Y Mpt Zpt cI rI) in
  if negb okI then
    let* _ := emitTelemetry env "invalid_piI" in
    respond (json_error 401 "invalid_piI")
  else
  let* dMatch :=
    if truthy (p_d_client payload) then
      let* dc := try (b64urlToBytes (default "" (p_d_client payload))) in
      h_ret (ctEqual d dc)
    else h_ret true in
  if negb dMatch then
    let* _ := emitTelemetry env "d_mismatch" in
    respond (json_error 401 "d_mismatch")
  else
  let* originCanonical := try (canonicalOrigin (p_origin payload)) in
  let epochDays := currentEpochDays now in
  let policyId := parsePolicyId (p_AADr payload) in
  let window := windowId epochDays in
  let eta := deriveEta (BRASS_ISSUER_PUBKEY env) originCanonical epochDays policyId window in
  let y := deriveNullifierY (p_Zprime payload) (p_KID payload) (p_AADr payload) eta in
  let* cC := try (scalar_of (pc (p_piC payload))) in
  let* rC := try (scalar_of (pr (p_piC payload))) in
  let* tlsExporterBytes :=
    if truthy (p_tls_exporter_b64 payload) then
      let* e := try (b64urlToBytes (default "" (p_tls_exporter_b64 payload))) in
      h_ret (Some e)
    else h_ret None in
  let tlsBinding := deriveTlsBinding tlsExporterBytes in
  let* nonce := try (b64urlToBytes (p_c payload)) in
  let bindC := compute_bindC payload y nonce d tlsBinding window policyId eta in
  let* okC := try (verifyPiC Ppt Mpt cC rC bindC) in
  if negb okC then
    let* _ := emitTelemetry env "invalid_piC" in
    respond (json_error 401 "invalid_piC")
  else
    h_ret (mkVerified projectId limit payload originCanonical epochDays policyId window y).

(** From the authentication to the verdict on the client proof. *)
Definition verify (request : Request) (env : Env) (now : Z) : Handler Verified :=
  let* tenant := authenticate request env in
  verify_presentation request env now tenant.


(** The two implementations of [BrassCounterStore]. *)
Inductive Store := KVStore | DurableObjectStore.

Definition err_unbound : string := "Cannot read properties of undefined".

Definition with_kv (w : World) (kv : KVNamespace) : World :=
  mkWorld kv (BRASS_COUNTER w) (telemetry w) (calls w).

Definition with_counter (w : World) (ns : DONamespace) : World :=
  mkWorld (BRASS_KV w) ns (telemetry w) (calls w).

Definition logged (call : StoreCall) (s : HState) : HState :=
  let w := world s in
  mkHState (mkWorld (BRASS_KV w) (BRASS_COUNTER w) (telemetry w) (calls w ++ [call]))
           (origin_var s).

Definition lift_outcome {A} (x : Exc A) : outcome A :=
  match x with
  | Ok a => Next a
  | Threw m => Raise m
  end.

(** [store.spend(params)] *)
Definition store_spend (env : Env) (store : Store) (params : SpendParams)
    : Handler Decision :=
  fun s0 =>
    let s := logged (CallSpend params) s0 in
    match store with
    | KVStore =>
        if BRASS_KV_bound env then
          let '(d, kv) := KVStore_spend params (BRASS_KV (world s)) in
          (Next d, mkHState (with_kv (world s) kv) (origin_var s))
        else (Raise err_unbound, s)
    | DurableObjectStore =>
        let '(d, ns) := DurableObjectStore_spend params (BRASS_COUNTER (world s)) in
        (lift_outcome d, mkHState (with_counter (world s) ns) (origin_var s))
    end.

(** [store.guardGrace(g)] *)
Definition store_guardGrace (env : Env) (store : Store) (g : GraceParams)
    : Handler GraceGuard :=
  fun s0 =>
    let s := logged (CallGuardGrace g) s0 in
    match store with
    | KVStore =>
        if BRASS_KV_bound env then
          (Next (KVStore_guardGrace g (BRASS_KV (world s))), s)
        else (Raise err_unbound, s)
    | DurableObjectStore =>
        let '(r, ns) := DurableObjectStore_guardGrace g (BRASS_COUNTER (world s)) in
        (lift_outcome r, mkHState (with_counter (world s) ns) (origin_var s))
    end.

(** [ctx.waitUntil(store.cacheGraceResponse(g, response))]: the write runs to
    its end; a failure of it does not reach the handler. *)
Definition store_cacheGraceResponse (env : Env) (store : Store) (g : GraceParams)
    (response : Decision) : Handler unit :=
  fun s0 =>
    let s := logged (CallCacheGraceResponse g response) s0 in
    match store with
    | KVStore =>
        if BRASS_KV_bound env then
          (Next tt,
           mkHState (with_kv (world s)
                       (KVStore_cacheGraceResponse g response (BRASS_KV (world s))))
                    (origin_var s))
        else (Next tt, s)
    | DurableObjectStore =>
        (Next tt,
         mkHState (with_counter (world s)
                     (DurableObjectStore_cacheGraceResponse g response
                        (BRASS_COUNTER (world s))))
                  (origin_var s))
    end.

Definition choose_store (env : Env) : Store :=
  let storageBackend :=
    match STORAGE_BACKEND env with
    | Some b => or_else b "kv"
    | None => "kv"
    end in
  if String.eqb storageBackend "durable_objects" && BRASS_COUNTER_bound env
  then DurableObjectStore else KVStore.

Definition boundaryGraceSeconds (env : Env) : Z :=
  default 60%Z (BOUNDARY_GRACE_SECONDS env).

(** The grace key of a verified presentation: [bytesToB64url(yGrace)]. *)
Definition grace_params (env : Env) (v : Verified) : GraceParams :=
  let yGrace :=
    deriveGraceNullifier (p_Zprime (v_payload v)) (p_KID (v_payload v))
      (BRASS_ISSUER_PUBKEY env) (v_originCanonical v) (v_policyId v)
      CONFIG_CIPHER_SUITE CONFIG_PROTOCOL_VERSION (p_AADr (v_payload v)) in
  mkGraceParams (v_projectId v) (bytesToB64url yGrace) (boundaryGraceSeconds env).

Definition spend_params (env : Env) (now : Z) (v : Verified) (IK : string)
    : SpendParams :=
  mkSpendParams
    (mkCounterKey (v_projectId v) (BRASS_ISSUER_PUBKEY env) (v_originCanonical v)
                  (v_epochDays v) (v_policyId v) (v_window v)
                  (bytesToB64url (v_y v)))
    IK (v_limit v) (secondsUntilWindowEnd now (v_epochDays v)).

(** The grace bridge: inside the grace period a cached success is replayed
    and ends the request; otherwise the value of [graceHit] at the spend is
    handed on. *)
Definition grace_bridge (env : Env) (now : Z) (v : Verified) (store : Store)
    : Handler bool :=
  let inGracePeriod := isInGracePeriod now (boundaryGraceSeconds env) in
  if inGracePeriod then
    let* graceGuard := store_guardGrace env store (grace_params env v) in
    match graceGuard with
    | Hit cachedResponse =>
        if ok cachedResponse then
          let* _ := emitTelemetry env "boundary_grace_replay_success" in
          respond (mkResponse 200 (GraceReplay cachedResponse))
        else
          let* _ := emitTelemetry env "boundary_grace_reevaluate_denial" in
          h_ret false
    | Miss => h_ret false
    end
  else h_ret false.

(** The normal path: the spend, the caching of its result for the grace
    period, the response. *)
Definition spend_and_reply (env : Env) (now : Z) (v : Verified) (store : Store)
    (IK : string) (graceHit : bool) : Handler Response :=
  let inGracePeriod := isInGracePeriod now (boundaryGraceSeconds env) in
  let* result := store_spend env store (spend_params env now v IK) in
  let* _ :=
    if inGracePeriod && negb graceHit then
      store_cacheGraceResponse env store (grace_params env v) result
    else h_ret tt in
  if negb (ok result) then
    let eventType :=
      if inGracePeriod then "boundary_denied"
      else match error result with
           | Some e => or_else e "rate_limited"
           | None => "rate_limited"
           end in
    let* _ := emitTelemetry env eventType in
    h_ret (mkResponse 429
             (Denied (error result) (default 0%Z (remaining result)) (v_window v)))
  else
    let* _ := emitTelemetry env "success" in
    h_ret (mkResponse 200
             (Success (remaining result) (default false (idempotent result))
                      (v_window v))).

(** From the idempotency key to the response. *)
Definition settle (env : Env) (now : Z) (v : Verified) : Handler Response :=
  let* kvSecret := try (secretToBytes (BRASS_KV_SECRET env)) in
  let* IK := try (deriveIdempotencyKey kvSecret (v_y v) (p_c (v_payload v))) in
  let store := choose_store env in
  let* graceHit := grace_bridge env now v store in
  spend_and_reply env now v store IK graceHit.

(** The [try] block of [fetch], after the method checks. *)
Definition pipeline (request : Request) (env : Env) (now : Z) : Handler Response :=
  let* v := verify request env now in
  settle env now v.

(** The end of [fetch]: the response of the [try] block, or the one of its
    [catch]. *)
Definition finish (env : Env) (out : outcome Response * HState) : Response * World :=
  match out with
  | (Next resp, s) => (resp, world s)
  | (Return resp, s) => (resp, world s)
  | (Raise message, s) =>
      let kind := or_else message "server_error" in
      (mkResponse 500 (ErrorBody kind), world (snd (emitTelemetry env kind s)))
  end.

(** [fetch(request, env, ctx)] at the clock value [now]. *)
Definition fetch (request : Request) (env : Env) (now : Z) (w : World)
    : Response * World :=
  if String.eqb (method request) "GET" && String.eqb (pathname request) "/health" then
    (mkResponse 200
       (Health now (match STORAGE_BACKEND env with
                    | Some b => or_else b "kv"
                    | None => "kv"
                    end)), w)
  else if negb (String.eqb (method request) "POST") then
    (mkResponse 405 (Text "Method Not Allowed"), w)
  else finish env (pipeline request env now (mkHState w "unknown")).

End Verifier.

(** ** An implementation of the imported helpers

    The modules under [worker/shared/] are not part of the verified sources.
    The definitions of this part follow what the specification says of them
    and give the concrete runs below something to execute; no general
    statement depends on them. *)

Module Shared.

Local Open Scope string_scope.
Local Open Scope Z_scope.

(** Modelled from the spec: [H3] of shared/crypto.js, SHA-256 over the
    concatenation of the parts, each behind its length on four big-endian
    bytes. *)
Definition H3 (parts : list bytes) : bytes :=
  Sha256.sha256
    (flat_map (fun part => (be_bytes 4 (Z.of_nat (length part)) ++ part)%list) parts).

Definition sextet_of (ch : ascii) : option Z :=
  let k := Z.of_N (N_of_ascii ch) in
  if (65 <=? k) && (k <=? 90) then Some (k - 65)
  else if (97 <=? k) && (k <=? 122) then Some (k - 71)
  else if (48 <=? k) && (k <=? 57) then Some (k + 4)
  else if k =? 45 then Some 62
  else if k =? 95 then Some 63
  else None.

Definition ascii_of_sextet (v : Z) : ascii :=
  let k :=
    if v <? 26 then v + 65
    else if v <? 52 then v + 71
    else if v <? 62 then v - 4
    else if v =? 62 then 45 else 95 in
  ascii_of_N (Z.to_N k).

Fixpoint decode_loop (cs : list ascii) (acc nbits : Z) : Exc bytes :=
  match cs with
  | [] => Ok []
  | ch :: rest =>
      match sextet_of ch with
      | None => Threw "Invalid character"
      | Some v =>
          let acc' := acc * 64 + v in
          let nb := nbits + 6 in
          if 8 <=? nb then
            tl ← decode_loop rest (acc' mod 2 ^ (nb - 8)) (nb - 8);
            mret ((acc' / 2 ^ (nb - 8)) mod 256 :: tl)
          else decode_loop rest acc' nb
      end
  end.

(** Modelled from the spec: [b64urlToBytes] of shared/crypto.js, the
    unpadded base64url decoding; a character outside the alphabet is an
    error. *)
Definition b64urlToBytes (s : string) : Exc bytes :=
  decode_loop (list_ascii_of_string s) 0 0.

Fixpoint encode_loop (bs : bytes) (acc nbits : Z) : list ascii :=
  match bs with
  | [] => if 0 <? nbits then [ascii_of_sextet (acc * 2 ^ (6 - nbits))] else []
  | x :: rest =>
      let acc' := acc * 256 + x in
      let nb := nbits + 8 in
      if 12 <=? nb then
        ascii_of_sextet (acc' / 2 ^ (nb - 6))
        :: ascii_of_sextet ((acc' / 2 ^ (nb - 12)) mod 64)
        :: encode_loop rest (acc' mod 2 ^ (nb - 12)) (nb - 12)
      else
        ascii_of_sextet (acc' / 2 ^ (nb - 6))
        :: encode_loop rest (acc' mod 2 ^ (nb - 6)) (nb - 6)
  end.

(** Modelled from the spec: [bytesToB64url] of shared/crypto.js. *)
Definition bytesToB64url (b : bytes) : string :=
  string_of_list_ascii (encode_loop b 0 0).

(** HMAC-SHA-256 (RFC 2104), the [hmac] of @noble/hashes. *)
Definition hmac_sha256 (k msg : bytes) : bytes :=
  let k0 := if (64 <? length k)%nat then Sha256.sha256 k else k in
  let kp := (k0 ++ repeat 0 (64 - length k0))%list in
  Sha256.sha256 (map (Z.lxor 0x5c) kp
                 ++ Sha256.sha256 (map (Z.lxor 0x36) kp ++ msg))%list.

(** Modelled from the spec: [currentEpochDays], floor(now_ms / 86_400_000),
    as a string. *)
Definition currentEpochDays (now : Z) : string := pretty (now / 86400000).

(** Modelled from the spec: [windowId], the identity. *)
Definition windowId (epochDays : string) : string := epochDays.

Fixpoint split_on (sep : ascii) (s : string) (cur : string) : list string :=
  match s with
  | EmptyString => [cur]
  | String ch rest =>
      if Ascii.eqb ch sep then cur :: split_on sep rest ""
      else split_on sep rest (cur +:+ String ch "")
  end.

(** Modelled from the spec: [parsePolicyId], the value of the first
    [policy=VALUE] pair of the [|]-separated AADr, [default] without one. *)
Definition parsePolicyId (AADr : string) : string :=
  match List.find (String.prefix "policy=") (split_on "|"%char AADr "") with
  | Some tok => or_else (String.substring 7 (String.length tok - 7) tok) "default"
  | None => "default"
  end.

(** Modelled from the spec: [secondsUntilWindowEnd], the seconds left in the
    current day, at least 1 and at most 86400. *)
Definition secondsUntilWindowEnd (now : Z) (epochDays : string) : Z :=
  Z.max 1 (86400 - (now / 1000) mod 86400).

(** Modelled from the spec: [isInGracePeriod], strictly less than the grace
    band away from UTC midnight, on either side. *)
Definition isInGracePeriod (now graceSeconds : Z) : bool :=
  let ms := now mod 86400000 in
  (ms <? graceSeconds * 1000) || (86400000 - graceSeconds * 1000 <? ms).

(** Modelled from the spec: eta = H3("BRASS_SALT_v1", issuerPk,
    originCanonical, epochDays, policyId, windowId). *)
Definition deriveEta (issuerPk originCanonical epochDays policyId window : string)
    : bytes :=
  H3 (map utf8ToBytes
        ["BRASS_SALT_v1"; issuerPk; originCanonical; epochDays; policyId; window]).

(** Modelled from the spec: y = H3("BRASS_NULLIFIER_v1", enc(Z'), KID, AADr,
    eta). *)
Definition deriveNullifierY (encZprime KID AADr : string) (eta : bytes) : bytes :=
  H3 [utf8ToBytes "BRASS_NULLIFIER_v1"; utf8ToBytes encZprime; utf8ToBytes KID;
      utf8ToBytes AADr; eta].

(** Modelled from the spec: IK = HMAC-SHA-256(kvSecret, len(y) y len(c) c),
    base64url-encoded. *)
Definition deriveIdempotencyKey (kvSecret y : bytes) (nonce : string) : Exc string :=
  let cb := utf8ToBytes nonce in
  mret (bytesToB64url
          (hmac_sha256 kvSecret
             (be_bytes 4 (Z.of_nat (length y)) ++ y
              ++ be_bytes 4 (Z.of_nat (length cb)) ++ cb)%list)).

(** Modelled from the spec: y_g = H3("BRASS_GRACE_v1", enc(Z'), KID, issuerPk,
    originCanonical, policyId, suite, version, AADr). *)
Definition deriveGraceNullifier
    (encZprime KID issuerPk originCanonical policyId suite version AADr : string)
    : bytes :=
  H3 (map utf8ToBytes
        ["BRASS_GRACE_v1"; encZprime; KID; issuerPk; originCanonical; policyId;
         suite; version; AADr]).

(** Modelled from the spec: tlsBinding = H3("tls_exporter", exporter) with an
    exporter, H3("no_exporter") without. *)
Definition deriveTlsBinding (exporter : option bytes) : bytes :=
  match exporter with
  | Some e => H3 [utf8ToBytes "tls_exporter"; e]
  | None => H3 [utf8ToBytes "no_exporter"]
  end.

(** Modelled from the spec: [buildCounterKey] of shared/storage-interface.js,
    project:<projectId>|<issuerPk>|<origin>|<epoch>|<policyId>|<windowId>|<y>. *)
Definition buildCounterKey (k : CounterKey) : string :=
  "project:" +:+ projectId k +:+ "|" +:+ issuerPk k +:+ "|" +:+ origin k +:+ "|"
  +:+ epoch k +:+ "|" +:+ policy k +:+ "|" +:+ window k +:+ "|" +:+ y k.

(** Modelled from the spec: [buildLegacyCounterKey], the counter key of
    before the tenant namespace, without the [project:<projectId>|] prefix. *)
Definition buildLegacyCounterKey (k : CounterKey) : string :=
  issuerPk k +:+ "|" +:+ origin k +:+ "|" +:+ epoch k +:+ "|" +:+ policy k
  +:+ "|" +:+ window k +:+ "|" +:+ y k.

Definition has_char (chs : list ascii) (s : string) : bool :=
  existsb (fun ch => existsb (Ascii.eqb ch) chs) (list_ascii_of_string s).

(** Modelled from the spec: [canonicalOrigin], on origins that are written
    in canonical form already: the scheme must be https, no path, query or
    fragment may follow the host, the host may not be empty.  Case folding,
    IDNA, ports and trailing dots are not treated. *)
Definition canonicalOrigin (o : string) : Exc string :=
  if String.prefix "https://" o then
    let rest := String.substring 8 (String.length o - 8) o in
    if has_char ["/"; "?"; "#"]%char rest then
      Threw "origin_must_not_contain_path_query_fragment"
    else if String.eqb rest "" then Threw "invalid_hostname"
    else Ok o
  else if has_char [":"]%char o then Threw "origin_must_be_https"
  else Threw "invalid_origin".

(** Modelled from the spec: [lookupApiKey] on a namespace in which no API
    key is registered. *)
Definition lookupApiKey (apiKey : string) (kv : KVNamespace) : Exc KeyData :=
  Ok (mkKeyData false (Some "invalid_api_key") "" None).

Definition upper (ch : ascii) : ascii :=
  let k := N_of_ascii ch in
  if ((97 <=? k) && (k <=? 122))%N then ascii_of_N (k - 32) else ch.

(** [String.prototype.toUpperCase], on ASCII. *)
Definition toUpperCase (s : string) : string :=
  string_of_list_ascii (map upper (list_ascii_of_string s)).


(** *** JSON, as far as a presentation needs it

    A body is one object whose members are strings, integers and objects of
    strings, written without white space and without escapes, the way
    [JSON.stringify] writes a presentation. *)

Inductive jvalue :=
| JString (s : string)
| JNumber (z : Z)
| JObject (members : list (string * string)).

Definition dq : ascii := "034"%char.

Definition quoted (s : string) : string := String dq (s +:+ String dq "").

Fixpoint join (sep : string) (l : list string) : string :=
  match l with
  | [] => ""
  | [x] => x
  | x :: rest => x +:+ sep +:+ join sep rest
  end.

Definition render (v : jvalue) : string :=
  match v with
  | JString s => quoted s
  | JNumber z => pretty z
  | JObject ms =>
      "{" +:+ join "," (map (fun m => quoted (fst m) +:+ ":" +:+ quoted (snd m)) ms)
      +:+ "}"
  end.

Definition render_object (ms : list (string * jvalue)) : string :=
  "{" +:+ join "," (map (fun m => quoted (fst m) +:+ ":" +:+ render (snd m)) ms)
  +:+ "}".

Definition optional (name : string) (o : option string) : list (string * jvalue) :=
  match o with
  | Some s => [(name, JString s)]
  | None => []
  end.

(** [JSON.stringify(payload)] *)
Definition JSON_stringify (p : Payload) : string :=
  render_object
    ([ ("KID", JString (p_KID p)); ("AADr", JString (p_AADr p));
       ("origin", JString (p_origin p)); ("epoch", JNumber (p_epoch p));
       ("c", JString (p_c p)); ("Z", JString (p_Z p));
       ("Zprime", JString (p_Zprime p)); ("P", JString (p_P p));
       ("M", JString (p_M p));
       ("piI", JObject [("c", pc (p_piI p)); ("r", pr (p_piI p))]);
       ("piC", JObject [("c", pc (p_piC p)); ("r", pr (p_piC p))]) ]
     ++ optional "d_client" (p_d_client p)
     ++ optional "tls_exporter_b64" (p_tls_exporter_b64 p)
     ++ optional "http_method" (p_http_method p)
     ++ optional "http_path" (p_http_path p)
     ++ optional "http_body_hash_b64" (p_http_body_hash_b64 p))%list.

Definition parser (A : Type) : Type := list ascii -> option (A * list ascii).

Definition expect (ch : ascii) : parser unit :=
  fun cs =>
    match cs with
    | x :: rest => if Ascii.eqb x ch then Some (tt, rest) else None
    | [] => None
    end.

(** The characters up to the closing quote. *)
Fixpoint until_quote (cs : list ascii) : option (string * list ascii) :=
  match cs with
  | [] => None
  | x :: rest =>
      if Ascii.eqb x dq then Some ("", rest)
      else if Ascii.eqb x "\"%char then None
      else match until_quote rest with
           | Some (s, rest') => Some (String x s, rest')
           | None => None
           end
  end.

Definition p_string : parser string :=
  fun cs =>
    match expect dq cs with
    | Some (_, rest) => until_quote rest
    | None => None
    end.

Definition digit_of (ch : ascii) : option Z :=
  let k := Z.of_N (N_of_ascii ch) in
  if (48 <=? k) && (k <=? 57) then Some (k - 48) else None.

Fixpoint digits (cs : list ascii) (acc : Z) (seen : bool) : option (Z * list ascii) :=
  match cs with
  | x :: rest =>
      match digit_of x with
      | Some v => digits rest (acc * 10 + v) true
      | None => if seen then Some (acc, cs) else None
      end
  | [] => if seen then Some (acc, []) else None
  end.

Definition p_number : parser Z :=
  fun cs =>
    match cs with
    | "-"%char :: rest =>
        match digits rest 0 false with
        | Some (v, rest') => Some (- v, rest')
        | None => None
        end
    | _ => digits cs 0 false
    end.

(** The members of an object, after its opening brace. *)
Fixpoint p_members {A} (value : parser A) (fuel : nat) (cs : list ascii)
    : option (list (string * A) * list ascii) :=
  match fuel with
  | O => None
  | S f =>
      match p_string cs with
      | Some (k, rest) =>
          match expect ":"%char rest with
          | Some (_, rest1) =>
              match value rest1 with
              | Some (v, rest2) =>
                  match rest2 with
                  | ","%char :: rest3 =>
                      match p_members value f rest3 with
                      | Some (ms, rest4) => Some ((k, v) :: ms, rest4)
                      | None => None
                      end
                  | "}"%char :: rest3 => Some ([(k, v)], rest3)
                  | _ => None
                  end
              | None => None
              end
          | None => None
          end
      | None => None
      end
  end.

Definition p_value : parser jvalue :=
  fun cs =>
    match cs with
    | "{"%char :: rest =>
        match p_members p_string (length rest) rest with
        | Some (ms, rest') => Some (JObject ms, rest')
        | None => None
        end
    | x :: _ =>
        if Ascii.eqb x dq then
          match p_string cs with
          | Some (s, rest) => Some (JString s, rest)
          | None => None
          end
        else
          match p_number cs with
          | Some (z, rest) => Some (JNumber z, rest)
          | None => None
          end
    | [] => None
    end.

Definition p_object (s : string) : option (list (string * jvalue)) :=
  match list_ascii_of_string s with
  | "{"%char :: rest =>
      match p_members p_value (length rest) rest with
      | Some (ms, []) => Some ms
      | _ => None
      end
  | _ => None
  end.

Definition field (name : string) (ms : list (string * jvalue)) : option jvalue :=
  snd <$> List.find (fun m => String.eqb (fst m) name) ms.

Definition str_field (name : string) (ms : list (string * jvalue)) : option string :=
  match field name ms with
  | Some (JString s) => Some s
  | _ => None
  end.

Definition int_field (name : string) (ms : list (string * jvalue)) : option Z :=
  match field name ms with
  | Some (JNumber z) => Some z
  | _ => None
  end.

Definition proof_field (name : string) (ms : list (string * jvalue)) : option Proof :=
  match field name ms with
  | Some (JObject o) =>
      c ← snd <$> List.find (fun m => String.eqb (fst m) "c") o;
      r ← snd <$> List.find (fun m => String.eqb (fst m) "r") o;
      Some (mkProof c r)
  | _ => None
  end.

Definition payload_of (ms : list (string * jvalue)) : option Payload :=
  KID ← str_field "KID" ms;
  AADr ← str_field "AADr" ms;
  origin ← str_field "origin" ms;
  epoch ← int_field "epoch" ms;
  c ← str_field "c" ms;
  Zb ← str_field "Z" ms;
  Zprime ← str_field "Zprime" ms;
  P ← str_field "P" ms;
  M ← str_field "M" ms;
  piI ← proof_field "piI" ms;
  piC ← proof_field "piC" ms;
  Some (mkPayload KID AADr origin epoch c Zb Zprime P M piI piC
          (str_field "d_client" ms) (str_field "tls_exporter_b64" ms)
          (str_field "http_method" ms) (str_field "http_path" ms)
          (str_field "http_body_hash_b64" ms)).

(** [JSON.parse(bodyText)] followed by the reading of the fields; a body
    that is not a presentation written as above is refused. *)
Definition JSON_parse (s : string) : Exc Payload :=
  match p_object s with
  | Some ms =>
      match payload_of ms with
      | Some p => Ok p
      | None => Threw "Cannot read properties of undefined"
      end
  | None => Threw "Unexpected token in JSON"
  end.

End Shared.


#[global] Instance shared_imports : Imports := {|
  H3 := Shared.H3;
  canonicalOrigin := Shared.canonicalOrigin;
  currentEpochDays := Shared.currentEpochDays;
  windowId := Shared.windowId;
  parsePolicyId := Shared.parsePolicyId;
  secondsUntilWindowEnd := Shared.secondsUntilWindowEnd;
  isInGracePeriod := Shared.isInGracePeriod;
  deriveEta := Shared.deriveEta;
  deriveNullifierY := Shared.deriveNullifierY;
  deriveIdempotencyKey := Shared.deriveIdempotencyKey;
  deriveGraceNullifier := Shared.deriveGraceNullifier;
  deriveTlsBinding := Shared.deriveTlsBinding;
  bytesToB64url := Shared.bytesToB64url;
  b64urlToBytes := Shared.b64urlToBytes;
  secretToBytes := Shared.b64urlToBytes;
  buildCounterKey := Shared.buildCounterKey;
  buildLegacyCounterKey := Shared.buildLegacyCounterKey;
  lookupApiKey := Shared.lookupApiKey;
  JSON_parse := Shared.JSON_parse;
  toUpperCase := Shared.toUpperCase
|}.

(** ** A concrete presentation

    The first-spend scenario of the specification: issuer key k = 0xA1,
    blinding scalar r = 0x2B, nonce 0x99..99, origin https://example.com,
    KID kid-2025-11, AADr policy=comments|window=W, limit 3.  P is the
    multiple 0x1234567890abcdef of the base point, M = r.P, Z = k.M,
    Z' = k.P, Y = k.G; the two proofs are the ones an honest issuer and an
    honest client produce, and the request context is given by the payload
    (POST /comments, the SHA-256 of the body "hello"). *)

Module Scenario.

Local Open Scope string_scope.

Definition presentation : Payload := {|
  p_KID := "kid-2025-11";
  p_AADr := "policy=comments|window=W";
  p_origin := "https://example.com";
  p_epoch := 20000;
  p_c := "mZmZmZmZmZmZmZmZmZmZmQ";
  p_Z := "ApC04y_Wm1r_2QrBTLSLwC1QzrqViNIhB9MIB7fDQ2WS";
  p_Zprime := "AkXUtWy4swikww97M6kQlxcutrUmT4mRWEaVoB1OL7z_";
  p_P := "A5-thK6uCLvvfwEAFNgs72oJ3isM-HG1zgxPHROlmlk0";
  p_M := "A7pX131A7ZzuqygbRTZ-Gd_n3CZrFAMdjUlC7qseo7Jx";
  p_piI := mkProof "4j56oSKbtuOFpT0vbIBZGFOX1pscwNDcYieztZAG9QI"
                   "trTgGjwR-3fzFIUsw0f3jfKID3NA7jGqadA9u2cHsM4";
  p_piC := mkProof "c4kyba3ZPmWsUvEvfiRx8pLBBWn0Kcgm86ypzJF5DrU"
                   "l_SHf8yChQAOEX0Fz-DcPBufrMUK08PYHINR30kqcds";
  p_d_client := None;
  p_tls_exporter_b64 := None;
  p_http_method := Some "POST";
  p_http_path := Some "/comments";
  p_http_body_hash_b64 := Some "LPJNul-wow4m6DsqxbninhsWHlwfp0JecwQzYpOLmCQ"
|}.

(** [buildSpendRequest] of tests/utils/mock-worker-env.js *)
Definition buildSpendRequest (payload : Payload) (apiKey : string) : Request :=
  mkRequest "POST" "/spend" (Some ("Bearer " +:+ apiKey)) (Shared.JSON_stringify payload).

(** [mockEnvFactory] of tests/utils/mock-worker-env.js, with the secret of
    the idempotency keys set. *)
Definition mockEnv (limit : Z) : Env := {|
  BRASS_KV_bound := true;
  BRASS_USE_ENV_AUTH := true;
  BRASS_SECRET_KEY := Some "test_api_key";
  BRASS_PROJECT_ID := Some "test_project";
  BRASS_RATE_LIMIT := Some limit;
  BRASS_ISSUER_PUBKEY := "AjNyIUfisax1G82lYwuXmcMyOl2F3-kCGDvORkDlKuEl";
  BRASS_KV_SECRET := "KioqKioqKioqKioqKioqKioqKioqKioqKioqKioqKio";
  STORAGE_BACKEND := Some "kv";
  BRASS_COUNTER_bound := false;
  BOUNDARY_GRACE_SECONDS := None;
  TELEMETRY_configured := false
|}.

Definition empty_world : World := mkWorld ∅ ∅ [] [].

(** Day 20000 since the Unix epoch, at 12:00:00 and at 23:59:50 UTC. *)
Definition noon : Z := 1728043200000.
Definition before_midnight : Z := 1728086390000.

Definition request : Request := buildSpendRequest presentation "test_api_key".

(** A counter key and a spend on it, as in tests/storage.test.js. *)
Definition testKey : CounterKey :=
  mkCounterKey "test-project-123" "A7xG..." "https://example.com" "19700" "strict"
               "19700" "nullifier_y_b64".

Definition testSpend : SpendParams := mkSpendParams testKey "idempotency_key_123" 3 3600.

Definition testIkKey : string := ik_key "test-project-123" "idempotency_key_123".

Definition testCountKey : string := count_key (buildCounterKey testKey).

(** A Durable Object that holds the denial of [testSpend]. *)
Definition do_with_denial : DONamespace :=
  {[ (buildCounterKey testKey, testIkKey) := Entry (VJson failureResponse) (Some 3600) ]}.

(** A KV namespace that holds the denial of [testSpend]. *)
Definition kv_with_denial : KVNamespace :=
  {[ testIkKey := Entry (VJson failureResponse) (Some 3600) ]}.

(** A KV namespace with a legacy counter at 5 and no namespaced counter. *)
Definition kv_with_legacy : KVNamespace :=
  {[ count_key (buildLegacyCounterKey testKey) := Entry (VNum 5) (Some 3600) ]}.

(** A Durable Object with a legacy counter at 5 and no namespaced counter. *)
Definition do_with_legacy : DONamespace :=
  {[ (buildCounterKey testKey, "legacy_count") := Entry (VNum 5) None ]}.

Definition testGrace : GraceParams := mkGraceParams "test-project-123" "grace_key_1" 60.

(** The client proof of [presentation], decoded: the points P and M, the
    scalars of piC and the binding the handler computes for it. *)
Definition clientP : P256.point :=
  P256.Affine
    72224323206822444439207028434297968659306166684308023096657583244945120713012
    3525339312755929804175006551957943986159427857419567883897929174333786684751.

Definition clientM : P256.point :=
  P256.Affine
    84285392783418896031447121556719423928435712531875005014240206373625906049649
    92691989090054771306418719122245374368900928565932216347101929392995020050615.

Definition client_c : Z :=
  52258383679210194912960759600275229026257834825998099953966209578354716774069.

Definition client_r : Z :=
  68731286001086593996636276176316622470852206964796908827898169352117432250843.

Definition client_bind : bytes :=
  be_bytes 32
    82348437763869439232349006935489734600920333940817379963411840080668979105825.

(** What the verification of [request] hands on, on day 20000, for a tenant
    with the given limit. *)
Definition verified (limit : Z) : Verified := {|
  v_projectId := "test_project";
  v_limit := limit;
  v_payload := presentation;
  v_originCanonical := "https://example.com";
  v_epochDays := "20000";
  v_policyId := "comments";
  v_window := "20000";
  v_y := [47; 47; 152; 19; 208; 165; 191; 39; 57; 216; 110; 154; 67; 65;
          210; 224; 116; 154; 243; 2; 106; 97; 65; 25; 234; 228; 231; 96;
          233; 250; 176; 243]
|}.

(** The grace key of [presentation] for the tenant of [mockEnv]. *)
Definition testGraceKey : string :=
  grace_key "test_project" "W7pmd2gN7bCnrLrD7AkKXRlrb3DkgvCOM-IAHBAzve4".

(** A world whose KV namespace holds a decision in the grace cache. *)
Definition world_with_grace (cached : Decision) : World :=
  mkWorld {[ testGraceKey := Entry (VJson cached) (Some 60) ]} ∅ [] [].

(** The presentation with four characters in place of the point P. *)
Definition malformed : Payload :=
  mkPayload (p_KID presentation) (p_AADr presentation) (p_origin presentation)
            (p_epoch presentation) (p_c presentation) (p_Z presentation)
            (p_Zprime presentation) "AAAA" (p_M presentation) (p_piI presentation)
            (p_piC presentation) (p_d_client presentation)
            (p_tls_exporter_b64 presentation) (p_http_method presentation)
            (p_http_path presentation) (p_http_body_hash_b64 presentation).

Definition malformed_request : Request := buildSpendRequest malformed "test_api_key".

(** The counter key of [presentation] on day 20000 for the tenant of
    [mockEnv], and a world in which this counter stands at 3. *)
Definition spentKey : CounterKey :=
  mkCounterKey "test_project" "AjNyIUfisax1G82lYwuXmcMyOl2F3-kCGDvORkDlKuEl"
               "https://example.com" "20000" "comments" "20000"
               "Ly-YE9Clvyc52G6aQ0HS4HSa8wJqYUEZ6uTnYOn6sPM".

Definition world_at_limit : World :=
  mkWorld {[ count_key (buildCounterKey spentKey) := Entry (VNum 3) (Some 10) ]} ∅ [] [].

(** The idempotency key and the grace parameters of [presentation]. *)
Definition testIK : string := "0NQRXrxTO7F9ajjyUGbPyz70DS5ohOCKFPD3s_f84yk".

Definition graceOfPresentation : GraceParams :=
  mkGraceParams "test_project" "W7pmd2gN7bCnrLrD7AkKXRlrb3DkgvCOM-IAHBAzve4" 60.

(** A request that carries no Authorization header. *)
Definition anonymous_request : Request :=
  mkRequest "POST" "/spend" None (Shared.JSON_stringify presentation).

(** The other values the handler decodes from [presentation] for the tenant
    of [mockEnv]: the points Z and Z', the issuer's public key, the scalars
    of piI, the digest d and the nonce. *)
Definition clientZ : P256.point :=
  P256.Affine
    65452650653789423868217705826244639872324408163321202618389780042856177821074
    93596350625743286955533304338854365501535625857555245878206738105665287633064.

Definition clientZprime : P256.point :=
  P256.Affine
    31585410277192519305632203533606778700406173226810047195396526996166607355135
    46012324589636397602697133355196727693593108913045073440964709795404819964116.

Definition issuerY : P256.point :=
  P256.Affine
    23269605538790647699114077052105048249299387276331498904890268411767720436005
    1737407087003516834856054679087885423253854588216365670560944092261281360884.



Definition digest : bytes :=
  be_bytes 32
    72976198108929698236320916573460637413055211766262631429283083326191655351103.

Definition nonce : bytes := be_bytes 16 204169420152563078078024764459060926873.

(** The presentation with another path in its [http_path]: the digest d, and
    with it the binding of the client proof, is no longer the one the client
    signed. *)
Definition tampered : Payload :=
  mkPayload (p_KID presentation) (p_AADr presentation)
            (p_origin presentation) (p_epoch presentation)
            (p_c presentation) (p_Z presentation)
            (p_Zprime presentation) (p_P presentation)
            (p_M presentation) (p_piI presentation)
            (p_piC presentation) (p_d_client presentation)
            (p_tls_exporter_b64 presentation)
            (p_http_method presentation) (Some "/comment")
            (p_http_body_hash_b64 presentation).

Definition tampered_request : Request :=
  buildSpendRequest tampered "test_api_key".

Definition tampered_digest : bytes :=
  be_bytes 32
    7621636977837393494400507570826670606996404964365053566436053809482516522352.

(** The presentation with the client proof in the place of the issuer
    proof. *)
Definition forged : Payload :=
  mkPayload (p_KID presentation) (p_AADr presentation)
            (p_origin presentation) (p_epoch presentation)
            (p_c presentation) (p_Z presentation)
            (p_Zprime presentation) (p_P presentation)
            (p_M presentation) (p_piC presentation)
            (p_piC presentation) (p_d_client presentation)
            (p_tls_exporter_b64 presentation)
            (p_http_method presentation) (p_http_path presentation)
            (p_http_body_hash_b64 presentation).

Definition forged_request : Request :=
  buildSpendRequest forged "test_api_key".

(** A KV namespace in which the counter of [testKey] stands at 1. *)
Definition kv_with_count : KVNamespace :=
  {[ testCountKey := Entry (VNum 1) (Some 3600) ]}.

End Scenario.



(** ** The statements of the specification, as definitions *)

Section Specification.
Context `{Imports}.

Local Open Scope string_scope.


(** The count a spend compares with the limit: the namespaced counter, or
    the legacy counter when the namespaced one reads 0 and the legacy one is
    positive. *)
Definition adopted (count legacyCount : Z) : Z :=
  if (count =? 0)%Z && enableMigrationFallback && (0 <? legacyCount)%Z
  then legacyCount else count.

Definition kv_current_count (params : SpendParams) (kv : KVNamespace) : Z :=
  adopted (get_count kv (count_key (buildCounterKey (key params))))
          (get_count kv (count_key (buildLegacyCounterKey (key params)))).

Definition do_current_count (name : string) (ns : DONamespace) : Z :=
  adopted (get_count ns (name, "count")) (get_count ns (name, "legacy_count")).

(** Whether a proof check let the request through. *)
Definition accepted (x : Exc bool) : bool :=
  match x with
  | Ok true => true
  | _ => false
  end.

(** The Fiat-Shamir challenge of the specification:
    H3("BRASS:"+L+":", enc(g1), enc(h1), enc(g2), enc(h2), enc(A1), enc(A2), bind)
    mod n. *)
Definition FS (g1 h1 g2 h2 A1 A2 : P256.point) (bind : bytes) (L : string) : Exc Z :=
  e_g1 ← P256.toRawBytes g1;
  e_h1 ← P256.toRawBytes h1;
  e_g2 ← P256.toRawBytes g2;
  e_h2 ← P256.toRawBytes h2;
  e_A1 ← P256.toRawBytes A1;
  e_A2 ← P256.toRawBytes A2;
  mret (bytesToBig (H3 [utf8ToBytes ("BRASS:" +:+ L +:+ ":");
                        e_g1; e_h1; e_g2; e_h2; e_A1; e_A2; bind]) mod n)%Z.

(** The verifier equation as the specification writes it: A1' = g1^r.h1^c,
    A2' = g2^r.h2^c, c' = FS(g1, h1, g2, h2, A1', A2', bind, label), accept iff
    c' = c (mod n). *)
Definition reference_equation (g1 h1 g2 h2 : P256.point) (c r : Z) (bind : bytes)
    : Exc bool :=
  let A1' := P256.add (P256.scalar_mul g1 r) (P256.scalar_mul h1 c) in
  let A2' := P256.add (P256.scalar_mul g2 r) (P256.scalar_mul h2 c) in
  c' ← FS g1 h1 g2 h2 A1' A2' bind CONFIG_LABEL_DLEQ;
  mret (c' =? c mod n)%Z.


(** The namespaces and the call log of a handler state. *)
Definition stores (s : HState) : KVNamespace * DONamespace * list StoreCall :=
  (BRASS_KV (world s), BRASS_COUNTER (world s), calls (world s)).

(** A step that leaves the stores and the call log as they are. *)
Definition quiet {A} (c : Handler A) : Prop :=
  forall s, stores (snd (c s)) = stores s.

(** A step whose early responses all satisfy [P]. *)
Definition responds_only {A} (P : Response -> Prop) (c : Handler A) : Prop :=
  forall s r s', c s = (Return r, s') -> P r.

(** A step whose responses, early or final, all satisfy [P]. *)
Definition yields (P : Response -> Prop) (c : Handler Response) : Prop :=
  forall s o s', c s = (o, s') ->
    match o with
    | Next r => P r
    | Return r => P r
    | Raise _ => True
    end.

(** The [windowUsed] field of a response body. *)
Definition windowUsed (b : Body) : option string :=
  match b with
  | GraceReplay _ => Some "grace_cached"
  | Denied _ _ w => Some w
  | Success _ _ w => Some w
  | _ => None
  end.

(** What a request leaves to see of the grace cache: the response, the
    entry of the grace cache at [key] and the last call on the store
    interface. *)
Definition grace_view (key : string) (r : Response * World)
    : Response * option Decision * option StoreCall :=
  (fst r, get_json (BRASS_KV (snd r)) key, last (calls (snd r))).

(** A body that reports no error kind: a decision or a replayed one. *)
Definition is_decision (r : Response) : Prop :=
  match body r with
  | GraceReplay _ | Denied _ _ _ | Success _ _ _ => True
  | _ => False
  end.

(** An answer of the handler to a failed check: status 401, kind among the
    given ones. *)
Definition rejects (kinds : list string) (r : Response) : Prop :=
  status r = 401%Z /\ exists k, In k kinds /\ body r = ErrorBody k.

(** The kinds the handler answers itself after a failed check. *)
Definition answered_kinds : list string := ["invalid_piI"; "d_mismatch"; "invalid_piC"].


(** The payload with another value in its [epoch] field. *)
Definition with_epoch (e : Z) (p : Payload) : Payload :=
  mkPayload (p_KID p) (p_AADr p) (p_origin p) e (p_c p) (p_Z p) (p_Zprime p) (p_P p)
            (p_M p) (p_piI p) (p_piC p) (p_d_client p) (p_tls_exporter_b64 p)
            (p_http_method p) (p_http_path p) (p_http_body_hash_b64 p).

End Specification.


(** ** Drivers, observations and the test double *)

Section Compositions.
Context `{Imports}.

Local Open Scope string_scope.

(** [spend] called once for each idempotency key of a list, in order, on one
    counter key: the decisions and the namespace at the end. *)
Fixpoint spend_each (k : CounterKey) (limit ttlSeconds : Z) (IKs : list string)
    (kv : KVNamespace) : list Decision * KVNamespace :=
  match IKs with
  | [] => ([], kv)
  | IK :: rest =>
      let '(d, kv1) := KVStore_spend (mkSpendParams k IK limit ttlSeconds) kv in
      let '(ds, kv2) := spend_each k limit ttlSeconds rest kv1 in
      (d :: ds, kv2)
  end.

End Compositions.

Section Observations.
Context `{Imports}.

Local Open Scope string_scope.

(** A step that emits no telemetry event. *)
Definition silent {A} (c : Handler A) : Prop :=
  forall s, telemetry (world (snd (c s))) = telemetry (world s).

(** A step whose outcome does not depend on the state it runs in. *)
Definition oblivious {A} (c : Handler A) : Prop :=
  forall s1 s2, fst (c s1) = fst (c s2).

(** The response the handler builds from the result of [spend]. *)
Definition rendered (result : Decision) (window : string) : Response :=
  if ok result then
    mkResponse 200 (Success (remaining result) (default false (idempotent result)) window)
  else
    mkResponse 429 (Denied (error result) (default 0%Z (remaining result)) window).

End Observations.

(** ** worker/tests/utils/mock-worker-env.js: the class [MockKV]

    The [Map] of the mock is kept as the list of its entries in insertion
    order, as [Map.prototype.keys] enumerates them.  A [setTimeout] of [put]
    is kept as a pending timer; [fire] runs the callback of one of them. *)

Module MockKV.

Local Open Scope string_scope.

Record t := mk {
  store : list (string * string);
  timers : list (Z * string)
}.

(** [new MockKV()] *)
Definition empty : t := mk [] [].

(** [Map.prototype.get] *)
Fixpoint map_get (m : list (string * string)) (key : string) : option string :=
  match m with
  | [] => None
  | (k, v) :: rest => if String.eqb k key then Some v else map_get rest key
  end.

(** [Map.prototype.set]: a key that is present keeps its place. *)
Fixpoint map_set (m : list (string * string)) (key value : string)
    : list (string * string) :=
  match m with
  | [] => [(key, value)]
  | (k, v) :: rest =>
      if String.eqb k key then (k, value) :: rest else (k, v) :: map_set rest key value
  end.

(** [Map.prototype.delete] *)
Fixpoint map_delete (m : list (string * string)) (key : string)
    : list (string * string) :=
  match m with
  | [] => []
  | (k, v) :: rest =>
      if String.eqb k key then rest else (k, v) :: map_delete rest key
  end.

(** [get(key)]: [this.store.get(key) || null] *)
Definition get (kv : t) (key : string) : option string :=
  match map_get (store kv) key with
  | Some v => if String.eqb v "" then None else Some v
  | None => None
  end.

(** [put(key, value, options)] *)
Definition put (kv : t) (key value : string) (expirationTtl : option Z) : t :=
  mk (map_set (store kv) key value)
     (match expirationTtl with
      | Some ttl => if (ttl =? 0)%Z then timers kv
                    else (timers kv ++ [((ttl * 1000)%Z, key)])%list
      | None => timers kv
      end).

(** [delete(key)] *)
Definition delete (kv : t) (key : string) : t :=
  mk (map_delete (store kv) key) (timers kv).

(** The callback of the [i]-th pending timer runs. *)
Definition fire (kv : t) (i : nat) : t :=
  match nth_error (timers kv) i with
  | Some (_, key) =>
      mk (map_delete (store kv) key)
         (firstn i (timers kv) ++ skipn (S i) (timers kv))%list
  | None => kv
  end.

(** [Array.prototype.slice(0, n)] *)
Definition slice0 {A} (n : Z) (l : list A) : list A :=
  if (n <? 0)%Z then firstn (Z.to_nat (Z.of_nat (length l) + n)) l
  else firstn (Z.to_nat n) l.

(** [list(options)]: the names and [list_complete]. *)
Definition list (kv : t) (prefix : option string) (limit : option Z)
    : list string * bool :=
  let keys :=
    filter (fun k => negb (truthy prefix) || String.prefix (default "" prefix) k)
           (map fst (store kv)) in
  let n := match limit with
           | Some l => if (l =? 0)%Z then 1000%Z else l
           | None => 1000%Z
           end in
  (slice0 n keys, true).

(** The keys of a [Map] are distinct. *)
Definition wf (kv : t) : Prop := NoDup (map fst (store kv)).

End MockKV.

(** ** The steps of the verification, one by one

    The values the handler computes on its way through the verification
    (lines 183-338 of [worker/deterministic-verifier.js]), named so that a
    statement can say which step failed and on which values. *)

Section Steps.
Context `{Imports}.

Local Open Scope string_scope.

(** [auth.slice(7)] *)
Definition bearer_key (request : Request) : string :=
  let auth := default "" (authorization request) in
  String.substring 7 (String.length auth - 7) auth.

(** The encoded points in the order in which the handler decodes them: P, M,
    Z, Z' of the payload and the issuer's public key. *)
Definition encoded_points (payload : Payload) (env : Env) : list string :=
  [p_P payload; p_M payload; p_Z payload; p_Zprime payload; BRASS_ISSUER_PUBKEY env].

(** The request reaches the check of the issuer proof: the body parses to
    [payload], the digest is [d], the five points decode and the two scalars
    of piI are read. *)
Definition decoded (request : Request) (env : Env) (payload : Payload) (d : bytes)
    (Ppt Mpt Zpt Zppt Y : P256.point) (cI rI : Z) : Prop :=
  JSON_parse (bodyText request) = Ok payload
  /\ compute_d request payload = Ok d
  /\ decodePoint (p_P payload) = Ok Ppt
  /\ decodePoint (p_M payload) = Ok Mpt
  /\ decodePoint (p_Z payload) = Ok Zpt
  /\ decodePoint (p_Zprime payload) = Ok Zppt
  /\ decodePoint (BRASS_ISSUER_PUBKEY env) = Ok Y
  /\ scalar_of (pc (p_piI payload)) = Ok cI
  /\ scalar_of (pr (p_piI payload)) = Ok rI.

(** [if (d_client) { dMatch = ctEqual(d, b64urlToBytes(d_client)) }]: the
    comparison passes when the payload has no [d_client]. *)
Definition d_check (payload : Payload) (d : bytes) : Exc bool :=
  if truthy (p_d_client payload) then
    dc ← b64urlToBytes (default "" (p_d_client payload));
    mret (ctEqual d dc)
  else mret true.

(** [tls_exporter_b64 ? b64urlToBytes(tls_exporter_b64) : null] *)
Definition tls_exporter (payload : Payload) : Exc (option bytes) :=
  if truthy (p_tls_exporter_b64 payload) then
    e ← b64urlToBytes (default "" (p_tls_exporter_b64 payload));
    mret (Some e)
  else mret None.

(** The request reaches the check of the client proof: the origin is
    canonicalized to [originCanonical], the two scalars of piC, the TLS
    exporter and the nonce are read. *)
Definition bound (payload : Payload) (originCanonical : string) (cC rC : Z)
    (tlsExporterBytes : option bytes) (nonce : bytes) : Prop :=
  canonicalOrigin (p_origin payload) = Ok originCanonical
  /\ scalar_of (pc (p_piC payload)) = Ok cC
  /\ scalar_of (pr (p_piC payload)) = Ok rC
  /\ tls_exporter payload = Ok tlsExporterBytes
  /\ b64urlToBytes (p_c payload) = Ok nonce.

(** The server-side derivations: what the handler keeps of a presentation for
    the accounting. *)
Definition verified_of (tenant : string * Z) (env : Env) (now : Z) (payload : Payload)
    (originCanonical : string) : Verified :=
  let epochDays := currentEpochDays now in
  let policyId := parsePolicyId (p_AADr payload) in
  let window := windowId epochDays in
  let eta := deriveEta (BRASS_ISSUER_PUBKEY env) originCanonical epochDays policyId window in
  let y := deriveNullifierY (p_Zprime payload) (p_KID payload) (p_AADr payload) eta in
  mkVerified (fst tenant) (snd tenant) payload originCanonical epochDays policyId window y.

(** The binding [bindC] the handler computes for the client proof. *)
Definition bindC_of (env : Env) (now : Z) (payload : Payload) (originCanonical : string)
    (d : bytes) (tlsExporterBytes : option bytes) (nonce : bytes) : bytes :=
  let epochDays := currentEpochDays now in
  let policyId := parsePolicyId (p_AADr payload) in
  let window := windowId epochDays in
  let eta := deriveEta (BRASS_ISSUER_PUBKEY env) originCanonical epochDays policyId window in
  let y := deriveNullifierY (p_Zprime payload) (p_KID payload) (p_AADr payload) eta in
  compute_bindC payload y nonce d (deriveTlsBinding tlsExporterBytes) window policyId eta.

(** The state in which the handler answers a failed check: the variable
    [origin] holds the payload's origin and the event is emitted. *)
Definition rejected (env : Env) (kind : string) (payload : Payload) (w : World) : World :=
  world (snd (emitTelemetry env kind (mkHState w (p_origin payload)))).

(** A step of the handler before the call of [store.spend] fails: the
    authentication, the parsing of the body, the reading of a field, the
    decoding of a point, the check of the issuer proof, the comparison of
    d_client, the canonicalization of the origin, the check of the client
    proof, or the derivation of the idempotency key.  Each case names the
    step by the values the handler feeds it. *)
Inductive step_fails (request : Request) (env : Env) (now : Z) (w : World) : Prop :=
| missing_api_key :
    String.prefix "Bearer " (default "" (authorization request)) = false ->
    step_fails request env now w
| unknown_api_key :
    BRASS_KV_bound env && negb (BRASS_USE_ENV_AUTH env) = true ->
    (forall keyData, lookupApiKey (bearer_key request) (BRASS_KV w) = Ok keyData ->
       valid keyData = false) ->
    step_fails request env now w
| wrong_api_key :
    BRASS_KV_bound env && negb (BRASS_USE_ENV_AUTH env) = false ->
    Some (bearer_key request) <> BRASS_SECRET_KEY env ->
    step_fails request env now w
| body_parse_failure m :
    JSON_parse (bodyText request) = Threw m ->
    step_fails request env now w
| field_decoding payload m :
    JSON_parse (bodyText request) = Ok payload ->
    compute_d request payload = Threw m
    \/ (exists x, In x [pc (p_piI payload); pr (p_piI payload);
                        pc (p_piC payload); pr (p_piC payload)]
                  /\ scalar_of x = Threw m)
    \/ tls_exporter payload = Threw m
    \/ b64urlToBytes (p_c payload) = Threw m ->
    step_fails request env now w
| point_decoding payload x m :
    JSON_parse (bodyText request) = Ok payload ->
    In x (encoded_points payload env) ->
    decodePoint x = Threw m ->
    step_fails request env now w
| piI_verification payload Mpt Zpt Y cI rI :
    JSON_parse (bodyText request) = Ok payload ->
    decodePoint (p_M payload) = Ok Mpt ->
    decodePoint (p_Z payload) = Ok Zpt ->
    decodePoint (BRASS_ISSUER_PUBKEY env) = Ok Y ->
    scalar_of (pc (p_piI payload)) = Ok cI ->
    scalar_of (pr (p_piI payload)) = Ok rI ->
    verifyPiI Y Mpt Zpt cI rI <> Ok true ->
    step_fails request env now w
| d_client_mismatch payload d :
    JSON_parse (bodyText request) = Ok payload ->
    compute_d request payload = Ok d ->
    d_check payload d <> Ok true ->
    step_fails request env now w
| origin_canonicalization payload m :
    JSON_parse (bodyText request) = Ok payload ->
    canonicalOrigin (p_origin payload) = Threw m ->
    step_fails request env now w
| piC_verification payload d Ppt Mpt originCanonical cC rC tlsExporterBytes nonce :
    JSON_parse (bodyText request) = Ok payload ->
    compute_d request payload = Ok d ->
    decodePoint (p_P payload) = Ok Ppt ->
    decodePoint (p_M payload) = Ok Mpt ->
    bound payload originCanonical cC rC tlsExporterBytes nonce ->
    verifyPiC Ppt Mpt cC rC
      (bindC_of env now payload originCanonical d tlsExporterBytes nonce) <> Ok true ->
    step_fails request env now w
| idempotency_key_derivation v s :
    verify request env now (mkHState w "unknown") = (Next v, s) ->
    (forall kvSecret, secretToBytes (BRASS_KV_SECRET env) = Ok kvSecret ->
       exists m, deriveIdempotencyKey kvSecret (v_y v) (p_c (v_payload v)) = Threw m) ->
    step_fails request env now w.

End Steps.

(** ** The counter stores *)

Section StoreFacts.
Context `{Imports}.

Local Open Scope string_scope.

Lemma ik_key_not_count_key project IK counterKey :
  ik_key project IK <> count_key counterKey.
Proof. unfold ik_key, count_key. simpl. discriminate. Qed.

Lemma ik_key_not_count project IK : ik_key project IK <> "count".
Proof. unfold ik_key. simpl. discriminate. Qed.

Lemma get_json_put_same {K} `{Countable K} (m : gmap K entry) k d ttl :
  get_json (put m k (VJson d) ttl) k = Some d.
Proof. unfold get_json, put. by rewrite lookup_insert_eq. Qed.

Lemma get_json_put_other {K} `{Countable K} (m : gmap K entry) k k' v ttl :
  k <> k' -> get_json (put m k v ttl) k' = get_json m k'.
Proof. intros Hne. unfold get_json, put. by rewrite lookup_insert_ne. Qed.

Lemma get_count_put_same {K} `{Countable K} (m : gmap K entry) k c ttl :
  get_count (put m k (VNum c) ttl) k = c.
Proof. unfold get_count, put. by rewrite lookup_insert_eq. Qed.

Lemma get_count_put_other {K} `{Countable K} (m : gmap K entry) k k' v ttl :
  k <> k' -> get_count (put m k v ttl) k' = get_count m k'.
Proof. intros Hne. unfold get_count, put. by rewrite lookup_insert_ne. Qed.

(** A replay on the best-effort store: the stored decision with
    [idempotent: true], and nothing written. *)
Lemma KVStore_spend_replay params kv cached :
  get_json kv (ik_key (projectId (key params)) (IK params)) = Some cached ->
  KVStore_spend params kv = (replayed cached, kv).
Proof. intros Hik. unfold KVStore_spend. by rewrite Hik. Qed.

(** A replay inside the Durable Object: the stored decision with
    [idempotent: true] under its original status, and nothing written. *)
Lemma handleSpend_replay name project IK limit ttlSeconds ns cached :
  get_json ns (name, ik_key project IK) = Some cached ->
  handleSpend name project IK limit ttlSeconds ns
  = (mkDOResponse (if ok cached then 200 else 429) (DODecision (replayed cached)), ns).
Proof. intros Hik. unfold handleSpend. by rewrite Hik. Qed.

(** A replay through the adapter of the atomic store: a stored success
    comes back whole, a stored denial comes back as [{ ok: false, error }],
    without its [remaining] and without [idempotent]. *)
Lemma DurableObjectStore_spend_replay params ns cached :
  get_json ns (buildCounterKey (key params),
               ik_key (projectId (key params)) (IK params)) = Some cached ->
  DurableObjectStore_spend params ns
  = (Ok (if ok cached then replayed cached
         else mkDecision false None
                (Some (match error cached with
                       | Some e => if String.eqb e "" then "unknown_error" else e
                       | None => "unknown_error"
                       end)) None),
     ns).
Proof.
  intros Hik. unfold DurableObjectStore_spend, BrassCounterDO_fetch. simpl.
  rewrite (handleSpend_replay _ _ _ _ _ _ _ Hik).
  destruct (ok cached) eqn:Hok; simpl; reflexivity.
Qed.


(** The spend with no idempotency record, on the best-effort store. *)
Lemma KVStore_spend_fresh params kv :
  get_json kv (ik_key (projectId (key params)) (IK params)) = None ->
  let C := kv_current_count params kv in
  let ikKey := ik_key (projectId (key params)) (IK params) in
  let countKey := count_key (buildCounterKey (key params)) in
  let ttl := Some (ttlSeconds params) in
  let out := KVStore_spend params kv in
  if (limit params <=? C)%Z then
    fst out = failureResponse
    /\ snd out !! ikKey = Some (Entry (VJson failureResponse) ttl)
    /\ get_count (snd out) countKey = C
  else
    fst out = successResponse (Z.max 0 (limit params - (C + 1)))
    /\ snd out !! countKey = Some (Entry (VNum (C + 1)) ttl)
    /\ snd out !! ikKey
       = Some (Entry (VJson (successResponse (Z.max 0 (limit params - (C + 1))))) ttl).
Proof.
  intros Hik. cbv zeta. unfold KVStore_spend, kv_current_count, adopted.
  rewrite Hik.
  pose proof (ik_key_not_count_key (projectId (key params)) (IK params)
                (buildCounterKey (key params))) as Hne.
  set (count := get_count kv (count_key (buildCounterKey (key params)))).
  set (legacy := get_count kv (count_key (buildLegacyCounterKey (key params)))).
  destruct ((count =? 0)%Z && enableMigrationFallback) eqn:Hz;
    [destruct (0 <? legacy)%Z eqn:Hl|]; simpl;
    match goal with
    | |- context [(limit params <=? ?c)%Z] => destruct (limit params <=? c)%Z eqn:Hlim
    end; simpl; unfold put;
    repeat split;
    rewrite ?lookup_insert_eq; try reflexivity;
    unfold get_count;
    rewrite ?(lookup_insert_ne _ _ _ _ Hne), ?lookup_insert_eq; try reflexivity;
    rewrite ?(lookup_insert_ne _ _ _ _ (not_eq_sym Hne)), ?lookup_insert_eq;
    reflexivity.
Qed.

(** The spend with no idempotency record, inside the Durable Object. *)
Lemma handleSpend_fresh name project IK limit ttlSeconds ns :
  get_json ns (name, ik_key project IK) = None ->
  let C := do_current_count name ns in
  let out := handleSpend name project IK limit ttlSeconds ns in
  if (limit <=? C)%Z then
    fst out = mkDOResponse 429 (DODecision failureResponse)
    /\ snd out !! (name, ik_key project IK)
       = Some (Entry (VJson failureResponse) (Some ttlSeconds))
    /\ get_count (snd out) (name, "count") = C
  else
    fst out = mkDOResponse 200
                (DODecision (successResponse (Z.max 0 (limit - (C + 1)))))
    /\ snd out !! (name, "count") = Some (Entry (VNum (C + 1)) (Some ttlSeconds))
    /\ snd out !! (name, ik_key project IK)
       = Some (Entry (VJson (successResponse (Z.max 0 (limit - (C + 1)))))
                     (Some ttlSeconds)).
Proof.
  intros Hik. cbv zeta. unfold handleSpend, do_current_count, adopted.
  rewrite Hik.
  assert (Hne : (name, ik_key project IK) <> (name, "count")).
  { intros Heq. apply (f_equal snd) in Heq. simpl in Heq.
    by apply ik_key_not_count in Heq. }
  set (count := get_count ns (name, "count")).
  set (legacy := get_count ns (name, "legacy_count")).
  destruct ((count =? 0)%Z && enableMigrationFallback) eqn:Hz;
    [destruct (0 <? legacy)%Z eqn:Hl|]; simpl;
    match goal with
    | |- context [(limit <=? ?c)%Z] => destruct (limit <=? c)%Z eqn:Hlim
    end; simpl; unfold put;
    repeat split;
    rewrite ?lookup_insert_eq; try reflexivity;
    unfold get_count;
    rewrite ?(lookup_insert_ne _ _ _ _ Hne), ?lookup_insert_eq; try reflexivity;
    rewrite ?(lookup_insert_ne _ _ _ _ (not_eq_sym Hne)), ?lookup_insert_eq;
    reflexivity.
Qed.

(** A grace entry, once stored, stays: the cache write of the best-effort
    store changes nothing when the key holds a response. *)
Lemma KVStore_cacheGraceResponse_stored g response kv existing :
  get_json kv (grace_key (g_projectId g) (graceKey g)) = Some existing ->
  KVStore_cacheGraceResponse g response kv = kv.
Proof. intros Hg. unfold KVStore_cacheGraceResponse. by rewrite Hg. Qed.

(** The same through the adapter of the atomic store. *)
Lemma DurableObjectStore_cacheGraceResponse_stored g response ns existing :
  get_json ns (grace_object g, grace_key (g_projectId g) (graceKey g)) = Some existing ->
  DurableObjectStore_cacheGraceResponse g response ns = ns.
Proof.
  intros Hg. unfold DurableObjectStore_cacheGraceResponse, BrassCounterDO_fetch.
  simpl. unfold handleGraceCache. by rewrite Hg.
Qed.

(** The first writer of a free grace key stores its response. *)
Lemma KVStore_cacheGraceResponse_first g response kv :
  get_json kv (grace_key (g_projectId g) (graceKey g)) = None ->
  get_json (KVStore_cacheGraceResponse g response kv)
           (grace_key (g_projectId g) (graceKey g)) = Some response.
Proof.
  intros Hg. unfold KVStore_cacheGraceResponse. rewrite Hg.
  apply get_json_put_same.
Qed.

Lemma DurableObjectStore_cacheGraceResponse_first g response ns :
  get_json ns (grace_object g, grace_key (g_projectId g) (graceKey g)) = None ->
  get_json (DurableObjectStore_cacheGraceResponse g response ns)
           (grace_object g, grace_key (g_projectId g) (graceKey g)) = Some response.
Proof.
  intros Hg. unfold DurableObjectStore_cacheGraceResponse, BrassCounterDO_fetch.
  simpl. unfold handleGraceCache. rewrite Hg. simpl. apply get_json_put_same.
Qed.

End StoreFacts.

(** ** The handler *)

Section HandlerFacts.
Context `{Imports}.

Local Open Scope string_scope.

Lemma rem_adjusted (m x : Z) :
  (0 < m)%Z ->
  (let r := Z.rem x m in if (r <? 0)%Z then (r + m)%Z else r) = (x mod m)%Z.
Proof.
  intros Hm. cbv zeta.
  destruct (Z.rem x m <? 0)%Z eqn:Hneg.
  - apply Z.ltb_lt in Hneg.
    assert (Hx : (x <= 0)%Z).
    { destruct (Z.le_gt_cases x 0) as [Hle|Hgt]; [exact Hle|].
      pose proof (Z.rem_nonneg x m ltac:(lia) ltac:(lia)). lia. }
    pose proof (Z.rem_bound_pos_neg x m Hm Hx) as Hb.
    apply (Z.mod_unique x m (Z.quot x m - 1)); [lia|].
    pose proof (Z.quot_rem' x m). lia.
  - apply Z.ltb_ge in Hneg.
    destruct (Z.le_gt_cases 0 x) as [Hle|Hgt].
    + apply Z.rem_mod_nonneg; lia.
    + pose proof (Z.rem_nonpos x m ltac:(lia) ltac:(lia)) as Hnp.
      assert (Hz : Z.rem x m = 0%Z) by lia.
      rewrite Hz. symmetry. apply (proj1 (Z.rem_mod_eq_0 x m ltac:(lia))). exact Hz.
Qed.

(** [modN] is the reduction modulo n. *)
Lemma modN_mod (x : Z) : modN x = (x mod n)%Z.
Proof. unfold modN. apply rem_adjusted. reflexivity. Qed.

(** *** Steps that leave the stores alone *)

Lemma quiet_ret {A} (a : A) : quiet (h_ret a).
Proof. intros s. reflexivity. Qed.

Lemma quiet_respond {A} (r : Response) : quiet (@respond A r).
Proof. intros s. reflexivity. Qed.

Lemma quiet_try {A} (x : Exc A) : quiet (try x).
Proof. intros s. reflexivity. Qed.

Lemma quiet_set_origin (o : string) : quiet (set_origin o).
Proof. intros s. reflexivity. Qed.

Lemma quiet_emitTelemetry (env : Env) (result : string) : quiet (emitTelemetry env result).
Proof. intros s. unfold emitTelemetry. destruct (TELEMETRY_configured env); reflexivity. Qed.

Lemma quiet_bind {A B} (c : Handler A) (k : A -> Handler B) :
  quiet c -> (forall a, quiet (k a)) -> quiet (h_bind c k).
Proof.
  intros Hc Hk s. unfold h_bind. specialize (Hc s).
  destruct (c s) as [[a|r|m] s1]; simpl in *; [rewrite Hk|..]; exact Hc.
Qed.

Ltac quiet_steps :=
  repeat first
    [ progress cbv zeta
    | apply quiet_ret | apply quiet_respond | apply quiet_try
    | apply quiet_emitTelemetry | apply quiet_set_origin
    | apply quiet_bind; [| intros ?]
    | match goal with |- quiet (if ?b then _ else _) => destruct b end
    | match goal with |- quiet (match ?x with _ => _ end) => destruct x end ].

Lemma authenticate_quiet request env : quiet (authenticate request env).
Proof.
  unfold authenticate. quiet_steps.
  intros s. unfold try. destruct (lookupApiKey _ _); reflexivity.
Qed.

Lemma verify_presentation_quiet request env now tenant :
  quiet (verify_presentation request env now tenant).
Proof. unfold verify_presentation. quiet_steps. Qed.

(** The verification reads the stores at most; it writes to none and makes no
    call on the store interface. *)
Lemma verify_quiet request env now : quiet (verify request env now).
Proof.
  unfold verify. apply quiet_bind; [apply authenticate_quiet|].
  intros tenant. apply verify_presentation_quiet.
Qed.

(** *** The early responses of each phase *)

Lemma responds_only_ret {A} P (a : A) : responds_only P (h_ret a).
Proof. intros s r s' Hr. discriminate. Qed.

Lemma responds_only_respond {A} (P : Response -> Prop) (r0 : Response) :
  P r0 -> responds_only P (@respond A r0).
Proof. intros HP s r s' Hr. injection Hr as <- _. exact HP. Qed.

Lemma responds_only_try {A} P (x : Exc A) : responds_only P (try x).
Proof. intros s r s' Hr. unfold try in Hr. destruct x; discriminate. Qed.

Lemma responds_only_set_origin P (o : string) : responds_only P (set_origin o).
Proof. intros s r s' Hr. discriminate. Qed.

Lemma responds_only_emitTelemetry P env result :
  responds_only P (emitTelemetry env result).
Proof.
  intros s r s' Hr. unfold emitTelemetry in Hr.
  destruct (TELEMETRY_configured env); discriminate.
Qed.

Lemma responds_only_bind {A B} P (c : Handler A) (k : A -> Handler B) :
  responds_only P c -> (forall a, responds_only P (k a)) -> responds_only P (h_bind c k).
Proof.
  intros Hc Hk s r s' Hr. unfold h_bind in Hr.
  destruct (c s) as [[a|r0|m] s1] eqn:Hcs.
  - exact (Hk a s1 r s' Hr).
  - injection Hr as <- <-. exact (Hc s r0 s1 Hcs).
  - discriminate.
Qed.

Ltac responds_steps :=
  repeat first
    [ progress cbv zeta
    | apply responds_only_ret | apply responds_only_try
    | apply responds_only_emitTelemetry | apply responds_only_set_origin
    | apply responds_only_respond;
      (split; [reflexivity | eexists; split; cycle 1; [reflexivity | simpl; tauto]])
    | apply responds_only_bind; [| intros ?]
    | match goal with |- responds_only _ (if ?b then _ else _) => destruct b end
    | match goal with |- responds_only _ (match ?x with _ => _ end) => destruct x end ].

(** After the authentication the verification answers only a failed issuer
    proof, a mismatch of [d_client] and a failed client proof, each with 401. *)
Lemma verify_presentation_responses request env now tenant :
  responds_only (rejects answered_kinds) (verify_presentation request env now tenant).
Proof. unfold verify_presentation. responds_steps. Qed.

(** *** The client proof *)


(** *** The grace bridge and the spend *)


(** Whatever the grace bridge hands on to the spend, [graceHit] is false there. *)
Lemma grace_bridge_hands_on_false env now v store s b s1 :
  grace_bridge env now v store s = (Next b, s1) -> b = false.
Proof.
  unfold grace_bridge, h_bind.
  destruct (isInGracePeriod now (boundaryGraceSeconds env)).
  - destruct (store_guardGrace env store (grace_params env v) s) as [[[cached|]|r|m] s2];
      try discriminate.
    + destruct (ok cached).
      * destruct (emitTelemetry env _ s2) as [[[]|r|m] s3]; discriminate.
      * destruct (emitTelemetry env _ s2) as [[[]|r|m] s3] eqn:He; try discriminate.
        unfold h_ret. intros Heq. by injection Heq as <- _.
    + unfold h_ret. intros Heq. by injection Heq as <- _.
  - unfold h_ret. intros Heq. by injection Heq as <- _.
Qed.

Lemma emitTelemetry_next env result s :
  fst (emitTelemetry env result s) = Next tt.
Proof. unfold emitTelemetry. destruct (TELEMETRY_configured env); reflexivity. Qed.

Lemma emitTelemetry_stores env result s :
  stores (snd (emitTelemetry env result s)) = stores s.
Proof. apply quiet_emitTelemetry. Qed.

(** After the spend returned [result], the handler calls [cacheGraceResponse]
    with [result] exactly when the request is in the grace period and
    [graceHit] is false; the ok of [result] plays no part. *)
Lemma spend_and_reply_caches env now v store IK graceHit s result s1 :
  store_spend env store (spend_params env now v IK) s = (Next result, s1) ->
  stores (snd (spend_and_reply env now v store IK graceHit s))
  = if isInGracePeriod now (boundaryGraceSeconds env) && negb graceHit
    then stores (snd (store_cacheGraceResponse env store (grace_params env v) result s1))
    else stores s1.
Proof.
  intros Hspend. unfold spend_and_reply. cbv zeta. unfold h_bind at 1. rewrite Hspend.
  unfold h_bind at 1.
  set (caching := if isInGracePeriod now (boundaryGraceSeconds env) && negb graceHit
                  then store_cacheGraceResponse env store (grace_params env v) result
                  else h_ret tt).
  assert (Hnext : fst (caching s1) = Next tt).
  { unfold caching. destruct (_ && _); [|reflexivity].
    unfold store_cacheGraceResponse. destruct store; [destruct (BRASS_KV_bound env)|];
      reflexivity. }
  assert (Hst : stores (snd (caching s1))
                = if isInGracePeriod now (boundaryGraceSeconds env) && negb graceHit
                  then stores (snd (store_cacheGraceResponse env store
                                      (grace_params env v) result s1))
                  else stores s1).
  { unfold caching. destruct (_ && _); reflexivity. }
  destruct (caching s1) as [o s2]. simpl in Hnext, Hst. subst o. rewrite <- Hst.
  destruct (negb (ok result)); unfold h_bind;
    match goal with
    | |- context [emitTelemetry env ?e s2] =>
        pose proof (emitTelemetry_next env e s2) as Hn;
        pose proof (emitTelemetry_stores env e s2) as Hs;
        destruct (emitTelemetry env e s2) as [o3 s3]; simpl in Hn, Hs; subst o3
    end; simpl; exact Hs.
Qed.

Lemma store_spend_effect env store params s :
  calls (world (snd (store_spend env store params s)))
  = (calls (world s) ++ [CallSpend params])%list.
Proof.
  unfold store_spend. destruct store.
  - destruct (BRASS_KV_bound env); [|reflexivity].
    destruct (KVStore_spend _ _); reflexivity.
  - simpl. destruct (DurableObjectStore_spend _ _); reflexivity.
Qed.

Lemma store_cacheGraceResponse_effect env store g response s :
  fst (store_cacheGraceResponse env store g response s) = Next tt
  /\ calls (world (snd (store_cacheGraceResponse env store g response s)))
     = (calls (world s) ++ [CallCacheGraceResponse g response])%list.
Proof.
  unfold store_cacheGraceResponse. destruct store;
    [destruct (BRASS_KV_bound env)|]; split; reflexivity.
Qed.

Lemma responds_only_store_spend P env store params :
  responds_only P (store_spend env store params).
Proof.
  intros s r s' Hr. unfold store_spend in Hr. destruct store.
  - destruct (BRASS_KV_bound env); [|discriminate].
    destruct (KVStore_spend _ _); discriminate.
  - simpl in Hr. destruct (DurableObjectStore_spend _ _) as [[m|d] ns]; discriminate.
Qed.

Lemma responds_only_store_guardGrace P env store g :
  responds_only P (store_guardGrace env store g).
Proof.
  intros s r s' Hr. unfold store_guardGrace in Hr. destruct store.
  - destruct (BRASS_KV_bound env); discriminate.
  - simpl in Hr. destruct (DurableObjectStore_guardGrace _ _) as [[m|d] ns]; discriminate.
Qed.

Lemma responds_only_store_cacheGraceResponse P env store g response :
  responds_only P (store_cacheGraceResponse env store g response).
Proof.
  intros s r s' Hr. unfold store_cacheGraceResponse in Hr.
  destruct store; [destruct (BRASS_KV_bound env)|]; discriminate.
Qed.

Lemma yields_ret (P : Response -> Prop) r : P r -> yields P (h_ret r).
Proof. intros HP s o s' Ho. injection Ho as <- _. exact HP. Qed.

Lemma yields_respond (P : Response -> Prop) r : P r -> yields P (respond r).
Proof. intros HP s o s' Ho. injection Ho as <- _. exact HP. Qed.

Lemma yields_bind {A} P (c : Handler A) (k : A -> Handler Response) :
  responds_only P c -> (forall a, yields P (k a)) -> yields P (h_bind c k).
Proof.
  intros Hc Hk s o s' Ho. unfold h_bind in Ho.
  destruct (c s) as [[a|r0|m] s1] eqn:Hcs.
  - exact (Hk a s1 o s' Ho).
  - injection Ho as <- <-. exact (Hc s r0 s1 Hcs).
  - injection Ho as <- _. exact I.
Qed.

Lemma grace_bridge_responses env now v store :
  responds_only is_decision (grace_bridge env now v store).
Proof.
  unfold grace_bridge. cbv zeta.
  destruct (isInGracePeriod now (boundaryGraceSeconds env));
    [|apply responds_only_ret].
  apply responds_only_bind; [apply responds_only_store_guardGrace|].
  intros [cached|]; [|apply responds_only_ret].
  destruct (ok cached);
    (apply responds_only_bind; [apply responds_only_emitTelemetry|]; intros _).
  - apply responds_only_respond. exact I.
  - apply responds_only_ret.
Qed.

Lemma spend_and_reply_yields env now v store IK graceHit :
  yields is_decision (spend_and_reply env now v store IK graceHit).
Proof.
  unfold spend_and_reply. cbv zeta.
  apply yields_bind; [apply responds_only_store_spend|]. intros result.
  apply yields_bind.
  { destruct (_ && _);
      [apply responds_only_store_cacheGraceResponse | apply responds_only_ret]. }
  intros _. destruct (negb (ok result));
    (apply yields_bind; [apply responds_only_emitTelemetry|]; intros _;
     apply yields_ret; exact I).
Qed.

(** Every response of the accounting is a decision: a replayed success, a
    denial or a success; it reports no error kind. *)
Lemma settle_yields env now v : yields is_decision (settle env now v).
Proof.
  unfold settle.
  apply yields_bind; [apply responds_only_try|]. intros kvSecret.
  apply yields_bind; [apply responds_only_try|]. intros IK. cbv zeta.
  apply yields_bind; [apply grace_bridge_responses|]. intros graceHit.
  apply spend_and_reply_yields.
Qed.

(** The handler on a request whose verification succeeded. *)
Lemma fetch_verified request env now w v s0 :
  method request = "POST" ->
  verify request env now (mkHState w "unknown") = (Next v, s0) ->
  fetch request env now w = finish env (settle env now v s0).
Proof.
  intros Hm Hv. unfold fetch. rewrite Hm. simpl.
  unfold pipeline, h_bind. rewrite Hv. reflexivity.
Qed.

(** The handler on a request whose verification did not succeed. *)
Lemma fetch_unverified request env now w out s0 :
  method request = "POST" ->
  verify request env now (mkHState w "unknown") = (out, s0) ->
  (forall v, out <> Next v) ->
  fetch request env now w
  = finish env (match out with
                | Next _ => (Raise "", s0)
                | Return r => (Return r, s0)
                | Raise m => (Raise m, s0)
                end).
Proof.
  intros Hm Hv Hout. unfold fetch. rewrite Hm. simpl.
  unfold pipeline, h_bind. rewrite Hv.
  destruct out as [v|r|m]; [by destruct (Hout v)|reflexivity|reflexivity].
Qed.

Lemma finish_stores env o s :
  let r := finish env (o, s) in
  (BRASS_KV (snd r), BRASS_COUNTER (snd r), calls (snd r)) = stores s.
Proof.
  destruct o as [r|r|m]; simpl; try reflexivity.
  exact (emitTelemetry_stores env _ s).
Qed.

(** The accounting when the derivation of the idempotency key goes through. *)
Lemma settle_with_key env now v kvSecret IK s :
  secretToBytes (BRASS_KV_SECRET env) = Ok kvSecret ->
  deriveIdempotencyKey kvSecret (v_y v) (p_c (v_payload v)) = Ok IK ->
  settle env now v s
  = h_bind (grace_bridge env now v (choose_store env))
           (spend_and_reply env now v (choose_store env) IK) s.
Proof.
  intros Hs Hk. unfold settle. unfold h_bind at 1, try at 1. rewrite Hs.
  unfold h_bind at 1, try at 1. rewrite Hk. reflexivity.
Qed.

(** The accounting when the derivation of the idempotency key throws. *)
Lemma settle_without_key env now v s :
  match secretToBytes (BRASS_KV_SECRET env) with
  | Threw _ => True
  | Ok kvSecret =>
      match deriveIdempotencyKey kvSecret (v_y v) (p_c (v_payload v)) with
      | Threw _ => True
      | Ok _ => False
      end
  end ->
  exists m, settle env now v s = (Raise m, s).
Proof.
  unfold settle, h_bind, try.
  destruct (secretToBytes _) as [m|kvSecret]; [intros _; by exists m|].
  destruct (deriveIdempotencyKey _ _ _) as [m|IK]; [intros _; by exists m|].
  intros [].
Qed.

Lemma stores_calls a b : stores a = stores b -> calls (world a) = calls (world b).
Proof. unfold stores. intros Hs. by apply pair_equal_spec in Hs as [_ ?]. Qed.

Lemma stores_namespaces a b :
  stores a = stores b ->
  BRASS_KV (world a) = BRASS_KV (world b)
  /\ BRASS_COUNTER (world a) = BRASS_COUNTER (world b).
Proof.
  unfold stores. intros Hs. apply pair_equal_spec in Hs as [Hs _].
  by apply pair_equal_spec in Hs.
Qed.

Lemma emitTelemetry_eq env result s :
  emitTelemetry env result s = (Next tt, snd (emitTelemetry env result s)).
Proof. unfold emitTelemetry. destruct (TELEMETRY_configured env); reflexivity. Qed.


Lemma settle_after_bridge env now v s kvSecret IK graceHit s1 :
  secretToBytes (BRASS_KV_SECRET env) = Ok kvSecret ->
  deriveIdempotencyKey kvSecret (v_y v) (p_c (v_payload v)) = Ok IK ->
  grace_bridge env now v (choose_store env) s = (Next graceHit, s1) ->
  settle env now v s = spend_and_reply env now v (choose_store env) IK false s1.
Proof.
  intros Hsec Hik Hb. rewrite (settle_with_key env now v kvSecret IK s Hsec Hik).
  unfold h_bind. rewrite Hb.
  by rewrite (grace_bridge_hands_on_false _ _ _ _ _ _ _ Hb).
Qed.

(** In the grace period, once the grace bridge has handed on and [spend] has
    returned, the accounting calls [cacheGraceResponse] with the result. *)
Lemma settle_caches_spend_result :
  forall env now v s kvSecret IK graceHit result,
    secretToBytes (BRASS_KV_SECRET env) = Ok kvSecret ->
    deriveIdempotencyKey kvSecret (v_y v) (p_c (v_payload v)) = Ok IK ->
    isInGracePeriod now (boundaryGraceSeconds env) = true ->
    fst (grace_bridge env now v (choose_store env) s) = Next graceHit ->
    let s1 := snd (grace_bridge env now v (choose_store env) s) in
    fst (store_spend env (choose_store env) (spend_params env now v IK) s1)
    = Next result ->
    let s2 := snd (store_spend env (choose_store env) (spend_params env now v IK) s1) in
    stores (snd (settle env now v s))
    = stores (snd (store_cacheGraceResponse env (choose_store env)
                     (grace_params env v) result s2))
    /\ calls (world (snd (settle env now v s)))
       = (calls (world s2) ++ [CallCacheGraceResponse (grace_params env v) result])%list.
Proof.
  intros env now v s kvSecret IK graceHit result Hsec Hik Hgrace Hb s1 Hspend s2.
  assert (Hb' : grace_bridge env now v (choose_store env) s = (Next graceHit, s1)).
  { subst s1. rewrite <- Hb. apply surjective_pairing. }
  assert (Hspend' : store_spend env (choose_store env) (spend_params env now v IK) s1
                    = (Next result, s2)).
  { subst s2. rewrite <- Hspend. apply surjective_pairing. }
  clearbody s1 s2.
  rewrite (settle_after_bridge env now v s kvSecret IK graceHit s1 Hsec Hik Hb').
  pose proof (spend_and_reply_caches env now v (choose_store env) IK false s1 result s2
                Hspend') as Hst.
  rewrite Hgrace in Hst. simpl in Hst. split; [exact Hst|].
  unfold stores in Hst. apply pair_equal_spec in Hst as [_ ->].
  apply (store_cacheGraceResponse_effect env (choose_store env) (grace_params env v)
           result s2).
Qed.


(** What a request leaves in the stores when its verification succeeded. *)
Lemma fetch_verified_stores request env now w v s :
  method request = "POST"%string ->
  verify request env now (mkHState w "unknown") = (Next v, s) ->
  stores s = stores (mkHState w "unknown")
  /\ fst (fetch request env now w) = fst (finish env (settle env now v s))
  /\ BRASS_KV (snd (fetch request env now w)) = BRASS_KV (world (snd (settle env now v s)))
  /\ BRASS_COUNTER (snd (fetch request env now w))
     = BRASS_COUNTER (world (snd (settle env now v s)))
  /\ calls (snd (fetch request env now w)) = calls (world (snd (settle env now v s))).
Proof.
  intros Hm Hv. rewrite (fetch_verified request env now w v s Hm Hv).
  split.
  { pose proof (verify_quiet request env now (mkHState w "unknown")) as Hq.
    rewrite Hv in Hq. exact Hq. }
  split; [reflexivity|].
  destruct (settle env now v s) as [o s'].
  pose proof (finish_stores env o s') as Hf. cbv zeta in Hf. unfold stores in Hf.
  apply pair_equal_spec in Hf. destruct Hf as [Hf H3].
  apply pair_equal_spec in Hf. destruct Hf as [H1 H2]. auto.
Qed.

(** *** The payload's epoch *)

Lemma h_bind_try_ok {A B} (a : A) (k : A -> Handler B) s :
  h_bind (try (Ok a)) k s = k a s.
Proof. reflexivity. Qed.

Lemma h_bind_ext {A B} (c : Handler A) (k1 k2 : A -> Handler B) s :
  (forall a s', k1 a s' = k2 a s') -> h_bind c k1 s = h_bind c k2 s.
Proof.
  intros Hk. unfold h_bind. destruct (c s) as [[a|r|m] s']; [apply Hk|reflexivity..].
Qed.

Lemma h_bind_assoc {A B C} (c : Handler A) (f : A -> Handler B) (k : B -> Handler C) s :
  h_bind (h_bind c f) k s = h_bind c (fun a => h_bind (f a) k) s.
Proof. unfold h_bind. destruct (c s) as [[a|r|m] s']; reflexivity. Qed.

(** The accounting does not read the payload's epoch. *)
Lemma settle_epoch env now projectId limit p originCanonical epochDays policyId window y e s :
  settle env now
    (mkVerified projectId limit (with_epoch e p) originCanonical epochDays policyId window y) s
  = settle env now
      (mkVerified projectId limit p originCanonical epochDays policyId window y) s.
Proof. destruct p as [KID AADr o0 e0 c0 Z0 Zp0 P0 M0 piI0 piC0 dc0 tls0 hm hp hb]. reflexivity. Qed.

(** The digest d reads the request only when one of the three overrides is
    missing from the payload. *)
Lemma compute_d_overrides request1 request2 p e :
  truthy (p_http_method p) && truthy (p_http_path p)
    && truthy (p_http_body_hash_b64 p) = true ->
  compute_d request1 p = compute_d request2 (with_epoch e p).
Proof.
  intros Hov. destruct p as [KID AADr o0 e0 c0 Z0 Zp0 P0 M0 piI0 piC0 dc0 tls0 hm hp hb]. unfold compute_d, with_epoch.
  cbn [p_http_method p_http_path p_http_body_hash_b64] in Hov |- *.
  rewrite Hov. reflexivity.
Qed.

(** The handler reads a request through its method, its path, its
    Authorization header, the parsed payload without its epoch, and the
    digest d. *)
Lemma pipeline_epoch request1 request2 env now p e s :
  authorization request1 = authorization request2 ->
  JSON_parse (bodyText request1) = Ok p ->
  JSON_parse (bodyText request2) = Ok (with_epoch e p) ->
  compute_d request1 p = compute_d request2 (with_epoch e p) ->
  pipeline request1 env now s = pipeline request2 env now s.
Proof.
  intros Hauth Hp1 Hp2 Hd. unfold pipeline, verify.
  assert (Ha : authenticate request2 env = authenticate request1 env)
    by (unfold authenticate; rewrite Hauth; reflexivity).
  rewrite Ha, !h_bind_assoc. apply h_bind_ext. intros tenant s1.
  unfold verify_presentation. cbv zeta. rewrite Hp1, Hp2.
  rewrite !h_bind_assoc, !h_bind_try_ok. cbv beta. rewrite Hd.
  destruct p as [KID AADr o0 e0 c0 Z0 Zp0 P0 M0 piI0 piC0 dc0 tls0 hm hp hb]. unfold with_epoch.
  cbn [p_KID p_AADr p_origin p_epoch p_c p_Z p_Zprime p_P p_M p_piI p_piC p_d_client
       p_tls_exporter_b64 p_http_method p_http_path p_http_body_hash_b64].
  repeat (cbv beta; first
    [ match goal with |- ?x = ?x => reflexivity end
    | rewrite !h_bind_assoc
    | apply h_bind_ext; intros ? ?
    | match goal with
      | |- h_bind (if ?b then _ else _) _ _ = _ => destruct b
      end ]).
  unfold h_bind, h_ret.
  match goal with
  | |- settle _ _ (mkVerified ?a ?b ?p ?c ?d ?f ?g ?h) ?s' = _ =>
      symmetry; exact (settle_epoch env now a b p c d f g h e s')
  end.
Qed.

End HandlerFacts.


(** ** How the store operations compose *)

Section StoreCompositions.
Context `{Imports}.

Local Open Scope string_scope.

Lemma ik_key_inj project IK IK' : ik_key project IK = ik_key project IK' -> IK = IK'.
Proof.
  unfold ik_key. intros Heq.
  apply (String.app_inj "ik:project:") in Heq.
  apply (String.app_inj project) in Heq.
  by apply (String.app_inj ":") in Heq.
Qed.

Lemma grace_key_not_ik_key project graceKey project' IK :
  grace_key project graceKey <> ik_key project' IK.
Proof. unfold grace_key, ik_key. simpl. discriminate. Qed.

Lemma grace_key_not_count_key project graceKey counterKey :
  grace_key project graceKey <> count_key counterKey.
Proof. unfold grace_key, count_key. simpl. discriminate. Qed.

Lemma grace_key_not_count project graceKey : grace_key project graceKey <> "count".
Proof. unfold grace_key. simpl. discriminate. Qed.

Lemma grace_key_not_legacy_count project graceKey :
  grace_key project graceKey <> "legacy_count".
Proof. unfold grace_key. simpl. discriminate. Qed.

Lemma replayed_replayed d : replayed (replayed d) = replayed d.
Proof. reflexivity. Qed.

(** [KVStore.spend] writes at most two keys: the idempotency record and the
    namespaced counter. *)
Lemma KVStore_spend_frame params kv k :
  k <> ik_key (projectId (key params)) (IK params) ->
  k <> count_key (buildCounterKey (key params)) ->
  snd (KVStore_spend params kv) !! k = kv !! k.
Proof.
  intros Hik Hcount. unfold KVStore_spend.
  destruct (get_json kv _); [reflexivity|].
  destruct ((_ =? 0)%Z && enableMigrationFallback);
    [destruct (0 <? _)%Z|]; simpl;
    match goal with
    | |- context [(limit params <=? ?c)%Z] => destruct (limit params <=? c)%Z
    end; simpl; unfold put;
    rewrite ?lookup_insert_ne by (by apply not_eq_sym); reflexivity.
Qed.

(** Every [KVStore.spend] leaves an idempotency record whose replay is the
    decision it returned. *)
Lemma KVStore_spend_records params kv :
  exists d,
    get_json (snd (KVStore_spend params kv))
             (ik_key (projectId (key params)) (IK params)) = Some d
    /\ replayed d = replayed (fst (KVStore_spend params kv)).
Proof.
  destruct (get_json kv (ik_key (projectId (key params)) (IK params))) as [cached|]
    eqn:Hik.
  - rewrite (KVStore_spend_replay params kv cached Hik). simpl. by exists cached.
  - pose proof (KVStore_spend_fresh params kv Hik) as Hf. cbv zeta in Hf.
    destruct (limit params <=? kv_current_count params kv)%Z;
      [destruct Hf as (Hd & Hrec & _) | destruct Hf as (Hd & _ & Hrec)];
      rewrite Hd; eexists; (split; [|reflexivity]);
      unfold get_json; by rewrite Hrec.
Qed.

Lemma KVStore_spend_again p1 p2 kv :
  projectId (key p1) = projectId (key p2) ->
  IK p1 = IK p2 ->
  KVStore_spend p2 (snd (KVStore_spend p1 kv))
  = (replayed (fst (KVStore_spend p1 kv)), snd (KVStore_spend p1 kv)).
Proof.
  intros Hp Hk. destruct (KVStore_spend_records p1 kv) as (d & Hrec & Hd).
  rewrite Hp, Hk in Hrec.
  rewrite (KVStore_spend_replay p2 _ d Hrec). by rewrite Hd.
Qed.

(** Every [handleSpend] leaves an idempotency record in its object whose
    replay is the decision it answered, under the status of that record. *)
Lemma handleSpend_records name project IK limit ttlSeconds ns :
  exists d,
    get_json (snd (handleSpend name project IK limit ttlSeconds ns))
             (name, ik_key project IK) = Some d
    /\ fst (handleSpend name project IK limit ttlSeconds ns)
       = mkDOResponse (if ok d then 200 else 429)
           (DODecision (match get_json ns (name, ik_key project IK) with
                        | Some _ => replayed d
                        | None => d
                        end)).
Proof.
  destruct (get_json ns (name, ik_key project IK)) as [cached|] eqn:Hik.
  - rewrite (handleSpend_replay name project IK limit ttlSeconds ns cached Hik).
    simpl. by exists cached.
  - pose proof (handleSpend_fresh name project IK limit ttlSeconds ns Hik) as Hf.
    cbv zeta in Hf.
    destruct (limit <=? do_current_count name ns)%Z;
      [destruct Hf as (Hd & Hrec & _) | destruct Hf as (Hd & _ & Hrec)];
      rewrite Hd; eexists; (split; [unfold get_json; by rewrite Hrec|]);
      reflexivity.
Qed.

Lemma handleSpend_again name project IK limit ttlSeconds limit' ttlSeconds' ns :
  let first := handleSpend name project IK limit ttlSeconds ns in
  exists d,
    do_body (fst first) = DODecision d
    /\ handleSpend name project IK limit' ttlSeconds' (snd first)
       = (mkDOResponse (do_status (fst first)) (DODecision (replayed d)), snd first).
Proof.
  cbv zeta.
  destruct (handleSpend_records name project IK limit ttlSeconds ns) as (d & Hrec & Hd).
  rewrite (handleSpend_replay name project IK limit' ttlSeconds' _ d Hrec).
  rewrite Hd. simpl.
  destruct (get_json ns (name, ik_key project IK)); eexists; split; reflexivity.
Qed.

(** The adapter of the atomic store in terms of the object's [handleSpend]. *)
Lemma DurableObjectStore_spend_unfold params ns :
  DurableObjectStore_spend params ns
  = let r := handleSpend (buildCounterKey (key params)) (projectId (key params))
               (IK params) (limit params) (ttlSeconds params) ns in
    (match do_body (fst r) with
     | DODecision d =>
         Ok (if negb (response_ok (fst r)) then
               mkDecision false None
                 (Some (match error d with
                        | Some e => if String.eqb e "" then "unknown_error" else e
                        | None => "unknown_error"
                        end)) None
             else d)
     | _ => Threw err_json
     end, snd r).
Proof.
  unfold DurableObjectStore_spend, BrassCounterDO_fetch. simpl.
  destruct (handleSpend _ _ _ _ _ ns) as [resp ns1]. simpl.
  destruct (do_body resp); try reflexivity.
  destruct (negb (response_ok resp)); reflexivity.
Qed.

(** The adapter of the atomic store, called again with the same parameters. *)
Lemma DurableObjectStore_spend_again params ns :
  let first := DurableObjectStore_spend params ns in
  DurableObjectStore_spend params (snd first)
  = (match fst first with
     | Ok d => Ok (if ok d then replayed d else d)
     | Threw m => Threw m
     end, snd first).
Proof.
  cbv zeta. rewrite !DurableObjectStore_spend_unfold. cbv zeta. simpl snd. simpl fst.
  set (name := buildCounterKey (key params)).
  destruct (handleSpend_records name (projectId (key params)) (IK params)
              (limit params) (ttlSeconds params) ns) as (d & Hrec & Hd).
  rewrite (handleSpend_replay name _ _ _ _ _ d Hrec). rewrite Hd. simpl.
  destruct (get_json ns (name, ik_key (projectId (key params)) (IK params)))
    as [cached|] eqn:Hik.
  - destruct (ok d) eqn:Hok; simpl; rewrite ?Hok; reflexivity.
  - destruct (ok d) eqn:Hok; simpl; rewrite ?Hok; reflexivity.
Qed.

(** *** What a store operation leaves alone *)

(** A request to the object [name] changes the storage of that object only. *)
Lemma BrassCounterDO_fetch_frame name method pathname body ns name' k :
  name' <> name ->
  snd (BrassCounterDO_fetch name method pathname body ns) !! (name', k)
  = ns !! (name', k).
Proof.
  intros Hne.
  assert (Hk : forall k0 : string, (name, k0) <> (name', k)).
  { intros k0 Heq. apply Hne. by injection Heq. }
  unfold BrassCounterDO_fetch.
  destruct (negb _); [reflexivity|].
  destruct (String.eqb pathname "/grace/check"); [by destruct body|].
  destruct (String.eqb pathname "/grace/cache").
  { destruct body; try reflexivity. unfold handleGraceCache.
    destruct (get_json _ _); simpl; [reflexivity|].
    unfold put. by rewrite lookup_insert_ne. }
  destruct (String.eqb pathname "/spend"); [|reflexivity].
  destruct body; try reflexivity. unfold handleSpend.
  destruct (get_json _ _); [reflexivity|].
  destruct ((_ =? 0)%Z && enableMigrationFallback);
    [destruct (0 <? _)%Z|]; simpl;
    match goal with
    | |- context [(?l <=? ?c)%Z] => destruct (l <=? c)%Z
    end; simpl; unfold put;
    rewrite ?lookup_insert_ne by apply Hk; reflexivity.
Qed.

(** A request to the object [name] that is not a POST to /spend or to
    /grace/cache changes nothing. *)
Lemma BrassCounterDO_fetch_reads name method pathname body ns :
  snd (BrassCounterDO_fetch name method pathname body ns) <> ns ->
  method = "POST" /\ (pathname = "/spend" \/ pathname = "/grace/cache").
Proof.
  unfold BrassCounterDO_fetch.
  destruct (String.eqb method "POST") eqn:Hm; simpl; [|intros Hc; by destruct Hc].
  apply String.eqb_eq in Hm.
  destruct (String.eqb pathname "/grace/check");
    [destruct body; intros Hc; by destruct Hc|].
  destruct (String.eqb pathname "/grace/cache") eqn:Hc.
  { apply String.eqb_eq in Hc. auto. }
  destruct (String.eqb pathname "/spend") eqn:Hs.
  { apply String.eqb_eq in Hs. auto. }
  intros Hx. by destruct Hx.
Qed.

(** The answer of [handleSpend] depends on three keys of its own object
    only: the idempotency record, the counter and the legacy counter. *)
Lemma handleSpend_local name project IK limit ttlSeconds ns1 ns2 :
  ns1 !! (name, ik_key project IK) = ns2 !! (name, ik_key project IK) ->
  ns1 !! (name, "count") = ns2 !! (name, "count") ->
  ns1 !! (name, "legacy_count") = ns2 !! (name, "legacy_count") ->
  fst (handleSpend name project IK limit ttlSeconds ns1)
  = fst (handleSpend name project IK limit ttlSeconds ns2).
Proof.
  intros Hik Hc Hl. unfold handleSpend, get_json, get_count. rewrite Hik, Hc, Hl.
  destruct (ns2 !! (name, ik_key project IK)) as [[[c|d] ttl]|]; try reflexivity;
    (destruct ((_ =? 0)%Z && enableMigrationFallback);
     [destruct (0 <? _)%Z|]; simpl;
     match goal with
     | |- context [(?l <=? ?c)%Z] => destruct (l <=? c)%Z
     end; reflexivity).
Qed.

(** The decision of [KVStore.spend] depends on three keys only: the
    idempotency record, the namespaced counter and the legacy counter. *)
Lemma KVStore_spend_local params kv1 kv2 :
  kv1 !! ik_key (projectId (key params)) (IK params)
  = kv2 !! ik_key (projectId (key params)) (IK params) ->
  kv1 !! count_key (buildCounterKey (key params))
  = kv2 !! count_key (buildCounterKey (key params)) ->
  kv1 !! count_key (buildLegacyCounterKey (key params))
  = kv2 !! count_key (buildLegacyCounterKey (key params)) ->
  fst (KVStore_spend params kv1) = fst (KVStore_spend params kv2).
Proof.
  intros Hik Hc Hl. unfold KVStore_spend, get_json, get_count. rewrite Hik, Hc, Hl.
  destruct (kv2 !! ik_key _ _) as [[[c|d] ttl]|]; try reflexivity;
    (destruct ((_ =? 0)%Z && enableMigrationFallback);
     [destruct (0 <? _)%Z|]; simpl;
     match goal with
     | |- context [(?l <=? ?c)%Z] => destruct (l <=? c)%Z
     end; reflexivity).
Qed.

(** *** The grace cache *)

Lemma KVStore_grace_round_trip g response kv :
  KVStore_guardGrace g (KVStore_cacheGraceResponse g response kv)
  = Hit (match KVStore_guardGrace g kv with
         | Hit kept => kept
         | Miss => response
         end).
Proof.
  unfold KVStore_guardGrace, KVStore_cacheGraceResponse.
  destruct (get_json kv _) as [kept|] eqn:Hg.
  - by rewrite Hg.
  - by rewrite get_json_put_same.
Qed.

Lemma DurableObjectStore_grace_round_trip g response ns :
  DurableObjectStore_guardGrace g (DurableObjectStore_cacheGraceResponse g response ns)
  = (Ok (Hit (match fst (DurableObjectStore_guardGrace g ns) with
              | Ok (Hit kept) => kept
              | _ => response
              end)),
     DurableObjectStore_cacheGraceResponse g response ns).
Proof.
  unfold DurableObjectStore_guardGrace, DurableObjectStore_cacheGraceResponse,
    BrassCounterDO_fetch. simpl. unfold handleGraceCheck, handleGraceCache.
  destruct (get_json ns _) as [kept|] eqn:Hg; simpl.
  - by rewrite Hg.
  - by rewrite get_json_put_same.
Qed.

(** *** Spends and the grace cache do not meet *)

Lemma count_key_inj a b : count_key a = count_key b -> a = b.
Proof. unfold count_key. apply (String.app_inj "count:"). Qed.

Lemma KVStore_cacheGraceResponse_frame g response kv k :
  k <> grace_key (g_projectId g) (graceKey g) ->
  KVStore_cacheGraceResponse g response kv !! k = kv !! k.
Proof.
  intros Hne. unfold KVStore_cacheGraceResponse.
  destruct (get_json kv _); [reflexivity|]. unfold put. by rewrite lookup_insert_ne.
Qed.

Lemma DurableObjectStore_cacheGraceResponse_frame g response ns name k :
  k <> grace_key (g_projectId g) (graceKey g) ->
  DurableObjectStore_cacheGraceResponse g response ns !! (name, k) = ns !! (name, k).
Proof.
  intros Hne. unfold DurableObjectStore_cacheGraceResponse, BrassCounterDO_fetch.
  simpl. unfold handleGraceCache.
  destruct (get_json ns _); [reflexivity|]. simpl. unfold put.
  rewrite lookup_insert_ne; [reflexivity|]. intros Heq. apply Hne. by injection Heq.
Qed.

Lemma handleSpend_frame name project IK limit ttlSeconds ns name' k :
  (name', k) <> (name, ik_key project IK) ->
  (name', k) <> (name, "count") ->
  snd (handleSpend name project IK limit ttlSeconds ns) !! (name', k) = ns !! (name', k).
Proof.
  intros Hik Hc. unfold handleSpend.
  destruct (get_json _ _); [reflexivity|].
  destruct ((_ =? 0)%Z && enableMigrationFallback);
    [destruct (0 <? _)%Z|]; simpl;
    match goal with
    | |- context [(?l <=? ?c)%Z] => destruct (l <=? c)%Z
    end; simpl; unfold put;
    rewrite ?lookup_insert_ne by (by apply not_eq_sym); reflexivity.
Qed.

Lemma KVStore_spend_after_cache params g response kv :
  fst (KVStore_spend params (KVStore_cacheGraceResponse g response kv))
  = fst (KVStore_spend params kv).
Proof.
  apply KVStore_spend_local; apply KVStore_cacheGraceResponse_frame; apply not_eq_sym.
  - apply grace_key_not_ik_key.
  - apply grace_key_not_count_key.
  - apply grace_key_not_count_key.
Qed.

Lemma KVStore_guardGrace_after_spend params g kv :
  KVStore_guardGrace g (snd (KVStore_spend params kv)) = KVStore_guardGrace g kv.
Proof.
  unfold KVStore_guardGrace, get_json. rewrite KVStore_spend_frame; [reflexivity|..].
  - apply grace_key_not_ik_key.
  - apply grace_key_not_count_key.
Qed.

Lemma DurableObjectStore_spend_after_cache params g response ns :
  fst (DurableObjectStore_spend params (DurableObjectStore_cacheGraceResponse g response ns))
  = fst (DurableObjectStore_spend params ns).
Proof.
  rewrite !DurableObjectStore_spend_unfold. cbv zeta. simpl fst.
  rewrite (handleSpend_local _ _ _ _ _
             (DurableObjectStore_cacheGraceResponse g response ns) ns); [reflexivity|..];
    apply DurableObjectStore_cacheGraceResponse_frame; apply not_eq_sym.
  - apply grace_key_not_ik_key.
  - apply grace_key_not_count.
  - apply grace_key_not_legacy_count.
Qed.

Lemma DurableObjectStore_guardGrace_after_spend params g ns :
  fst (DurableObjectStore_guardGrace g (snd (DurableObjectStore_spend params ns)))
  = fst (DurableObjectStore_guardGrace g ns).
Proof.
  rewrite DurableObjectStore_spend_unfold. cbv zeta. simpl snd.
  unfold DurableObjectStore_guardGrace, BrassCounterDO_fetch. simpl.
  unfold handleGraceCheck, get_json. rewrite handleSpend_frame.
  - by destruct (ns !! _) as [[[c|d] ttl]|].
  - intros Heq. apply (f_equal snd) in Heq. cbn [snd] in Heq.
    by apply grace_key_not_ik_key in Heq.
  - intros Heq. apply (f_equal snd) in Heq. cbn [snd] in Heq.
    by apply grace_key_not_count in Heq.
Qed.

(** *** Spends on different counters *)

Lemma KVStore_spend_isolated p1 p2 kv :
  ik_key (projectId (key p1)) (IK p1) <> ik_key (projectId (key p2)) (IK p2) ->
  buildCounterKey (key p1) <> buildCounterKey (key p2) ->
  buildCounterKey (key p1) <> buildLegacyCounterKey (key p2) ->
  fst (KVStore_spend p2 (snd (KVStore_spend p1 kv))) = fst (KVStore_spend p2 kv).
Proof.
  intros Hik Hc Hl.
  apply KVStore_spend_local; apply KVStore_spend_frame.
  - by apply not_eq_sym.
  - apply ik_key_not_count_key.
  - apply not_eq_sym, ik_key_not_count_key.
  - intros Heq. apply count_key_inj in Heq. by apply Hc.
  - apply not_eq_sym, ik_key_not_count_key.
  - intros Heq. apply count_key_inj in Heq. by apply Hl.
Qed.

Lemma DurableObjectStore_spend_isolated p1 p2 ns :
  buildCounterKey (key p1) <> buildCounterKey (key p2) ->
  fst (DurableObjectStore_spend p2 (snd (DurableObjectStore_spend p1 ns)))
  = fst (DurableObjectStore_spend p2 ns).
Proof.
  intros Hne. rewrite !DurableObjectStore_spend_unfold. cbv zeta. simpl fst. simpl snd.
  rewrite (handleSpend_local (buildCounterKey (key p2)) _ _ _ _
             (snd (handleSpend (buildCounterKey (key p1)) (projectId (key p1)) (IK p1)
                     (limit p1) (ttlSeconds p1) ns)) ns); [reflexivity|..];
    apply handleSpend_frame; intros Heq; apply Hne; by injection Heq.
Qed.

(** *** The counter after a spend *)

Lemma KVStore_spend_count params kv :
  get_json kv (ik_key (projectId (key params)) (IK params)) = None ->
  0 <= kv_current_count params kv ->
  kv_current_count params (snd (KVStore_spend params kv))
  = if (limit params <=? kv_current_count params kv)%Z
    then kv_current_count params kv
    else kv_current_count params kv + 1.
Proof.
  intros Hik Hpos.
  pose proof (KVStore_spend_fresh params kv Hik) as Hf. cbv zeta in Hf.
  set (C := kv_current_count params kv) in *.
  set (countKey := count_key (buildCounterKey (key params))) in *.
  set (legacyKey := count_key (buildLegacyCounterKey (key params))).
  assert (Hlegacy : legacyKey <> countKey ->
            get_count (snd (KVStore_spend params kv)) legacyKey = get_count kv legacyKey).
  { intros Hne. unfold get_count. rewrite KVStore_spend_frame; [reflexivity| |exact Hne].
    apply not_eq_sym, ik_key_not_count_key. }
  unfold kv_current_count at 1. fold countKey legacyKey.
  destruct (limit params <=? C)%Z.
  - destruct Hf as (_ & _ & Hcount). rewrite Hcount.
    destruct (decide (legacyKey = countKey)) as [Heq|Hne].
    + rewrite Heq, Hcount. unfold adopted. by destruct (_ && _).
    + rewrite (Hlegacy Hne). unfold adopted. destruct (C =? 0)%Z eqn:HC; [|reflexivity].
      apply Z.eqb_eq in HC. simpl.
      destruct (0 <? get_count kv legacyKey)%Z eqn:Hl; [|reflexivity].
      exfalso. apply Z.ltb_lt in Hl.
      subst C. unfold kv_current_count, adopted in HC. fold countKey legacyKey in HC.
      destruct (get_count kv countKey =? 0)%Z eqn:Hz; simpl in HC.
      * apply Z.ltb_lt in Hl. rewrite Hl in HC. apply Z.ltb_lt in Hl. lia.
      * apply Z.eqb_neq in Hz. lia.
  - destruct Hf as (_ & Hcount & _).
    assert (Hc : get_count (snd (KVStore_spend params kv)) countKey = C + 1).
    { unfold get_count. by rewrite Hcount. }
    rewrite Hc. unfold adopted.
    destruct (C + 1 =? 0)%Z eqn:HC; [apply Z.eqb_eq in HC; lia | reflexivity].
Qed.

Lemma spend_each_decisions k limit ttlSeconds iks :
  forall kv,
    NoDup iks ->
    (forall ik, ik ∈ iks -> get_json kv (ik_key (projectId k) ik) = None) ->
    let C := adopted (get_count kv (count_key (buildCounterKey k)))
                     (get_count kv (count_key (buildLegacyCounterKey k))) in
    0 <= C ->
    length (fst (spend_each k limit ttlSeconds iks kv)) = length iks
    /\ forall (i : nat) d,
         fst (spend_each k limit ttlSeconds iks kv) !! i = Some d ->
         d = if (limit <=? C + Z.of_nat i)%Z then failureResponse
             else successResponse (limit - (C + Z.of_nat i + 1)).
Proof.
  induction iks as [|ik rest IH]; intros kv Hnd Hfree C Hpos.
  - split; [reflexivity|]. intros i d Hi. discriminate.
  - simpl.
    set (params := mkSpendParams k ik limit ttlSeconds).
    assert (Hik : get_json kv (ik_key (projectId (key params)) (IK params)) = None).
    { apply Hfree. left. }
    pose proof (KVStore_spend_fresh params kv Hik) as Hf. cbv zeta in Hf.
    pose proof (KVStore_spend_count params kv Hik Hpos) as Hcount.
    change (kv_current_count params kv) with C in Hf, Hcount.
    destruct (KVStore_spend params kv) as [d0 kv1] eqn:Hspend. simpl in Hf, Hcount.
    apply NoDup_cons in Hnd as [Hnotin Hnd].
    assert (Hfree1 : forall ik', ik' ∈ rest ->
              get_json kv1 (ik_key (projectId k) ik') = None).
    { intros ik' Hin. unfold get_json.
      replace kv1 with (snd (KVStore_spend params kv)) by (by rewrite Hspend).
      rewrite KVStore_spend_frame.
      - apply (Hfree ik'). by right.
      - simpl. intros Heq. apply ik_key_inj in Heq. by subst ik'.
      - apply ik_key_not_count_key. }
    specialize (IH kv1 Hnd Hfree1).
    change (adopted (get_count kv1 (count_key (buildCounterKey k)))
                    (get_count kv1 (count_key (buildLegacyCounterKey k))))
      with (kv_current_count params kv1) in IH.
    cbv zeta in IH. rewrite Hcount in IH.
    destruct (spend_each k limit ttlSeconds rest kv1) as [ds kv2]. simpl in IH |- *.
    destruct (limit <=? C)%Z eqn:Hlim.
    + destruct Hf as (Hd & _). destruct (IH Hpos) as [Hlen Hnth].
      split; [by rewrite Hlen|].
      intros [|i] d Hi.
      * injection Hi as <-. by rewrite Z.add_0_r, Hlim.
      * simpl in Hi. rewrite (Hnth i d Hi).
        apply Z.leb_le in Hlim.
        destruct (limit <=? C + Z.of_nat i)%Z eqn:H1; [|apply Z.leb_gt in H1; lia].
        destruct (limit <=? C + Z.of_nat (S i))%Z eqn:H2;
          [reflexivity | apply Z.leb_gt in H2; lia].
    + destruct Hf as (Hd & _). destruct (IH ltac:(lia)) as [Hlen Hnth].
      apply Z.leb_gt in Hlim.
      split; [by rewrite Hlen|].
      intros [|i] d Hi.
      * injection Hi as <-. rewrite Z.add_0_r.
        destruct (limit <=? C)%Z eqn:H1; [apply Z.leb_le in H1; lia|].
        rewrite Hd. f_equal. lia.
      * simpl in Hi. rewrite (Hnth i d Hi).
        replace (C + 1 + Z.of_nat i) with (C + Z.of_nat (S i)) by lia.
        reflexivity.
Qed.

(** *** The two backends, side by side *)

Lemma handleSpend_as_KVStore params kv name ns :
  get_json ns (name, ik_key (projectId (key params)) (IK params))
  = get_json kv (ik_key (projectId (key params)) (IK params)) ->
  get_count ns (name, "count") = get_count kv (count_key (buildCounterKey (key params))) ->
  get_count ns (name, "legacy_count")
  = get_count kv (count_key (buildLegacyCounterKey (key params))) ->
  fst (handleSpend name (projectId (key params)) (IK params) (limit params)
         (ttlSeconds params) ns)
  = mkDOResponse (if ok (fst (KVStore_spend params kv)) then 200 else 429)
      (DODecision (fst (KVStore_spend params kv))).
Proof.
  intros Hik Hc Hl. unfold handleSpend, KVStore_spend. rewrite Hik, Hc, Hl.
  destruct (get_json kv _) as [cached|]; [reflexivity|].
  destruct ((_ =? 0)%Z && enableMigrationFallback);
    [destruct (0 <? _)%Z|]; simpl;
    match goal with
    | |- context [(?l <=? ?c)%Z] => destruct (l <=? c)%Z
    end; reflexivity.
Qed.

End StoreCompositions.

(** ** The checks of the verifier *)

Section VerifierFacts.
Context `{Imports}.

Local Open Scope string_scope.

(** *** The comparison of byte strings *)

Lemma ctEqual_fold_zero (l : list (Z * Z)) (v : Z) :
  fold_left (fun v xy => Z.lor v (Z.lxor (fst xy) (snd xy))) l v = 0
  <-> v = 0 /\ Forall (fun xy => fst xy = snd xy) l.
Proof.
  revert v. induction l as [|[x y] l IH]; intros v; simpl.
  - split; [intros ->; by split | by intros [-> _]].
  - rewrite IH, Z.lor_eq_0_iff, Z.lxor_eq_0_iff. split.
    + intros [[-> ->] Hl]. split; [reflexivity|]. by constructor.
    + intros [-> Hl]. inversion Hl; subst. simpl in *. by subst.
Qed.

Lemma combine_diagonal (a b : bytes) :
  length a = length b ->
  Forall (fun xy : Z * Z => fst xy = snd xy) (combine a b) -> a = b.
Proof.
  revert b. induction a as [|x a IH]; intros [|y b] Hlen Hall; try discriminate.
  - reflexivity.
  - simpl in Hall. inversion Hall; subst. simpl in *. subst.
    f_equal. apply IH; [by injection Hlen | assumption].
Qed.

Lemma ctEqual_eq (a b : bytes) : ctEqual a b = true <-> a = b.
Proof.
  unfold ctEqual. split.
  - destruct (length a =? length b)%nat eqn:Hlen; simpl; [|discriminate].
    apply Nat.eqb_eq in Hlen. intros Hz. apply Z.eqb_eq in Hz.
    apply ctEqual_fold_zero in Hz as [_ Hall]. by apply combine_diagonal.
  - intros <-. rewrite Nat.eqb_refl. simpl. apply Z.eqb_eq.
    apply ctEqual_fold_zero. split; [reflexivity|].
    induction a as [|x a IH]; simpl; by constructor.
Qed.

(** *** The challenge *)

Lemma modN_range (x : Z) : 0 <= modN x < n.
Proof.
  rewrite modN_mod. apply Z.mod_pos_bound. reflexivity.
Qed.

Lemma dleqVerify_accepts a :
  dleqVerify a = Ok true ->
  0 <= c a < n
  /\ exists e1 e2 e3 e4 e5 e6,
       P256.toRawBytes (g1 a) = Ok e1 /\ P256.toRawBytes (h1 a) = Ok e2
       /\ P256.toRawBytes (g2 a) = Ok e3 /\ P256.toRawBytes (h2 a) = Ok e4
       /\ P256.toRawBytes (A1 a) = Ok e5 /\ P256.toRawBytes (A2 a) = Ok e6
       /\ c a = bytesToBig
                  (H3 [utf8ToBytes ("BRASS:" +:+ label a +:+ ":");
                       e1; e2; e3; e4; e5; e6; bind a]) mod n.
Proof.
  unfold dleqVerify, mbind, mret, exc_bind, exc_ret.
  destruct (P256.toRawBytes (g1 a)) as [|e1]; [discriminate|].
  destruct (P256.toRawBytes (h1 a)) as [|e2]; [discriminate|].
  destruct (P256.toRawBytes (g2 a)) as [|e3]; [discriminate|].
  destruct (P256.toRawBytes (h2 a)) as [|e4]; [discriminate|].
  destruct (P256.toRawBytes (A1 a)) as [|e5]; [discriminate|].
  destruct (P256.toRawBytes (A2 a)) as [|e6]; [discriminate|].
  cbv zeta. intros Heq. injection Heq as Heq. apply Z.eqb_eq in Heq.
  split.
  - rewrite <- Heq. apply modN_range.
  - exists e1, e2, e3, e4, e5, e6. repeat (split; [reflexivity|]).
    rewrite <- Heq. apply modN_mod.
Qed.

(** *** The issuer proof *)

Lemma verifyPiI_reference Y Mpt Zpt cI rI :
  0 < rI < n -> 0 < cI < n ->
  verifyPiI Y Mpt Zpt cI rI = reference_equation G Y Mpt Zpt cI rI [].
Proof.
  intros Hr Hc.
  unfold verifyPiI, reference_equation, combine2, P256.multiply, dleqVerify, FS.
  change P256.n with n.
  assert (Hrb : ((0 <? rI) && (rI <? n))%Z = true)
    by (apply andb_true_iff; split; apply Z.ltb_lt; lia).
  assert (Hcb : ((0 <? cI) && (cI <? n))%Z = true)
    by (apply andb_true_iff; split; apply Z.ltb_lt; lia).
  rewrite Hrb, Hcb.
  unfold mbind, mret, exc_bind, exc_ret.
  cbv beta iota delta [g1 h1 g2 h2 A1 A2 c r bind label].
  destruct (P256.toRawBytes G); [reflexivity|].
  destruct (P256.toRawBytes Y); [reflexivity|].
  destruct (P256.toRawBytes Mpt); [reflexivity|].
  destruct (P256.toRawBytes Zpt); [reflexivity|].
  destruct (P256.toRawBytes (P256.add _ _)); [reflexivity|].
  destruct (P256.toRawBytes (P256.add _ _)); [reflexivity|].
  cbv beta iota. rewrite modN_mod. rewrite (Z.mod_small cI n) by lia. reflexivity.
Qed.

(** *** The point codec *)

Lemma decodePoint_valid b64 Ppt :
  decodePoint b64 = Ok Ppt ->
  exists x y, Ppt = P256.Affine x y
    /\ 0 <= x < P256.p /\ 0 <= y < P256.p /\ P256.on_curve x y = true.
Proof.
  unfold decodePoint, mbind, mret, exc_bind, exc_ret.
  destruct (b64urlToBytes b64) as [|enc]; [discriminate|].
  destruct (P256.fromHex enc) as [|Q]; [discriminate|].
  destruct Q as [|x y]; simpl; [discriminate|].
  destruct (((0 <=? x) && (x <? P256.p) && (0 <=? y) && (y <? P256.p))%Z && P256.on_curve x y)
    eqn:Hv; [|discriminate].
  intros Heq. injection Heq as <-.
  repeat (apply andb_true_iff in Hv as [Hv ?]).
  exists x, y. repeat split; try lia; assumption.
Qed.

Lemma decodePoint_throws b64 enc m :
  b64urlToBytes b64 = Ok enc ->
  decodePoint b64 = Threw m ->
  m = "invalid_point_encoding" \/ m = P256.err_not_on_curve.
Proof.
  intros Henc. unfold decodePoint, mbind, mret, exc_bind, exc_ret. rewrite Henc.
  destruct (P256.fromHex enc) as [|Q] eqn:Hfrom; [intros Heq; injection Heq; auto|].
  destruct Q as [|x y]; simpl.
  - exfalso. unfold P256.fromHex in Hfrom.
    destruct enc as [|head tail]; [discriminate|].
    destruct (_ && _).
    + destruct (_ && _); [|discriminate]. destruct (P256.fsqrt _); discriminate.
    + destruct (_ && _); [|discriminate].
      destruct (P256.assertValidity _); discriminate.
  - destruct (_ && _); [discriminate|]. intros Heq. injection Heq; auto.
Qed.

End VerifierFacts.

(** ** How the handler's steps compose *)

Section HandlerCompositions.
Context `{Imports}.

Local Open Scope string_scope.

(** *** Telemetry *)

Lemma silent_ret {A} (a : A) : silent (h_ret a).
Proof. intros s. reflexivity. Qed.

Lemma silent_respond {A} (r : Response) : silent (@respond A r).
Proof. intros s. reflexivity. Qed.

Lemma silent_try {A} (x : Exc A) : silent (try x).
Proof. intros s. reflexivity. Qed.

Lemma silent_set_origin (o : string) : silent (set_origin o).
Proof. intros s. reflexivity. Qed.

Lemma silent_emitTelemetry env result :
  TELEMETRY_configured env = false -> silent (emitTelemetry env result).
Proof. intros Hoff s. unfold emitTelemetry. by rewrite Hoff. Qed.

Lemma silent_bind {A B} (c : Handler A) (k : A -> Handler B) :
  silent c -> (forall a, silent (k a)) -> silent (h_bind c k).
Proof.
  intros Hc Hk s. unfold h_bind. specialize (Hc s).
  destruct (c s) as [[a|r|m] s1]; simpl in *; [rewrite Hk|..]; exact Hc.
Qed.

Lemma silent_store_spend env store params : silent (store_spend env store params).
Proof.
  intros s. unfold store_spend. destruct store.
  - destruct (BRASS_KV_bound env); [|reflexivity].
    destruct (KVStore_spend _ _); reflexivity.
  - simpl. destruct (DurableObjectStore_spend _ _); reflexivity.
Qed.

Lemma silent_store_guardGrace env store g : silent (store_guardGrace env store g).
Proof.
  intros s. unfold store_guardGrace. destruct store.
  - destruct (BRASS_KV_bound env); reflexivity.
  - simpl. destruct (DurableObjectStore_guardGrace _ _); reflexivity.
Qed.

Lemma silent_store_cacheGraceResponse env store g response :
  silent (store_cacheGraceResponse env store g response).
Proof.
  intros s. unfold store_cacheGraceResponse.
  destruct store; [destruct (BRASS_KV_bound env)|]; reflexivity.
Qed.

Ltac silent_steps Hoff :=
  repeat first
    [ progress cbv zeta
    | apply silent_ret | apply silent_respond | apply silent_try
    | apply (silent_emitTelemetry _ _ Hoff) | apply silent_set_origin
    | apply silent_store_spend | apply silent_store_guardGrace
    | apply silent_store_cacheGraceResponse
    | apply silent_bind; [| intros ?]
    | match goal with |- silent (if ?b then _ else _) => destruct b end
    | match goal with |- silent (match ?x with _ => _ end) => destruct x end ].

Lemma pipeline_silent request env now :
  TELEMETRY_configured env = false -> silent (pipeline request env now).
Proof.
  intros Hoff. unfold pipeline, verify, authenticate, verify_presentation, settle,
    grace_bridge, spend_and_reply.
  silent_steps Hoff.
  intros s. unfold try. destruct (lookupApiKey _ _); reflexivity.
Qed.

Lemma fetch_silent request env now w :
  TELEMETRY_configured env = false ->
  telemetry (snd (fetch request env now w)) = telemetry w.
Proof.
  intros Hoff. unfold fetch.
  destruct (_ && _); [reflexivity|]. destruct (negb _); [reflexivity|].
  pose proof (pipeline_silent request env now Hoff (mkHState w "unknown")) as Hs.
  destruct (pipeline request env now (mkHState w "unknown")) as [[r|r|m] s1];
    simpl in Hs |- *; try exact Hs.
  unfold emitTelemetry. rewrite Hoff. exact Hs.
Qed.

(** *** Outcomes that do not depend on the state *)

Lemma oblivious_ret {A} (a : A) : oblivious (h_ret a).
Proof. intros s1 s2. reflexivity. Qed.

Lemma oblivious_respond {A} (r : Response) : oblivious (@respond A r).
Proof. intros s1 s2. reflexivity. Qed.

Lemma oblivious_try {A} (x : Exc A) : oblivious (try x).
Proof. intros s1 s2. reflexivity. Qed.

Lemma oblivious_set_origin (o : string) : oblivious (set_origin o).
Proof. intros s1 s2. reflexivity. Qed.

Lemma oblivious_emitTelemetry env result : oblivious (emitTelemetry env result).
Proof. intros s1 s2. by rewrite !emitTelemetry_next. Qed.

Lemma oblivious_bind {A B} (c : Handler A) (k : A -> Handler B) :
  oblivious c -> (forall a, oblivious (k a)) -> oblivious (h_bind c k).
Proof.
  intros Hc Hk s1 s2. unfold h_bind. specialize (Hc s1 s2).
  destruct (c s1) as [[a|r|m] t1], (c s2) as [[a'|r'|m'] t2]; simpl in Hc;
    try discriminate; try (by injection Hc as ->).
  injection Hc as ->. apply Hk.
Qed.

Ltac oblivious_steps :=
  repeat first
    [ progress cbv zeta
    | apply oblivious_ret | apply oblivious_respond | apply oblivious_try
    | apply oblivious_emitTelemetry | apply oblivious_set_origin
    | apply oblivious_bind; [| intros ?]
    | match goal with |- oblivious (if ?b then _ else _) => destruct b end
    | match goal with |- oblivious (match ?x with _ => _ end) => destruct x end ].

(** With the authentication by environment variable, the verification does
    not read the stores: its outcome is the same in every state. *)
Lemma verify_oblivious request env now :
  BRASS_KV_bound env && negb (BRASS_USE_ENV_AUTH env) = false ->
  oblivious (verify request env now).
Proof.
  intros Henv. unfold verify, authenticate, verify_presentation. rewrite Henv.
  oblivious_steps.
Qed.

(** *** The responses of the verification *)

Lemma authenticate_responses request env :
  responds_only (fun r => exists k, body r = ErrorBody k) (authenticate request env).
Proof.
  unfold authenticate.
  repeat first
    [ progress cbv zeta
    | apply responds_only_ret
    | apply responds_only_respond; eexists; reflexivity
    | apply responds_only_bind; [| intros ?]
    | match goal with |- responds_only _ (if ?b then _ else _) => destruct b end ].
  intros s r s' Hr. unfold try in Hr. destruct (lookupApiKey _ _); discriminate.
Qed.

Lemma verify_responses request env now :
  responds_only (fun r => exists k, body r = ErrorBody k) (verify request env now).
Proof.
  unfold verify. apply responds_only_bind; [apply authenticate_responses|].
  intros tenant s r s' Hr.
  destruct (verify_presentation_responses request env now tenant s r s' Hr)
    as (_ & k & _ & Hk).
  by exists k.
Qed.

(** A POST request that is answered with a decision went through the
    verification and the derivation of the idempotency key. *)
Lemma fetch_decision_verified request env now w :
  method request = "POST" ->
  is_decision (fst (fetch request env now w)) ->
  exists v s kvSecret IK,
    verify request env now (mkHState w "unknown") = (Next v, s)
    /\ secretToBytes (BRASS_KV_SECRET env) = Ok kvSecret
    /\ deriveIdempotencyKey kvSecret (v_y v) (p_c (v_payload v)) = Ok IK.
Proof.
  intros Hm Hdec.
  destruct (verify request env now (mkHState w "unknown")) as [[v|r|m] s] eqn:Hv.
  - rewrite (fetch_verified request env now w v s Hm Hv) in Hdec.
    destruct (secretToBytes (BRASS_KV_SECRET env)) as [m|kvSecret] eqn:Hsec.
    { destruct (settle_without_key env now v s) as [m' Hs]; [by rewrite Hsec|].
      rewrite Hs in Hdec. destruct Hdec. }
    destruct (deriveIdempotencyKey kvSecret (v_y v) (p_c (v_payload v))) as [m|IK]
      eqn:Hik.
    { destruct (settle_without_key env now v s) as [m' Hs]; [by rewrite Hsec, Hik|].
      rewrite Hs in Hdec. destruct Hdec. }
    by exists v, s, kvSecret, IK.
  - exfalso.
    rewrite (fetch_unverified request env now w _ s Hm Hv) in Hdec by discriminate.
    destruct (verify_responses request env now _ r s Hv) as [k Hk].
    simpl in Hdec. unfold is_decision in Hdec. by rewrite Hk in Hdec.
  - exfalso.
    rewrite (fetch_unverified request env now w _ s Hm Hv) in Hdec by discriminate.
    destruct Hdec.
Qed.

(** *** Outside the grace period *)

Lemma settle_outside_grace env now v s kvSecret IK :
  secretToBytes (BRASS_KV_SECRET env) = Ok kvSecret ->
  deriveIdempotencyKey kvSecret (v_y v) (p_c (v_payload v)) = Ok IK ->
  isInGracePeriod now (boundaryGraceSeconds env) = false ->
  settle env now v s
  = let spent := store_spend env (choose_store env) (spend_params env now v IK) s in
    match fst spent with
    | Next result =>
        (Next (rendered result (v_window v)),
         snd (emitTelemetry env
                (if ok result then "success"
                 else match error result with
                      | Some e => or_else e "rate_limited"
                      | None => "rate_limited"
                      end) (snd spent)))
    | Return r => (Return r, snd spent)
    | Raise m => (Raise m, snd spent)
    end.
Proof.
  intros Hsec Hik Hgrace.
  rewrite (settle_with_key env now v kvSecret IK s Hsec Hik).
  unfold h_bind at 1. unfold grace_bridge. rewrite Hgrace. cbv zeta. unfold h_ret at 1.
  unfold spend_and_reply. rewrite Hgrace. cbv zeta. unfold h_bind at 1.
  destruct (store_spend env (choose_store env) (spend_params env now v IK) s)
    as [[result|r|m] s1]; simpl fst; simpl snd; cbv iota; try reflexivity.
  simpl andb. cbv iota. unfold h_bind at 1, h_ret at 1. unfold rendered.
  destruct (ok result); cbn [negb]; cbv beta iota; unfold h_bind, h_ret;
    match goal with
    | |- context [emitTelemetry env ?e s1] =>
        pose proof (emitTelemetry_next env e s1) as Hn;
        destruct (emitTelemetry env e s1) as [o s2]; simpl in Hn; subst o
    end; reflexivity.
Qed.

(** A verified request outside the grace period: one call, [spend], and the
    response built from its result. *)
Lemma fetch_outside_grace request env now w v s kvSecret IK result :
  method request = "POST" ->
  verify request env now (mkHState w "unknown") = (Next v, s) ->
  secretToBytes (BRASS_KV_SECRET env) = Ok kvSecret ->
  deriveIdempotencyKey kvSecret (v_y v) (p_c (v_payload v)) = Ok IK ->
  isInGracePeriod now (boundaryGraceSeconds env) = false ->
  fst (store_spend env (choose_store env) (spend_params env now v IK) s) = Next result ->
  let spent := snd (store_spend env (choose_store env) (spend_params env now v IK) s) in
  fst (fetch request env now w) = rendered result (v_window v)
  /\ BRASS_KV (snd (fetch request env now w)) = BRASS_KV (world spent)
  /\ BRASS_COUNTER (snd (fetch request env now w)) = BRASS_COUNTER (world spent)
  /\ calls (snd (fetch request env now w))
     = (calls w ++ [CallSpend (spend_params env now v IK)])%list.
Proof.
  intros Hm Hv Hsec Hik Hgrace Hspend spent.
  destruct (fetch_verified_stores request env now w v s Hm Hv)
    as (Hq & Hresp & Hkv & Hdo & Hcalls).
  rewrite Hresp, Hkv, Hdo, Hcalls.
  rewrite (settle_outside_grace env now v s kvSecret IK Hsec Hik Hgrace). cbv zeta.
  rewrite Hspend. fold spent. simpl.
  match goal with
  | |- context [emitTelemetry env ?e spent] =>
      pose proof (emitTelemetry_stores env e spent) as Hs
  end.
  destruct (stores_namespaces _ _ Hs) as [H1 H2]. apply stores_calls in Hs.
  rewrite H1, H2, Hs. repeat split.
  subst spent. rewrite store_spend_effect.
  apply stores_calls in Hq. by rewrite Hq.
Qed.

(** The same on the best-effort store: the decision and the namespace are
    those of [KVStore.spend] on the namespace the request found. *)
Lemma fetch_kv_outside_grace request env now w v s kvSecret IK :
  method request = "POST" ->
  BRASS_KV_bound env = true ->
  choose_store env = KVStore ->
  verify request env now (mkHState w "unknown") = (Next v, s) ->
  secretToBytes (BRASS_KV_SECRET env) = Ok kvSecret ->
  deriveIdempotencyKey kvSecret (v_y v) (p_c (v_payload v)) = Ok IK ->
  isInGracePeriod now (boundaryGraceSeconds env) = false ->
  fst (fetch request env now w)
  = rendered (fst (KVStore_spend (spend_params env now v IK) (BRASS_KV w))) (v_window v)
  /\ BRASS_KV (snd (fetch request env now w))
     = snd (KVStore_spend (spend_params env now v IK) (BRASS_KV w)).
Proof.
  intros Hm Hbound Hstore Hv Hsec Hik Hgrace.
  pose proof (verify_quiet request env now (mkHState w "unknown")) as Hq.
  rewrite Hv in Hq. destruct (stores_namespaces _ _ Hq) as [Hkv _]. simpl in Hkv.
  assert (Hspend : store_spend env (choose_store env) (spend_params env now v IK) s
                   = (Next (fst (KVStore_spend (spend_params env now v IK) (BRASS_KV w))),
                      mkHState
                        (with_kv (world (logged (CallSpend (spend_params env now v IK)) s))
                           (snd (KVStore_spend (spend_params env now v IK) (BRASS_KV w))))
                        (origin_var s))).
  { rewrite Hstore. unfold store_spend. rewrite Hbound. simpl. rewrite Hkv.
    by destruct (KVStore_spend _ _). }
  destruct (fetch_outside_grace request env now w v s kvSecret IK _ Hm Hv Hsec Hik Hgrace
              (f_equal fst Hspend)) as (Hresp & Hkv' & _).
  rewrite Hspend in Hkv'. simpl in Hkv'. by split.
Qed.

(** The same request again, at the same clock value, after the handler
    answered it with a decision. *)
Lemma fetch_again request env now w :
  method request = "POST" ->
  BRASS_KV_bound env = true ->
  BRASS_USE_ENV_AUTH env = true ->
  choose_store env = KVStore ->
  isInGracePeriod now (boundaryGraceSeconds env) = false ->
  is_decision (fst (fetch request env now w)) ->
  exists result window,
    fst (fetch request env now w) = rendered result window
    /\ fst (fetch request env now (snd (fetch request env now w)))
       = rendered (replayed result) window
    /\ BRASS_KV (snd (fetch request env now (snd (fetch request env now w))))
       = BRASS_KV (snd (fetch request env now w)).
Proof.
  intros Hm Hbound Hauth Hstore Hgrace Hdec.
  destruct (fetch_decision_verified request env now w Hm Hdec)
    as (v & s & kvSecret & IK & Hv & Hsec & Hik).
  destruct (fetch_kv_outside_grace request env now w v s kvSecret IK
              Hm Hbound Hstore Hv Hsec Hik Hgrace) as [Hresp Hkv].
  set (w1 := snd (fetch request env now w)) in *.
  assert (Henv : BRASS_KV_bound env && negb (BRASS_USE_ENV_AUTH env) = false)
    by (by rewrite Hbound, Hauth).
  pose proof (verify_oblivious request env now Henv (mkHState w "unknown")
                (mkHState w1 "unknown")) as Hob.
  rewrite Hv in Hob. simpl in Hob.
  destruct (verify request env now (mkHState w1 "unknown")) as [o s'] eqn:Hv1.
  simpl in Hob. subst o.
  destruct (fetch_kv_outside_grace request env now w1 v s' kvSecret IK
              Hm Hbound Hstore Hv1 Hsec Hik Hgrace) as [Hresp1 Hkv1].
  exists (fst (KVStore_spend (spend_params env now v IK) (BRASS_KV w))), (v_window v).
  split; [exact Hresp|].
  rewrite Hresp1, Hkv1, Hkv.
  by rewrite (KVStore_spend_again _ _ (BRASS_KV w) eq_refl eq_refl).
Qed.

(** *** Requests that do not authenticate *)

Lemma fetch_without_bearer request env now w :
  method request = "POST" ->
  String.prefix "Bearer " (default "" (authorization request)) = false ->
  fetch request env now w = (mkResponse 401 (ErrorBody "missing_api_key"), w).
Proof.
  intros Hm Hb. unfold fetch. rewrite Hm. simpl.
  unfold pipeline, verify, authenticate, h_bind. cbv zeta. rewrite Hb. reflexivity.
Qed.

Lemma fetch_wrong_key request env now w apiKey :
  method request = "POST" ->
  authorization request = Some ("Bearer " +:+ apiKey) ->
  BRASS_KV_bound env && negb (BRASS_USE_ENV_AUTH env) = false ->
  Some apiKey <> BRASS_SECRET_KEY env ->
  fetch request env now w = (mkResponse 401 (ErrorBody "invalid_api_key"), w).
Proof.
  intros Hm Ha Henv Hkey. unfold fetch. rewrite Hm. simpl.
  unfold pipeline, verify, authenticate, h_bind. cbv zeta. rewrite Ha, Henv.
  simpl. rewrite Nat.sub_0_r.
  assert (Hsub : substring 0 (String.length apiKey) apiKey = apiKey).
  { clear. induction apiKey as [|ch rest IH]; simpl; [reflexivity | by rewrite IH]. }
  change ("" +:+ apiKey) with apiKey.
  assert (Hp : String.prefix "" apiKey = true) by (by destruct apiKey).
  rewrite Hp, Hsub. simpl.
  rewrite bool_decide_false by exact Hkey. reflexivity.
Qed.

End HandlerCompositions.

(** ** The mock namespace *)

Section MockFacts.

Local Open Scope string_scope.

Lemma map_get_set_same m key value : MockKV.map_get (MockKV.map_set m key value) key = Some value.
Proof.
  induction m as [|[k v] rest IH]; simpl.
  - by rewrite String.eqb_refl.
  - destruct (String.eqb k key) eqn:Hk; simpl; rewrite Hk; [reflexivity | exact IH].
Qed.

Lemma map_get_set_other m key value key' :
  key' <> key -> MockKV.map_get (MockKV.map_set m key value) key' = MockKV.map_get m key'.
Proof.
  intros Hne. induction m as [|[k v] rest IH]; simpl.
  - destruct (String.eqb key key') eqn:Hk; [|reflexivity].
    apply String.eqb_eq in Hk. by subst.
  - destruct (String.eqb k key) eqn:Hk; simpl; [|by rewrite IH].
    apply String.eqb_eq in Hk. subst k.
    destruct (String.eqb key key') eqn:Hk'; [|reflexivity].
    apply String.eqb_eq in Hk'. by subst.
Qed.

Lemma map_keys_set m key value :
  NoDup (map fst m) -> NoDup (map fst (MockKV.map_set m key value)).
Proof.
  induction m as [|[k v] rest IH]; simpl; intros Hnd.
  - apply NoDup_singleton.
  - destruct (String.eqb k key) eqn:Hk; simpl; [exact Hnd|].
    apply NoDup_cons in Hnd as [Hnotin Hnd]. apply NoDup_cons. split; [|by apply IH].
    intros Hin. apply Hnotin. clear IH Hnd Hnotin.
    apply String.eqb_neq in Hk.
    induction rest as [|[k' v'] rest IH]; simpl in *.
    + apply list_elem_of_singleton in Hin. by subst.
    + destruct (String.eqb k' key); simpl in *; [exact Hin|].
      apply elem_of_cons in Hin as [->|Hin]; [left | right; by apply IH].
Qed.

Lemma map_get_absent m key :
  key ∉ map fst m -> MockKV.map_get m key = None.
Proof.
  induction m as [|[k v] rest IH]; simpl; intros Hnotin; [reflexivity|].
  destruct (String.eqb k key) eqn:Hk.
  - apply String.eqb_eq in Hk. subst. exfalso. apply Hnotin. left.
  - apply IH. intros Hin. apply Hnotin. by right.
Qed.

Lemma map_delete_keys m key k :
  k ∈ map fst (MockKV.map_delete m key) -> k ∈ map fst m.
Proof.
  induction m as [|[k0 v] rest IH]; simpl; [done|].
  destruct (String.eqb k0 key); simpl; intros Hin; [by right|].
  apply elem_of_cons in Hin as [->|Hin]; [left | right; by apply IH].
Qed.

Lemma map_keys_delete m key :
  NoDup (map fst m) ->
  NoDup (map fst (MockKV.map_delete m key)) /\ key ∉ map fst (MockKV.map_delete m key).
Proof.
  induction m as [|[k v] rest IH]; simpl; intros Hnd.
  - split; [constructor | apply not_elem_of_nil].
  - apply NoDup_cons in Hnd as [Hnotin Hnd].
    destruct (String.eqb k key) eqn:Hk.
    + apply String.eqb_eq in Hk. subst. by split.
    + apply String.eqb_neq in Hk. destruct (IH Hnd) as [Hnd' Hgone]. simpl.
      split.
      * apply NoDup_cons. split; [|exact Hnd'].
        intros Hin. apply Hnotin. by apply (map_delete_keys rest key).
      * intros Hin. apply elem_of_cons in Hin as [->|Hin]; [done | by apply Hgone].
Qed.

Lemma map_get_delete_other m key key' :
  key' <> key -> MockKV.map_get (MockKV.map_delete m key) key' = MockKV.map_get m key'.
Proof.
  intros Hne. induction m as [|[k v] rest IH]; simpl; [reflexivity|].
  destruct (String.eqb k key) eqn:Hk; simpl.
  - apply String.eqb_eq in Hk. subst k.
    destruct (String.eqb key key') eqn:Hk'; [|reflexivity].
    apply String.eqb_eq in Hk'. by subst.
  - by rewrite IH.
Qed.

Lemma MockKV_wf_empty : MockKV.wf MockKV.empty.
Proof. constructor. Qed.

Lemma MockKV_wf_put kv key value ttl :
  MockKV.wf kv -> MockKV.wf (MockKV.put kv key value ttl).
Proof. apply map_keys_set. Qed.

Lemma MockKV_wf_delete kv key : MockKV.wf kv -> MockKV.wf (MockKV.delete kv key).
Proof. intros Hwf. by apply map_keys_delete. Qed.

Lemma MockKV_wf_fire kv i : MockKV.wf kv -> MockKV.wf (MockKV.fire kv i).
Proof.
  intros Hwf. unfold MockKV.fire.
  destruct (nth_error _ i) as [[delay key]|]; [|exact Hwf].
  by apply map_keys_delete.
Qed.

Lemma MockKV_get_put kv key value ttl key' :
  MockKV.get (MockKV.put kv key value ttl) key
  = (if String.eqb value "" then None else Some value)
  /\ (key' <> key ->
      MockKV.get (MockKV.put kv key value ttl) key' = MockKV.get kv key').
Proof.
  unfold MockKV.get, MockKV.put. simpl. split.
  - by rewrite map_get_set_same.
  - intros Hne. by rewrite map_get_set_other.
Qed.

Lemma MockKV_get_delete kv key key' :
  MockKV.wf kv ->
  MockKV.get (MockKV.delete kv key) key = None
  /\ (key' <> key -> MockKV.get (MockKV.delete kv key) key' = MockKV.get kv key').
Proof.
  intros Hwf. unfold MockKV.get, MockKV.delete. simpl. split.
  - rewrite map_get_absent; [reflexivity|]. by apply map_keys_delete.
  - intros Hne. by rewrite map_get_delete_other.
Qed.

Lemma MockKV_timer_outlives kv key v1 v2 ttl :
  MockKV.wf kv -> ttl <> 0%Z ->
  MockKV.get
    (MockKV.fire (MockKV.put (MockKV.put kv key v1 (Some ttl)) key v2 None)
                 (length (MockKV.timers kv)))
    key = None.
Proof.
  intros Hwf Httl. unfold MockKV.fire, MockKV.put. simpl.
  apply Z.eqb_neq in Httl. rewrite Httl.
  rewrite nth_error_app2 by lia. rewrite Nat.sub_diag. simpl.
  unfold MockKV.get. simpl. rewrite map_get_absent; [reflexivity|].
  apply map_keys_delete. by do 2 apply map_keys_set.
Qed.

Lemma slice0_length {A} (n : Z) (l : list A) :
  (0 <= n)%Z -> (Z.of_nat (length (MockKV.slice0 n l)) <= n)%Z.
Proof.
  intros Hn. unfold MockKV.slice0.
  destruct (n <? 0)%Z eqn:Hneg; [apply Z.ltb_lt in Hneg; lia|].
  rewrite length_firstn. lia.
Qed.

Lemma slice0_subset {A} (n : Z) (l : list A) x : x ∈ MockKV.slice0 n l -> x ∈ l.
Proof. unfold MockKV.slice0. destruct (n <? 0)%Z; apply subseteq_take. Qed.

Lemma MockKV_list_spec kv prefix limit :
  let listed := MockKV.list kv prefix limit in
  snd listed = true
  /\ (forall name, name ∈ fst listed ->
        name ∈ map fst (MockKV.store kv)
        /\ (truthy prefix = true -> String.prefix (default "" prefix) name = true))
  /\ (forall l, limit = Some l -> (0 < l)%Z -> (Z.of_nat (length (fst listed)) <= l)%Z)
  /\ (limit = None \/ limit = Some 0%Z -> (length (fst listed) <= 1000)%nat).
Proof.
  cbv zeta. unfold MockKV.list. simpl. split; [reflexivity|]. split; [|split].
  - intros name Hin. apply slice0_subset in Hin.
    apply list_elem_of_filter in Hin as [Hp Hin]. split; [exact Hin|].
    intros Ht. rewrite Ht in Hp. simpl in Hp. by apply Is_true_true.
  - intros l -> Hl. destruct (l =? 0)%Z eqn:Hz; [apply Z.eqb_eq in Hz; lia|].
    apply slice0_length. lia.
  - intros [-> | ->]; simpl;
      match goal with
      | |- (length (MockKV.slice0 1000 ?l) <= _)%nat =>
          pose proof (slice0_length 1000 l ltac:(lia)); lia
      end.
Qed.

End MockFacts.

(** ** The verification, step by step *)

Section VerificationSteps.
Context `{Imports}.

Local Open Scope string_scope.

Lemma h_bind_set_origin {B} (o : string) (k : unit -> Handler B) s :
  h_bind (set_origin o) k s = k tt (mkHState (world s) o).
Proof. reflexivity. Qed.

Lemma h_bind_try_threw {A B} (m : string) (k : A -> Handler B) s :
  h_bind (try (Threw m)) k s = (Raise m, s).
Proof. reflexivity. Qed.

Lemma h_bind_cong {A B} (c c' : Handler A) (k : A -> Handler B) s :
  c s = c' s -> h_bind c k s = h_bind c' k s.
Proof. intros Hc. unfold h_bind. by rewrite Hc. Qed.

Lemma h_bind_ret {A B} (a : A) (k : A -> Handler B) s :
  h_bind (h_ret a) k s = k a s.
Proof. reflexivity. Qed.

Lemma h_bind_reject {A} env kind (r : Response) s :
  h_bind (emitTelemetry env kind) (fun _ => @respond A r) s
  = (Return r, snd (emitTelemetry env kind s)).
Proof. unfold h_bind. rewrite emitTelemetry_eq. reflexivity. Qed.

(** The comparison of d as a step of the handler. *)
Lemma d_check_step payload d s :
  (if truthy (p_d_client payload) then
     let* dc := try (b64urlToBytes (default "" (p_d_client payload))) in
     h_ret (ctEqual d dc)
   else h_ret true) s
  = try (d_check payload d) s.
Proof.
  unfold d_check. destruct (truthy _); [|reflexivity].
  unfold h_bind, try. by destruct (b64urlToBytes _).
Qed.

(** The reading of the TLS exporter as a step of the handler. *)
Lemma tls_exporter_step payload s :
  (if truthy (p_tls_exporter_b64 payload) then
     let* e := try (b64urlToBytes (default "" (p_tls_exporter_b64 payload))) in
     h_ret (Some e)
   else h_ret None) s
  = try (tls_exporter payload) s.
Proof.
  unfold tls_exporter. destruct (truthy _); [|reflexivity].
  unfold h_bind, try. by destruct (b64urlToBytes _).
Qed.

Ltac step_with E := rewrite E, h_bind_try_ok; cbv beta.

(** The verification from the check of the issuer proof on, for a request
    whose body, digest, points and scalars were read. *)
Lemma verify_presentation_decoded request env now tenant s payload d Ppt Mpt Zpt Zppt Y cI rI :
  decoded request env payload d Ppt Mpt Zpt Zppt Y cI rI ->
  verify_presentation request env now tenant s
  = let s1 := mkHState (world s) (p_origin payload) in
    match verifyPiI Y Mpt Zpt cI rI with
    | Threw m => (Raise m, s1)
    | Ok false => (Return (json_error 401 "invalid_piI"),
                   snd (emitTelemetry env "invalid_piI" s1))
    | Ok true =>
        match d_check payload d with
        | Threw m => (Raise m, s1)
        | Ok false => (Return (json_error 401 "d_mismatch"),
                       snd (emitTelemetry env "d_mismatch" s1))
        | Ok true =>
            match canonicalOrigin (p_origin payload) with
            | Threw m => (Raise m, s1)
            | Ok originCanonical =>
                match scalar_of (pc (p_piC payload)) with
                | Threw m => (Raise m, s1)
                | Ok cC =>
                match scalar_of (pr (p_piC payload)) with
                | Threw m => (Raise m, s1)
                | Ok rC =>
                match tls_exporter payload with
                | Threw m => (Raise m, s1)
                | Ok tlsExporterBytes =>
                match b64urlToBytes (p_c payload) with
                | Threw m => (Raise m, s1)
                | Ok nonce =>
                    match verifyPiC Ppt Mpt cC rC
                            (bindC_of env now payload originCanonical d
                                      tlsExporterBytes nonce) with
                    | Threw m => (Raise m, s1)
                    | Ok false => (Return (json_error 401 "invalid_piC"),
                                   snd (emitTelemetry env "invalid_piC" s1))
                    | Ok true =>
                        (Next (verified_of tenant env now payload originCanonical), s1)
                    end
                end end end end
            end
        end
    end.
Proof.
  intros (Hparse & Hd & HP & HM & HZ & HZp & HY & HcI & HrI). cbv zeta.
  unfold verify_presentation. cbv zeta.
  step_with Hparse. rewrite h_bind_set_origin.
  step_with Hd. step_with HP. step_with HM. step_with HZ. step_with HZp.
  step_with HY. step_with HcI. step_with HrI.
  set (s1 := mkHState (world s) (p_origin payload)).
  destruct (verifyPiI Y Mpt Zpt cI rI) as [m|[|]];
    [reflexivity | rewrite h_bind_try_ok; cbn [negb]; cbv beta iota
    | rewrite h_bind_try_ok; cbn [negb]; cbv beta iota; apply h_bind_reject].
  rewrite (h_bind_cong _ (try (d_check payload d)) _ s1 (d_check_step payload d s1)).
  destruct (d_check payload d) as [m|[|]];
    [reflexivity | rewrite h_bind_try_ok; cbn [negb]; cbv beta iota
    | rewrite h_bind_try_ok; cbn [negb]; cbv beta iota; apply h_bind_reject].
  destruct (canonicalOrigin (p_origin payload)) as [m|oc];
    [reflexivity | rewrite h_bind_try_ok; cbv beta].
  destruct (scalar_of (pc (p_piC payload))) as [m|cC];
    [reflexivity | rewrite h_bind_try_ok; cbv beta].
  destruct (scalar_of (pr (p_piC payload))) as [m|rC];
    [reflexivity | rewrite h_bind_try_ok; cbv beta].
  rewrite (h_bind_cong _ (try (tls_exporter payload)) _ s1 (tls_exporter_step payload s1)).
  destruct (tls_exporter payload) as [m|tls];
    [reflexivity | rewrite h_bind_try_ok; cbv beta].
  destruct (b64urlToBytes (p_c payload)) as [m|nonce];
    [reflexivity | rewrite h_bind_try_ok; cbv beta].
  change (compute_bindC payload _ nonce d (deriveTlsBinding tls) _ _ _)
    with (bindC_of env now payload oc d tls nonce).
  destruct (verifyPiC Ppt Mpt cC rC _) as [m|[|]];
    [reflexivity | rewrite h_bind_try_ok; cbn [negb]; cbv beta iota
    | rewrite h_bind_try_ok; cbn [negb]; cbv beta iota; apply h_bind_reject].
  reflexivity.
Qed.

(** The verification up to the check of the issuer proof: the first step
    that throws ends it. *)
Lemma verify_presentation_decoding request env now tenant s :
  verify_presentation request env now tenant s
  = match JSON_parse (bodyText request) with
    | Threw m => (Raise m, s)
    | Ok payload =>
        let s1 := mkHState (world s) (p_origin payload) in
        match compute_d request payload with
        | Threw m => (Raise m, s1)
        | Ok _ =>
        match decodePoint (p_P payload) with
        | Threw m => (Raise m, s1)
        | Ok _ =>
        match decodePoint (p_M payload) with
        | Threw m => (Raise m, s1)
        | Ok _ =>
        match decodePoint (p_Z payload) with
        | Threw m => (Raise m, s1)
        | Ok _ =>
        match decodePoint (p_Zprime payload) with
        | Threw m => (Raise m, s1)
        | Ok _ =>
        match decodePoint (BRASS_ISSUER_PUBKEY env) with
        | Threw m => (Raise m, s1)
        | Ok _ =>
        match scalar_of (pc (p_piI payload)) with
        | Threw m => (Raise m, s1)
        | Ok _ =>
        match scalar_of (pr (p_piI payload)) with
        | Threw m => (Raise m, s1)
        | Ok _ => verify_presentation request env now tenant s
        end end end end end end end end
    end.
Proof.
  destruct (JSON_parse (bodyText request)) as [m|payload] eqn:Hparse.
  { unfold verify_presentation. cbv zeta. rewrite Hparse. reflexivity. }
  cbv zeta.
  destruct (compute_d request payload) as [m|d] eqn:Hd.
  { unfold verify_presentation. cbv zeta. step_with Hparse. rewrite h_bind_set_origin.
    rewrite Hd. reflexivity. }
  destruct (decodePoint (p_P payload)) as [m|Ppt] eqn:HP.
  { unfold verify_presentation. cbv zeta. step_with Hparse. rewrite h_bind_set_origin.
    step_with Hd. rewrite HP. reflexivity. }
  destruct (decodePoint (p_M payload)) as [m|Mpt] eqn:HM.
  { unfold verify_presentation. cbv zeta. step_with Hparse. rewrite h_bind_set_origin.
    step_with Hd. step_with HP. rewrite HM. reflexivity. }
  destruct (decodePoint (p_Z payload)) as [m|Zpt] eqn:HZ.
  { unfold verify_presentation. cbv zeta. step_with Hparse. rewrite h_bind_set_origin.
    step_with Hd. step_with HP. step_with HM. rewrite HZ. reflexivity. }
  destruct (decodePoint (p_Zprime payload)) as [m|Zppt] eqn:HZp.
  { unfold verify_presentation. cbv zeta. step_with Hparse. rewrite h_bind_set_origin.
    step_with Hd. step_with HP. step_with HM. step_with HZ. rewrite HZp. reflexivity. }
  destruct (decodePoint (BRASS_ISSUER_PUBKEY env)) as [m|Y] eqn:HY.
  { unfold verify_presentation. cbv zeta. step_with Hparse. rewrite h_bind_set_origin.
    step_with Hd. step_with HP. step_with HM. step_with HZ. step_with HZp.
    rewrite HY. reflexivity. }
  destruct (scalar_of (pc (p_piI payload))) as [m|cI] eqn:HcI.
  { unfold verify_presentation. cbv zeta. step_with Hparse. rewrite h_bind_set_origin.
    step_with Hd. step_with HP. step_with HM. step_with HZ. step_with HZp.
    step_with HY. rewrite HcI. reflexivity. }
  destruct (scalar_of (pr (p_piI payload))) as [m|rI] eqn:HrI.
  { unfold verify_presentation. cbv zeta. step_with Hparse. rewrite h_bind_set_origin.
    step_with Hd. step_with HP. step_with HM. step_with HZ. step_with HZp.
    step_with HY. step_with HcI. rewrite HrI. reflexivity. }
  reflexivity.
Qed.

(** A verification that hands on has passed every step. *)
Lemma verify_presentation_next request env now tenant s v s' :
  verify_presentation request env now tenant s = (Next v, s') ->
  exists payload d Ppt Mpt Zpt Zppt Y cI rI originCanonical cC rC tlsExporterBytes nonce,
    decoded request env payload d Ppt Mpt Zpt Zppt Y cI rI
    /\ verifyPiI Y Mpt Zpt cI rI = Ok true
    /\ d_check payload d = Ok true
    /\ bound payload originCanonical cC rC tlsExporterBytes nonce
    /\ verifyPiC Ppt Mpt cC rC
         (bindC_of env now payload originCanonical d tlsExporterBytes nonce) = Ok true
    /\ v = verified_of tenant env now payload originCanonical
    /\ s' = mkHState (world s) (p_origin payload).
Proof.
  intros Hv. rewrite verify_presentation_decoding in Hv.
  destruct (JSON_parse (bodyText request)) as [m|payload] eqn:Hparse; [discriminate|].
  cbv zeta in Hv.
  destruct (compute_d request payload) as [m|d] eqn:Hd; [discriminate|].
  destruct (decodePoint (p_P payload)) as [m|Ppt] eqn:HP; [discriminate|].
  destruct (decodePoint (p_M payload)) as [m|Mpt] eqn:HM; [discriminate|].
  destruct (decodePoint (p_Z payload)) as [m|Zpt] eqn:HZ; [discriminate|].
  destruct (decodePoint (p_Zprime payload)) as [m|Zppt] eqn:HZp; [discriminate|].
  destruct (decodePoint (BRASS_ISSUER_PUBKEY env)) as [m|Y] eqn:HY; [discriminate|].
  destruct (scalar_of (pc (p_piI payload))) as [m|cI] eqn:HcI; [discriminate|].
  destruct (scalar_of (pr (p_piI payload))) as [m|rI] eqn:HrI; [discriminate|].
  assert (Hdec : decoded request env payload d Ppt Mpt Zpt Zppt Y cI rI)
    by (unfold decoded; auto 10).
  rewrite (verify_presentation_decoded _ _ _ _ _ _ _ _ _ _ _ _ _ _ Hdec) in Hv.
  cbv zeta in Hv.
  destruct (verifyPiI Y Mpt Zpt cI rI) as [m|[|]] eqn:HokI; [discriminate| |discriminate].
  destruct (d_check payload d) as [m|[|]] eqn:Hdm; [discriminate| |discriminate].
  destruct (canonicalOrigin (p_origin payload)) as [m|oc] eqn:Hoc; [discriminate|].
  destruct (scalar_of (pc (p_piC payload))) as [m|cC] eqn:HcC; [discriminate|].
  destruct (scalar_of (pr (p_piC payload))) as [m|rC] eqn:HrC; [discriminate|].
  destruct (tls_exporter payload) as [m|tls] eqn:Htls; [discriminate|].
  destruct (b64urlToBytes (p_c payload)) as [m|nonce] eqn:Hnonce; [discriminate|].
  destruct (verifyPiC Ppt Mpt cC rC _) as [m|[|]] eqn:HokC; [discriminate| |discriminate].
  injection Hv as <- <-.
  exists payload, d, Ppt, Mpt, Zpt, Zppt, Y, cI, rI, oc, cC, rC, tls, nonce.
  unfold bound. auto 10.
Qed.

(** The authentication does not change the handler's state. *)
Lemma authenticate_state request env s :
  snd (authenticate request env s) = s.
Proof.
  unfold authenticate. cbv zeta.
  destruct (negb (String.prefix _ _)); [reflexivity|].
  destruct (BRASS_KV_bound env && negb (BRASS_USE_ENV_AUTH env)).
  - unfold h_bind, try. destruct (lookupApiKey _ _) as [m|keyData]; [reflexivity|].
    destruct (negb (valid keyData)); reflexivity.
  - destruct (negb (bool_decide _)); reflexivity.
Qed.

(** An authentication that hands on has found the key. *)
Lemma authenticate_next request env s tenant s' :
  authenticate request env s = (Next tenant, s') ->
  String.prefix "Bearer " (default "" (authorization request)) = true
  /\ if BRASS_KV_bound env && negb (BRASS_USE_ENV_AUTH env)
     then exists keyData,
            lookupApiKey (bearer_key request) (BRASS_KV (world s)) = Ok keyData
            /\ valid keyData = true
     else Some (bearer_key request) = BRASS_SECRET_KEY env.
Proof.
  intros Ha. unfold authenticate in Ha. unfold bearer_key. cbv zeta in Ha.
  destruct (String.prefix _ _); [|discriminate].
  change (negb true) with false in Ha. cbv iota in Ha.
  destruct (BRASS_KV_bound env && negb (BRASS_USE_ENV_AUTH env)).
  - unfold h_bind, try in Ha. cbv beta in Ha.
    destruct (lookupApiKey _ _) as [m|keyData]; [simpl in Ha; discriminate|].
    destruct (valid keyData) eqn:Hvalid; [|simpl in Ha; discriminate].
    split; [reflexivity|]. by exists keyData.
  - destruct (bool_decide _) eqn:Hkey; [|simpl in Ha; discriminate].
    split; [reflexivity|]. by apply bool_decide_eq_true in Hkey.
Qed.

(** The handler on an authenticated POST request. *)
Lemma fetch_authenticated request env now w tenant :
  method request = "POST" ->
  fst (authenticate request env (mkHState w "unknown")) = Next tenant ->
  fetch request env now w
  = finish env (h_bind (verify_presentation request env now tenant) (settle env now)
                       (mkHState w "unknown")).
Proof.
  intros Hm Hauth. unfold fetch. rewrite Hm. simpl. unfold pipeline, verify.
  unfold h_bind at 1 2.
  pose proof (authenticate_state request env (mkHState w "unknown")) as Hs.
  destruct (authenticate request env (mkHState w "unknown")) as [o s1].
  simpl in Hauth, Hs. subst o s1. reflexivity.
Qed.

(** The accounting answers none of the error kinds. *)
Lemma finish_settle_no_kind env now v s kind status0 :
  fst (finish env (settle env now v s)) = json_error status0 kind -> status0 = 500.
Proof.
  pose proof (settle_yields env now v s) as Hy.
  destruct (settle env now v s) as [[r|r|m] s1]; specialize (Hy _ _ eq_refl);
    simpl in Hy |- *; unfold json_error.
  - intros ->. destruct Hy.
  - intros ->. destruct Hy.
  - cbv zeta. simpl fst. intros Heq. injection Heq as Hst _. by symmetry.
Qed.

(** A step that failed keeps the verification from handing on. *)
Lemma step_fails_verify request env now w v s :
  step_fails request env now w ->
  verify request env now (mkHState w "unknown") = (Next v, s) ->
  exists m, settle env now v s = (Raise m, s).
Proof.
  intros Hfail Hv.
  assert (Hinv : exists tenant,
            authenticate request env (mkHState w "unknown")
            = (Next tenant, mkHState w "unknown")
            /\ verify_presentation request env now tenant (mkHState w "unknown")
               = (Next v, s)).
  { unfold verify, h_bind in Hv.
    pose proof (authenticate_state request env (mkHState w "unknown")) as Hs.
    destruct (authenticate request env (mkHState w "unknown")) as [[tenant|r|m] s1];
      [|discriminate..].
    simpl in Hs. subst s1. by exists tenant. }
  destruct Hinv as (tenant & Hauth & Hvp).
  apply authenticate_next in Hauth. destruct Hauth as [Hbearer Hkey]. simpl in Hkey.
  apply verify_presentation_next in Hvp.
  destruct Hvp as (payload & d & Ppt & Mpt & Zpt & Zppt & Y & cI & rI & oc & cC & rC
                   & tls & nonce & Hdec & HokI & Hdm & Hb & HokC & Hveq & Hseq).
  destruct Hdec as (Hparse & Hd & HP & HM & HZ & HZp & HY & HcI & HrI).
  pose proof Hb as (Hoc & HcC & HrC & Htls & Hnonce).
  destruct Hfail as [Hno | Hkv Hfail | Henv Hfail | m Hfail | p0 m Hp0 Hfail
                    | p0 x m Hp0 Hin Hfail | p0 M0 Z0 Y0 cI0 rI0 Hp0 HM0 HZ0 HY0 HcI0 HrI0 Hfail
                    | p0 d0 Hp0 Hd0 Hfail | p0 m Hp0 Hfail
                    | p0 d0 P0 M0 oc0 cC0 rC0 tls0 nonce0 Hp0 Hd0 HP0 HM0 Hb0 Hfail
                    | v0 s0 Hv0 Hfail ].
  - congruence.
  - rewrite Hkv in Hkey. destruct Hkey as (keyData & Hlook & Hvalid).
    specialize (Hfail keyData Hlook). congruence.
  - rewrite Henv in Hkey. contradiction.
  - congruence.
  - assert (p0 = payload) by congruence. subst p0.
    destruct Hfail as [Hf | [(x & Hin & Hf) | [Hf | Hf]]]; try congruence.
    simpl in Hin. destruct Hin as [<-|[<-|[<-|[<-|[]]]]]; congruence.
  - assert (p0 = payload) by congruence. subst p0.
    simpl in Hin. destruct Hin as [<-|[<-|[<-|[<-|[<-|[]]]]]]; congruence.
  - assert (p0 = payload) by congruence. subst p0. congruence.
  - assert (p0 = payload) by congruence. subst p0. congruence.
  - congruence.
  - assert (p0 = payload) by congruence. subst p0.
    destruct Hb0 as (Hoc0 & HcC0 & HrC0 & Htls0 & Hnonce0). congruence.
  - assert (v0 = v /\ s0 = s) as [-> ->] by (split; congruence).
    unfold settle, h_bind, try.
    destruct (secretToBytes _) as [m|kvSecret]; [by exists m|].
    destruct (Hfail kvSecret eq_refl) as [m ->]. by exists m.
Qed.

End VerificationSteps.

(** ** The handler's answers to the steps of the verification *)

Section VerificationAnswers.
Context `{Imports}.

Local Open Scope string_scope.


(** The handler's answer to a failed issuer proof. *)
Lemma fetch_invalid_piI request env now w tenant payload d Ppt Mpt Zpt Zppt Y cI rI :
  method request = "POST" ->
  fst (authenticate request env (mkHState w "unknown")) = Next tenant ->
  decoded request env payload d Ppt Mpt Zpt Zppt Y cI rI ->
  verifyPiI Y Mpt Zpt cI rI = Ok false ->
  fetch request env now w
  = (json_error 401 "invalid_piI", rejected env "invalid_piI" payload w).
Proof.
  intros Hm Hauth Hdec HokI.
  rewrite (fetch_authenticated _ _ _ _ _ Hm Hauth). unfold h_bind.
  rewrite (verify_presentation_decoded _ _ _ _ _ _ _ _ _ _ _ _ _ _ Hdec).
  cbv zeta. rewrite HokI. reflexivity.
Qed.







(** A 401 of the handler with one of the three kinds is the answer to the
    check of that kind. *)
Lemma fetch_answered request env now w tenant payload d Ppt Mpt Zpt Zppt Y cI rI kind :
  method request = "POST" ->
  fst (authenticate request env (mkHState w "unknown")) = Next tenant ->
  decoded request env payload d Ppt Mpt Zpt Zppt Y cI rI ->
  fst (fetch request env now w) = json_error 401 kind ->
  (kind = "invalid_piI" /\ verifyPiI Y Mpt Zpt cI rI = Ok false)
  \/ (kind = "d_mismatch" /\ verifyPiI Y Mpt Zpt cI rI = Ok true
      /\ d_check payload d = Ok false)
  \/ (kind = "invalid_piC" /\ verifyPiI Y Mpt Zpt cI rI = Ok true
      /\ d_check payload d = Ok true
      /\ exists originCanonical cC rC tlsExporterBytes nonce,
           bound payload originCanonical cC rC tlsExporterBytes nonce
           /\ verifyPiC Ppt Mpt cC rC
                (bindC_of env now payload originCanonical d tlsExporterBytes nonce)
              = Ok false).
Proof.
  intros Hm Hauth Hdec.
  rewrite (fetch_authenticated _ _ _ _ _ Hm Hauth). unfold h_bind.
  rewrite (verify_presentation_decoded _ _ _ _ _ _ _ _ _ _ _ _ _ _ Hdec).
  cbv zeta. unfold json_error.
  destruct (verifyPiI Y Mpt Zpt cI rI) as [m|[|]];
    [intros Heq; discriminate Heq| |intros Heq; injection Heq as <-; by left].
  destruct (d_check payload d) as [m|[|]];
    [intros Heq; discriminate Heq| |intros Heq; injection Heq as <-; right; by left].
  destruct (canonicalOrigin (p_origin payload)) as [m|oc] eqn:Hoc;
    [intros Heq; discriminate Heq|].
  destruct (scalar_of (pc (p_piC payload))) as [m|cC] eqn:HcC;
    [intros Heq; discriminate Heq|].
  destruct (scalar_of (pr (p_piC payload))) as [m|rC] eqn:HrC;
    [intros Heq; discriminate Heq|].
  destruct (tls_exporter payload) as [m|tls] eqn:Htls; [intros Heq; discriminate Heq|].
  destruct (b64urlToBytes (p_c payload)) as [m|nonce] eqn:Hnonce;
    [intros Heq; discriminate Heq|].
  destruct (verifyPiC Ppt Mpt cC rC _) as [m|[|]] eqn:HokC;
    [intros Heq; discriminate Heq| |].
  - intros Heq. apply (finish_settle_no_kind env now _ _ kind 401) in Heq. discriminate Heq.
  - intros Heq. injection Heq as <-. right; right.
    split; [reflexivity|]. split; [reflexivity|]. split; [reflexivity|].
    exists oc, cC, rC, tls, nonce. unfold bound. auto 10.
Qed.




(** A request on which a step before the spend fails changes neither store
    and calls none. *)
Lemma step_fails_stores request env now w :
  step_fails request env now w ->
  BRASS_KV (snd (fetch request env now w)) = BRASS_KV w
  /\ BRASS_COUNTER (snd (fetch request env now w)) = BRASS_COUNTER w
  /\ calls (snd (fetch request env now w)) = calls w.
Proof.
  intros Hfail.
  assert (Hkeep : forall o s, stores s = stores (mkHState w "unknown") ->
            BRASS_KV (snd (finish env (o, s))) = BRASS_KV w
            /\ BRASS_COUNTER (snd (finish env (o, s))) = BRASS_COUNTER w
            /\ calls (snd (finish env (o, s))) = calls w).
  { intros o s Hs. pose proof (finish_stores env o s) as Hf. cbv zeta in Hf.
    rewrite Hs in Hf. unfold stores in Hf.
    apply pair_equal_spec in Hf. destruct Hf as [Hf H3].
    apply pair_equal_spec in Hf. destruct Hf as [H1 H2].
    exact (conj H1 (conj H2 H3)). }
  unfold fetch.
  destruct (_ && _); [auto|]. destruct (negb _); [auto|].
  unfold pipeline, h_bind.
  pose proof (verify_quiet request env now (mkHState w "unknown")) as Hq.
  pose proof (step_fails_verify request env now w) as Hstep.
  destruct (verify request env now (mkHState w "unknown")) as [[v|r|m] s1];
    simpl snd in Hq.
  - destruct (Hstep v s1 Hfail eq_refl) as [m ->]. exact (Hkeep _ _ Hq).
  - exact (Hkeep _ _ Hq).
  - exact (Hkeep _ _ Hq).
Qed.


End VerificationAnswers.

(** ** The equation of the client proof *)

Section ClientEquation.
Context `{Imports}.



End ClientEquation.

(** ** The counter under a run of spends *)

Section CounterRange.
Context `{Imports}.

(** The counter after a run of spends with fresh idempotency keys: it stops
    at the limit. *)
Lemma spend_each_count k limit ttlSeconds iks :
  forall kv,
    NoDup iks ->
    (forall ik, ik ∈ iks -> get_json kv (ik_key (projectId k) ik) = None) ->
    let C := adopted (get_count kv (count_key (buildCounterKey k)))
                     (get_count kv (count_key (buildLegacyCounterKey k))) in
    0 <= C ->
    let kv' := snd (spend_each k limit ttlSeconds iks kv) in
    adopted (get_count kv' (count_key (buildCounterKey k)))
            (get_count kv' (count_key (buildLegacyCounterKey k)))
    = if (limit <=? C)%Z then C else Z.min limit (C + Z.of_nat (length iks)).
Proof.
  induction iks as [|ik rest IH]; intros kv Hnd Hfree C Hpos.
  - simpl. fold C. destruct (limit <=? C)%Z eqn:Hlim; [reflexivity|].
    apply Z.leb_gt in Hlim. lia.
  - simpl.
    set (params := mkSpendParams k ik limit ttlSeconds).
    assert (Hik : get_json kv (ik_key (projectId (key params)) (IK params)) = None).
    { apply Hfree. left. }
    pose proof (KVStore_spend_count params kv Hik Hpos) as Hcount.
    change (kv_current_count params kv) with C in Hcount.
    destruct (KVStore_spend params kv) as [d0 kv1] eqn:Hspend. simpl in Hcount.
    apply NoDup_cons in Hnd as [Hnotin Hnd].
    assert (Hfree1 : forall ik', ik' ∈ rest ->
              get_json kv1 (ik_key (projectId k) ik') = None).
    { intros ik' Hin. unfold get_json.
      replace kv1 with (snd (KVStore_spend params kv)) by (by rewrite Hspend).
      rewrite KVStore_spend_frame.
      - apply (Hfree ik'). by right.
      - simpl. intros Heq. apply ik_key_inj in Heq. by subst ik'.
      - apply ik_key_not_count_key. }
    specialize (IH kv1 Hnd Hfree1).
    change (adopted (get_count kv1 (count_key (buildCounterKey k)))
                    (get_count kv1 (count_key (buildLegacyCounterKey k))))
      with (kv_current_count params kv1) in IH.
    cbv zeta in IH. rewrite Hcount in IH.
    destruct (spend_each k limit ttlSeconds rest kv1) as [ds kv2]. simpl in IH |- *.
    destruct (limit <=? C)%Z eqn:Hlim.
    + rewrite (IH Hpos). by rewrite Hlim.
    + apply Z.leb_gt in Hlim. rewrite IH by lia.
      destruct (limit <=? C + 1)%Z eqn:H1.
      * apply Z.leb_le in H1. lia.
      * apply Z.leb_gt in H1. lia.
Qed.

End CounterRange.






(** C2 (code defect).  A spend whose idempotency record is present returns the
    stored decision with [idempotent: true] and writes nothing.  The
    best-effort store does so for a stored denial; the adapter of the atomic
    store hands the same stored denial back as
    [{ ok: false, error: "limit_exceeded" }], without [remaining] and without
    [idempotent]. *)
Theorem C2_atomic_store_replays_denial_without_fields :
  get_json Scenario.do_with_denial
    (buildCounterKey Scenario.testKey, Scenario.testIkKey) = Some failureResponse
  /\ fst (DurableObjectStore_spend Scenario.testSpend Scenario.do_with_denial)
     = Ok (mkDecision false None (Some "limit_exceeded"%string) None)
  /\ fst (DurableObjectStore_spend Scenario.testSpend Scenario.do_with_denial)
     <> Ok (replayed failureResponse)
  /\ get_json Scenario.kv_with_denial Scenario.testIkKey = Some failureResponse
  /\ fst (KVStore_spend Scenario.testSpend Scenario.kv_with_denial)
     = replayed failureResponse.
Proof.
  assert (Hdo : get_json Scenario.do_with_denial
                  (buildCounterKey Scenario.testKey, Scenario.testIkKey)
                = Some failureResponse) by (vm_compute; reflexivity).
  assert (Hkv : get_json Scenario.kv_with_denial Scenario.testIkKey
                = Some failureResponse) by (vm_compute; reflexivity).
  split; [exact Hdo|].
  rewrite (DurableObjectStore_spend_replay Scenario.testSpend _ _ Hdo).
  rewrite (KVStore_spend_replay Scenario.testSpend _ _ Hkv).
  simpl. repeat split; try reflexivity; try assumption. discriminate.
Qed.




(** C4 (counterexample).  The scenario's request, ten seconds before
    midnight, from a tenant whose counter stands at its limit of 3: the
    handler answers 429 limit_exceeded, calls [cacheGraceResponse] with the
    denial, and the grace cache then holds the denial, a decision with
    ok = false. *)
Lemma C4_counterexample_denial_in_grace_cache :
  grace_view Scenario.testGraceKey
    (fetch Scenario.request (Scenario.mockEnv 3) Scenario.before_midnight
           Scenario.world_at_limit)
  = (mkResponse 429 (Denied (Some "limit_exceeded"%string) 0 "20000"),
     Some failureResponse,
     Some (CallCacheGraceResponse Scenario.graceOfPresentation failureResponse))
  /\ ok failureResponse = false.
Proof. split; [vm_compute; reflexivity | reflexivity]. Qed.

(** C4 (amended).  Whatever the imported helpers compute: for a request that
    passes the verification in the grace period, once the grace bridge has
    handed on to the spend and [spend] has returned a result, the handler
    calls [cacheGraceResponse] with that result, be it a success or a
    denial; the stores the request leaves are those [cacheGraceResponse]
    leaves. *)
Theorem C4_grace_cache_receives_spend_result `{Imports} :
  forall request env now w v s kvSecret IK graceHit result,
    method request = "POST"%string ->
    verify request env now (mkHState w "unknown") = (Next v, s) ->
    secretToBytes (BRASS_KV_SECRET env) = Ok kvSecret ->
    deriveIdempotencyKey kvSecret (v_y v) (p_c (v_payload v)) = Ok IK ->
    isInGracePeriod now (boundaryGraceSeconds env) = true ->
    fst (grace_bridge env now v (choose_store env) s) = Next graceHit ->
    let s1 := snd (grace_bridge env now v (choose_store env) s) in
    fst (store_spend env (choose_store env) (spend_params env now v IK) s1)
    = Next result ->
    let s2 := snd (store_spend env (choose_store env) (spend_params env now v IK) s1) in
    let cached := snd (store_cacheGraceResponse env (choose_store env)
                         (grace_params env v) result s2) in
    BRASS_KV (snd (fetch request env now w)) = BRASS_KV (world cached)
    /\ BRASS_COUNTER (snd (fetch request env now w)) = BRASS_COUNTER (world cached)
    /\ calls (snd (fetch request env now w))
       = (calls (world s2) ++ [CallCacheGraceResponse (grace_params env v) result])%list.
Proof.
  intros request env now w v s kvSecret IK graceHit result Hm Hv Hsec Hik Hgrace Hb s1
         Hspend s2 cached.
  destruct (fetch_verified_stores request env now w v s Hm Hv)
    as (_ & _ & -> & -> & ->).
  destruct (settle_caches_spend_result env now v s kvSecret IK graceHit result
              Hsec Hik Hgrace Hb Hspend) as [Hst Hcalls].
  destruct (stores_namespaces _ _ Hst) as [H1 H2]. auto.
Qed.

Lemma C4_witness :
  calls (snd (fetch Scenario.request (Scenario.mockEnv 0) Scenario.before_midnight
                    Scenario.empty_world))
  = (calls (world (snd (store_spend (Scenario.mockEnv 0)
                          (choose_store (Scenario.mockEnv 0))
                          (spend_params (Scenario.mockEnv 0) Scenario.before_midnight
                                        (Scenario.verified 0) Scenario.testIK)
                          (snd (grace_bridge (Scenario.mockEnv 0)
                                  Scenario.before_midnight (Scenario.verified 0)
                                  (choose_store (Scenario.mockEnv 0))
                                  (mkHState Scenario.empty_world "https://example.com"))))))
     ++ [CallCacheGraceResponse (grace_params (Scenario.mockEnv 0) (Scenario.verified 0))
                                failureResponse])%list.
Proof.
  pose proof (C4_grace_cache_receives_spend_result
                Scenario.request (Scenario.mockEnv 0) Scenario.before_midnight
                Scenario.empty_world (Scenario.verified 0)
                (mkHState Scenario.empty_world "https://example.com")
                (repeat 42 32) Scenario.testIK false failureResponse) as W.
  cbv zeta in W.
  assert (Hv : verify Scenario.request (Scenario.mockEnv 0) Scenario.before_midnight
                      (mkHState Scenario.empty_world "unknown")
               = (Next (Scenario.verified 0),
                  mkHState Scenario.empty_world "https://example.com"))
    by (vm_compute; reflexivity).
  assert (Hsec : secretToBytes (BRASS_KV_SECRET (Scenario.mockEnv 0))
                 = Ok (repeat 42 32)) by (vm_compute; reflexivity).
  assert (Hik : deriveIdempotencyKey (repeat 42 32) (v_y (Scenario.verified 0))
                  (p_c (v_payload (Scenario.verified 0))) = Ok Scenario.testIK)
    by (vm_compute; reflexivity).
  assert (Hg : isInGracePeriod Scenario.before_midnight
                 (boundaryGraceSeconds (Scenario.mockEnv 0)) = true)
    by (vm_compute; reflexivity).
  assert (Hb : fst (grace_bridge (Scenario.mockEnv 0) Scenario.before_midnight
                      (Scenario.verified 0) (choose_store (Scenario.mockEnv 0))
                      (mkHState Scenario.empty_world "https://example.com"))
               = Next false) by (vm_compute; reflexivity).
  assert (Hs : fst (store_spend (Scenario.mockEnv 0) (choose_store (Scenario.mockEnv 0))
                      (spend_params (Scenario.mockEnv 0) Scenario.before_midnight
                                    (Scenario.verified 0) Scenario.testIK)
                      (snd (grace_bridge (Scenario.mockEnv 0) Scenario.before_midnight
                              (Scenario.verified 0) (choose_store (Scenario.mockEnv 0))
                              (mkHState Scenario.empty_world "https://example.com"))))
               = Next failureResponse) by (vm_compute; reflexivity).
  exact (proj2 (proj2 (W eq_refl Hv Hsec Hik Hg Hb Hs))).
Defined.






(** C7.  Whatever the imported helpers compute: when a step before the call
    of [store.spend] fails (the API key is missing, unknown or wrong, the
    body does not parse, a field or a point does not decode, the issuer proof
    does not verify, d differs from d_client, the canonicalization of the
    origin throws, the client proof does not verify, or the derivation of the
    idempotency key throws), the handler returns with both counter stores as
    they were and without a call on the store interface: no counter, no
    idempotency record and no grace entry is created or changed. *)
Theorem C7_no_store_write_before_spend `{Imports} :
  forall request env now w,
    step_fails request env now w ->
    BRASS_KV (snd (fetch request env now w)) = BRASS_KV w
    /\ BRASS_COUNTER (snd (fetch request env now w)) = BRASS_COUNTER w
    /\ calls (snd (fetch request env now w)) = calls w.
Proof. intros request env now w. apply step_fails_stores. Qed.

Lemma C7_witness :
  BRASS_KV (snd (fetch Scenario.tampered_request (Scenario.mockEnv 3) Scenario.noon
                       Scenario.empty_world))
  = BRASS_KV Scenario.empty_world
  /\ calls (snd (fetch Scenario.tampered_request (Scenario.mockEnv 3) Scenario.noon
                       Scenario.empty_world))
     = calls Scenario.empty_world.
Proof.
  assert (Hparse : JSON_parse (bodyText Scenario.tampered_request)
                   = Ok Scenario.tampered) by (vm_compute; reflexivity).
  assert (Hd : compute_d Scenario.tampered_request Scenario.tampered
               = Ok Scenario.tampered_digest) by (vm_compute; reflexivity).
  assert (HP : decodePoint (p_P Scenario.tampered) = Ok Scenario.clientP)
    by (vm_compute; reflexivity).
  assert (HM : decodePoint (p_M Scenario.tampered) = Ok Scenario.clientM)
    by (vm_compute; reflexivity).
  assert (Hb : bound Scenario.tampered "https://example.com" Scenario.client_c
                 Scenario.client_r None Scenario.nonce)
    by (repeat apply conj; vm_compute; reflexivity).
  assert (HokC : verifyPiC Scenario.clientP Scenario.clientM Scenario.client_c
                   Scenario.client_r
                   (bindC_of (Scenario.mockEnv 3) Scenario.noon Scenario.tampered
                             "https://example.com" Scenario.tampered_digest None
                             Scenario.nonce) <> Ok true)
    by (vm_compute; discriminate).
  pose proof (C7_no_store_write_before_spend
                Scenario.tampered_request (Scenario.mockEnv 3) Scenario.noon
                Scenario.empty_world
                (piC_verification _ _ _ _ Scenario.tampered Scenario.tampered_digest
                   Scenario.clientP Scenario.clientM "https://example.com"%string
                   Scenario.client_c Scenario.client_r None Scenario.nonce
                   Hparse Hd HP HM Hb HokC)) as W.
  exact (conj (proj1 W) (proj2 (proj2 W))).
Defined.

(** C9.  The grace cache is write-once per (projectId, graceKey): when a
    response is stored under the grace key, a later [cacheGraceResponse] for
    the same key leaves the store, and so the stored response, unchanged, on
    the best-effort and on the atomic backend. *)
Theorem C9_grace_cache_write_once :
  forall (g : GraceParams) (response kept kept' : Decision)
         (kv : KVNamespace) (ns : DONamespace),
    get_json kv (grace_key (g_projectId g) (graceKey g)) = Some kept ->
    get_json ns (grace_object g, grace_key (g_projectId g) (graceKey g)) = Some kept' ->
    KVStore_cacheGraceResponse g response kv = kv
    /\ DurableObjectStore_cacheGraceResponse g response ns = ns.
Proof.
  intros g response kept kept' kv ns Hkv Hns. split.
  - exact (KVStore_cacheGraceResponse_stored g response kv kept Hkv).
  - exact (DurableObjectStore_cacheGraceResponse_stored g response ns kept' Hns).
Qed.

Lemma C9_witness :
  let kv := KVStore_cacheGraceResponse Scenario.testGrace (successResponse 2) ∅ in
  let ns := DurableObjectStore_cacheGraceResponse Scenario.testGrace (successResponse 2) ∅ in
  get_json kv (grace_key "test-project-123" "grace_key_1") = Some (successResponse 2)
  /\ get_json ns (grace_object Scenario.testGrace,
                  grace_key "test-project-123" "grace_key_1") = Some (successResponse 2)
  /\ KVStore_cacheGraceResponse Scenario.testGrace failureResponse kv = kv
  /\ DurableObjectStore_cacheGraceResponse Scenario.testGrace failureResponse ns = ns.
Proof.
  cbv zeta.
  assert (Hkv : get_json (KVStore_cacheGraceResponse Scenario.testGrace (successResponse 2) ∅)
                  (grace_key "test-project-123" "grace_key_1") = Some (successResponse 2))
    by (vm_compute; reflexivity).
  assert (Hns : get_json
                  (DurableObjectStore_cacheGraceResponse Scenario.testGrace
                     (successResponse 2) ∅)
                  (grace_object Scenario.testGrace,
                   grace_key "test-project-123" "grace_key_1") = Some (successResponse 2))
    by (vm_compute; reflexivity).
  split; [exact Hkv|]. split; [exact Hns|].
  exact (C9_grace_cache_write_once Scenario.testGrace failureResponse _ _ _ _ Hkv Hns).
Defined.

(** Where the payload carries the three overrides http_method, http_path and
    http_body_hash_b64, the handler does not read the payload's epoch: two
    requests with the same method, path and Authorization header whose
    payloads differ in the epoch only get the same response and leave the
    same world, whatever the imported helpers compute. *)
Theorem epoch_not_read_with_overrides `{Imports} :
  forall request1 request2 p e env now w,
    method request1 = method request2 ->
    pathname request1 = pathname request2 ->
    authorization request1 = authorization request2 ->
    JSON_parse (bodyText request1) = Ok p ->
    JSON_parse (bodyText request2) = Ok (with_epoch e p) ->
    truthy (p_http_method p) && truthy (p_http_path p)
      && truthy (p_http_body_hash_b64 p) = true ->
    fetch request1 env now w = fetch request2 env now w.
Proof.
  intros request1 request2 p e env now w Hm Hpath Hauth Hp1 Hp2 Hov.
  unfold fetch. rewrite <- Hm, <- Hpath.
  rewrite (pipeline_epoch request1 request2 env now p e _ Hauth Hp1 Hp2
             (compute_d_overrides request1 request2 p e Hov)).
  reflexivity.
Qed.

Lemma epoch_not_read_witness :
  fetch Scenario.request (Scenario.mockEnv 3) Scenario.noon Scenario.empty_world
  = fetch (Scenario.buildSpendRequest (with_epoch 1 Scenario.presentation) "test_api_key")
          (Scenario.mockEnv 3) Scenario.noon Scenario.empty_world.
Proof.
  apply (epoch_not_read_with_overrides Scenario.request
           (Scenario.buildSpendRequest (with_epoch 1 Scenario.presentation) "test_api_key")
           Scenario.presentation 1).
  - reflexivity.
  - reflexivity.
  - reflexivity.
  - vm_compute. reflexivity.
  - vm_compute. reflexivity.
  - vm_compute. reflexivity.
Defined.

(** The handler reads the payload's epoch through the digest d only: two
    requests with the same method, path and Authorization header whose
    payloads differ in the epoch only, and for which the handler computes
    the same d, get the same response and leave the same world, whatever the
    imported helpers compute. *)
Theorem epoch_read_through_digest_only `{Imports} :
  forall request1 request2 p e env now w,
    method request1 = method request2 ->
    pathname request1 = pathname request2 ->
    authorization request1 = authorization request2 ->
    JSON_parse (bodyText request1) = Ok p ->
    JSON_parse (bodyText request2) = Ok (with_epoch e p) ->
    compute_d request1 p = compute_d request2 (with_epoch e p) ->
    fetch request1 env now w = fetch request2 env now w.
Proof.
  intros request1 request2 p e env now w Hm Hpath Hauth Hp1 Hp2 Hd.
  unfold fetch. rewrite <- Hm, <- Hpath.
  rewrite (pipeline_epoch request1 request2 env now p e _ Hauth Hp1 Hp2 Hd).
  reflexivity.
Qed.

Lemma epoch_read_through_digest_witness :
  fetch Scenario.request (Scenario.mockEnv 3) Scenario.before_midnight
        Scenario.empty_world
  = fetch (Scenario.buildSpendRequest (with_epoch 19999 Scenario.presentation)
             "test_api_key")
          (Scenario.mockEnv 3) Scenario.before_midnight Scenario.empty_world.
Proof.
  apply (epoch_read_through_digest_only Scenario.request
           (Scenario.buildSpendRequest (with_epoch 19999 Scenario.presentation)
              "test_api_key")
           Scenario.presentation 19999).
  - reflexivity.
  - reflexivity.
  - reflexivity.
  - vm_compute. reflexivity.
  - vm_compute. reflexivity.
  - vm_compute. reflexivity.
Defined.

(** C10 (code defect).  With no namespaced counter, a legacy counter at 5 and a
    limit of 3, both backends adopt the legacy count and deny.  The
    best-effort store copies the count to the namespaced counter with the
    spend's TTL; the Durable Object copies it with no TTL at all. *)
Theorem C10_atomic_store_copies_legacy_count_without_ttl :
  fst (handleSpend (buildCounterKey Scenario.testKey) "test-project-123"
         "idempotency_key_123" 3 3600 Scenario.do_with_legacy)
  = mkDOResponse 429 (DODecision failureResponse)
  /\ snd (handleSpend (buildCounterKey Scenario.testKey) "test-project-123"
            "idempotency_key_123" 3 3600 Scenario.do_with_legacy)
       !! (buildCounterKey Scenario.testKey, "count"%string)
     = Some (Entry (VNum 5) None)
  /\ fst (KVStore_spend Scenario.testSpend Scenario.kv_with_legacy) = failureResponse
  /\ snd (KVStore_spend Scenario.testSpend Scenario.kv_with_legacy)
       !! Scenario.testCountKey
     = Some (Entry (VNum 5) (Some 3600)).
Proof. repeat split; vm_compute; reflexivity. Qed.

(** ** The scenario, end to end *)

(** At noon the handler accepts the scenario's request: it verifies both
    proofs, spends one unit of three and answers 200 with two remaining. *)
Example scenario_request_accepted :
  fst (fetch Scenario.request (Scenario.mockEnv 3) Scenario.noon Scenario.empty_world)
  = mkResponse 200 (Success (Some 2) false "20000").
Proof. vm_compute. reflexivity. Qed.

(** The values of the scenario's client proof are the ones the handler
    decodes and derives from the request. *)
Example scenario_client_proof :
  decodePoint (p_P Scenario.presentation) = Ok Scenario.clientP
  /\ decodePoint (p_M Scenario.presentation) = Ok Scenario.clientM
  /\ scalar_of (pc (p_piC Scenario.presentation)) = Ok Scenario.client_c
  /\ scalar_of (pr (p_piC Scenario.presentation)) = Ok Scenario.client_r
  /\ (d ← compute_d Scenario.request Scenario.presentation;
      nonce ← b64urlToBytes (p_c Scenario.presentation);
      mret (compute_bindC Scenario.presentation (v_y (Scenario.verified 3)) nonce d
              (deriveTlsBinding None) "20000" "comments"
              (deriveEta (BRASS_ISSUER_PUBKEY (Scenario.mockEnv 3))
                         "https://example.com" "20000" "comments" "20000")))
     = Ok Scenario.client_bind.
Proof.
  split; [vm_compute; reflexivity|]. split; [vm_compute; reflexivity|].
  split; [vm_compute; reflexivity|]. split; vm_compute; reflexivity.
Qed.

(** The body of the scenario's request parses back to its presentation. *)
Example scenario_body_parses :
  JSON_parse (bodyText Scenario.request) = Ok Scenario.presentation.
Proof. vm_compute. reflexivity. Qed.

Example sha256_abc :
  bytesToBig (Sha256.sha256 (utf8ToBytes "abc"))
  = 0xba7816bf8f01cfea414140de5dae2223b00361a396177a9cb410ff61f20015ad.
Proof. vm_compute. reflexivity. Qed.

(** ** Further properties of the stores *)

(** X3.  On the best-effort store, a spend that follows another spend of the
    same project with the same idempotency key is a replay, whatever its
    counter key, limit and TTL: it returns the decision of the first with
    idempotent = true and writes nothing. *)
Theorem kv_spend_repeat_is_replay `{Imports} :
  forall (p1 p2 : SpendParams) (kv : KVNamespace),
    projectId (key p1) = projectId (key p2) ->
    IK p1 = IK p2 ->
    KVStore_spend p2 (snd (KVStore_spend p1 kv))
    = (replayed (fst (KVStore_spend p1 kv)), snd (KVStore_spend p1 kv)).
Proof. intros p1 p2 kv. apply KVStore_spend_again. Qed.

Lemma kv_spend_repeat_witness :
  KVStore_spend
    (mkSpendParams
       (mkCounterKey "test-project-123" "A7xG..." "https://example.com" "19700"
                     "strict" "19701" "nullifier_y_b64")
       "idempotency_key_123" 10 60)
    (snd (KVStore_spend Scenario.testSpend ∅))
  = (replayed (fst (KVStore_spend Scenario.testSpend ∅)),
     snd (KVStore_spend Scenario.testSpend ∅)).
Proof.
  apply (kv_spend_repeat_is_replay Scenario.testSpend); reflexivity.
Defined.

(** X4.  Through the adapter of the atomic store, the same spend again
    returns the first decision with idempotent = true when that decision was
    a success, returns the first decision unchanged when it was a denial, and
    writes nothing. *)
Theorem do_spend_repeat `{Imports} :
  forall (params : SpendParams) (ns : DONamespace),
    DurableObjectStore_spend params (snd (DurableObjectStore_spend params ns))
    = (match fst (DurableObjectStore_spend params ns) with
       | Ok d => Ok (if ok d then replayed d else d)
       | Threw m => Threw m
       end,
       snd (DurableObjectStore_spend params ns)).
Proof. intros params ns. apply DurableObjectStore_spend_again. Qed.

(** X5.  The rate limit on the best-effort store: when [spend] is called once
    for each of a list of distinct idempotency keys that have no record yet,
    on a counter that stands at C, the i-th call (from 0) succeeds with
    remaining = limit - (C + i + 1) as long as C + i < limit, every later one
    is the denial limit_exceeded, and the counter ends at the limit or at
    C + the number of calls, whichever is smaller (at C when C >= limit).
    Counts and limits are JavaScript numbers; the statement is for a count in
    0..2^53-1 and a limit of absolute value below 2^53, where the arithmetic
    of the code is exact and stays so, since the counter never passes the
    limit. *)
Theorem kv_rate_limit_sequence `{Imports} :
  forall (k : CounterKey) (limit ttlSeconds : Z) (iks : list string) (kv : KVNamespace),
    NoDup iks ->
    (forall ik, ik ∈ iks -> get_json kv (ik_key (projectId k) ik) = None) ->
    0 <= adopted (get_count kv (count_key (buildCounterKey k)))
                 (get_count kv (count_key (buildLegacyCounterKey k))) < 2 ^ 53 ->
    - 2 ^ 53 < limit < 2 ^ 53 ->
    let C := adopted (get_count kv (count_key (buildCounterKey k)))
                     (get_count kv (count_key (buildLegacyCounterKey k))) in
    let kv' := snd (spend_each k limit ttlSeconds iks kv) in
    let C' := adopted (get_count kv' (count_key (buildCounterKey k)))
                      (get_count kv' (count_key (buildLegacyCounterKey k))) in
    length (fst (spend_each k limit ttlSeconds iks kv)) = length iks
    /\ (forall (i : nat) d,
          fst (spend_each k limit ttlSeconds iks kv) !! i = Some d ->
          d = if (limit <=? C + Z.of_nat i)%Z then failureResponse
              else successResponse (limit - (C + Z.of_nat i + 1)))
    /\ C' = (if (limit <=? C)%Z then C else Z.min limit (C + Z.of_nat (length iks)))
    /\ 0 <= C' < 2 ^ 53.
Proof.
  intros k limit ttlSeconds iks kv Hnd Hfree [Hpos Hsafe] Hlim. cbv zeta.
  pose proof (spend_each_decisions k limit ttlSeconds iks kv Hnd Hfree Hpos) as [Hlen Hd].
  pose proof (spend_each_count k limit ttlSeconds iks kv Hnd Hfree Hpos) as Hc.
  cbv zeta in Hc.
  split; [exact Hlen|]. split; [exact Hd|]. split; [exact Hc|].
  rewrite Hc. destruct (limit <=? _)%Z eqn:Hle; [lia|].
  apply Z.leb_gt in Hle. lia.
Qed.

Lemma kv_rate_limit_witness :
  length (fst (spend_each Scenario.testKey 2 3600 ["ik_0"; "ik_1"; "ik_2"]%string
                          Scenario.kv_with_count))
  = 3%nat.
Proof.
  refine (proj1 (kv_rate_limit_sequence Scenario.testKey 2 3600
                   ["ik_0"; "ik_1"; "ik_2"]%string Scenario.kv_with_count _ _ _ _)).
  - apply (bool_decide_unpack (NoDup _)). vm_compute. exact I.
  - intros ik _. vm_compute. reflexivity.
  - vm_compute. split; [discriminate | reflexivity].
  - vm_compute. split; reflexivity.
Defined.

(** X6.  [KVStore.spend] writes no key other than the idempotency record and
    the namespaced counter of its parameters. *)
Theorem kv_spend_writes_two_keys `{Imports} :
  forall (params : SpendParams) (kv : KVNamespace) (k : string),
    k <> ik_key (projectId (key params)) (IK params) ->
    k <> count_key (buildCounterKey (key params)) ->
    snd (KVStore_spend params kv) !! k = kv !! k.
Proof. intros params kv k. apply KVStore_spend_frame. Qed.

Lemma kv_spend_writes_witness :
  snd (KVStore_spend Scenario.testSpend Scenario.kv_with_legacy)
    !! count_key (buildLegacyCounterKey Scenario.testKey)
  = Scenario.kv_with_legacy !! count_key (buildLegacyCounterKey Scenario.testKey).
Proof.
  apply (kv_spend_writes_two_keys Scenario.testSpend).
  - vm_compute. discriminate.
  - vm_compute. discriminate.
Defined.

(** X7.  A request to the Durable Object [name] leaves the storage of every
    other object as it is, and changes nothing at all unless it is a POST to
    /spend or to /grace/cache. *)
Theorem do_fetch_confined `{Imports} :
  forall (name method pathname : string) (body : DORequest) (ns : DONamespace),
    (forall name' k, name' <> name ->
       snd (BrassCounterDO_fetch name method pathname body ns) !! (name', k)
       = ns !! (name', k))
    /\ (snd (BrassCounterDO_fetch name method pathname body ns) <> ns ->
        method = "POST"%string
        /\ (pathname = "/spend"%string \/ pathname = "/grace/cache"%string)).
Proof.
  intros name method pathname body ns. split.
  - intros name' k. apply BrassCounterDO_fetch_frame.
  - apply BrassCounterDO_fetch_reads.
Qed.

Lemma do_fetch_confined_witness :
  snd (BrassCounterDO_fetch "a" "POST" "/spend" (ReqSpend "p" "ik" 3 60)
         Scenario.do_with_legacy)
    !! (buildCounterKey Scenario.testKey, "legacy_count"%string)
  = Scenario.do_with_legacy !! (buildCounterKey Scenario.testKey, "legacy_count"%string).
Proof.
  apply (proj1 (do_fetch_confined "a" "POST" "/spend" (ReqSpend "p" "ik" 3 60)
                  Scenario.do_with_legacy)).
  vm_compute. discriminate.
Defined.

(** X8.  On the best-effort store, a spend does not change the decision of a
    spend with another idempotency record and another counter: when the
    record keys differ and the counter key of the first is neither the
    counter key nor the legacy counter key of the second, the second decides
    as if the first had not happened. *)
Theorem kv_spend_isolated `{Imports} :
  forall (p1 p2 : SpendParams) (kv : KVNamespace),
    ik_key (projectId (key p1)) (IK p1) <> ik_key (projectId (key p2)) (IK p2) ->
    buildCounterKey (key p1) <> buildCounterKey (key p2) ->
    buildCounterKey (key p1) <> buildLegacyCounterKey (key p2) ->
    fst (KVStore_spend p2 (snd (KVStore_spend p1 kv))) = fst (KVStore_spend p2 kv).
Proof. intros p1 p2 kv. apply KVStore_spend_isolated. Qed.

Lemma kv_spend_isolated_witness :
  fst (KVStore_spend
         (mkSpendParams
            (mkCounterKey "test-project-123" "A7xG..." "https://other.com" "19700"
                          "strict" "19700" "nullifier_y_b64")
            "ik_2" 10 3600)
         (snd (KVStore_spend Scenario.testSpend ∅)))
  = fst (KVStore_spend
           (mkSpendParams
              (mkCounterKey "test-project-123" "A7xG..." "https://other.com" "19700"
                            "strict" "19700" "nullifier_y_b64")
              "ik_2" 10 3600) ∅).
Proof.
  apply (kv_spend_isolated Scenario.testSpend).
  - vm_compute. discriminate.
  - vm_compute. discriminate.
  - vm_compute. discriminate.
Defined.

(** X9.  On the atomic store, spends on different counter keys go to
    different objects: a spend does not change the decision of a spend on
    another counter key, even with the same idempotency key. *)
Theorem do_spend_isolated `{Imports} :
  forall (p1 p2 : SpendParams) (ns : DONamespace),
    buildCounterKey (key p1) <> buildCounterKey (key p2) ->
    fst (DurableObjectStore_spend p2 (snd (DurableObjectStore_spend p1 ns)))
    = fst (DurableObjectStore_spend p2 ns).
Proof. intros p1 p2 ns. apply DurableObjectStore_spend_isolated. Qed.

Lemma do_spend_isolated_witness :
  fst (DurableObjectStore_spend
         (mkSpendParams
            (mkCounterKey "test-project-123" "A7xG..." "https://example.com" "19700"
                          "strict" "19701" "nullifier_y_b64")
            "idempotency_key_123" 10 3600)
         (snd (DurableObjectStore_spend Scenario.testSpend ∅)))
  = fst (DurableObjectStore_spend
           (mkSpendParams
              (mkCounterKey "test-project-123" "A7xG..." "https://example.com" "19700"
                            "strict" "19701" "nullifier_y_b64")
              "idempotency_key_123" 10 3600) ∅).
Proof.
  apply (do_spend_isolated Scenario.testSpend).
  vm_compute. discriminate.
Defined.

(** X10.  After [cacheGraceResponse], [guardGrace] for the same grace key is
    a hit, on both backends: it returns the response that was stored before,
    or the one just written when there was none. *)
Theorem grace_cache_then_guard_hits `{Imports} :
  forall (g : GraceParams) (response : Decision) (kv : KVNamespace) (ns : DONamespace),
    KVStore_guardGrace g (KVStore_cacheGraceResponse g response kv)
    = Hit (match KVStore_guardGrace g kv with
           | Hit kept => kept
           | Miss => response
           end)
    /\ DurableObjectStore_guardGrace g
         (DurableObjectStore_cacheGraceResponse g response ns)
       = (Ok (Hit (match fst (DurableObjectStore_guardGrace g ns) with
                   | Ok (Hit kept) => kept
                   | _ => response
                   end)),
          DurableObjectStore_cacheGraceResponse g response ns).
Proof.
  intros g response kv ns. split.
  - apply KVStore_grace_round_trip.
  - apply DurableObjectStore_grace_round_trip.
Qed.

(** X11.  The grace cache and the spend do not meet, on both backends: a
    write of the grace cache does not change the decision of any spend, and a
    spend does not change what [guardGrace] finds. *)
Theorem grace_cache_and_spend_apart `{Imports} :
  forall (params : SpendParams) (g : GraceParams) (response : Decision)
         (kv : KVNamespace) (ns : DONamespace),
    fst (KVStore_spend params (KVStore_cacheGraceResponse g response kv))
    = fst (KVStore_spend params kv)
    /\ KVStore_guardGrace g (snd (KVStore_spend params kv)) = KVStore_guardGrace g kv
    /\ fst (DurableObjectStore_spend params
              (DurableObjectStore_cacheGraceResponse g response ns))
       = fst (DurableObjectStore_spend params ns)
    /\ fst (DurableObjectStore_guardGrace g (snd (DurableObjectStore_spend params ns)))
       = fst (DurableObjectStore_guardGrace g ns).
Proof.
  intros params g response kv ns. split; [|split; [|split]].
  - apply KVStore_spend_after_cache.
  - apply KVStore_guardGrace_after_spend.
  - apply DurableObjectStore_spend_after_cache.
  - apply DurableObjectStore_guardGrace_after_spend.
Qed.

(** X12.  Inside the Durable Object, [handleSpend] decides as [KVStore.spend]
    does: when the idempotency record, the counter and the legacy counter
    read the same on both sides, the object answers the decision of the
    best-effort store, with status 200 for a success and 429 for a denial. *)
Theorem object_spend_decides_as_kv `{Imports} :
  forall (params : SpendParams) (kv : KVNamespace) (name : string) (ns : DONamespace),
    get_json ns (name, ik_key (projectId (key params)) (IK params))
    = get_json kv (ik_key (projectId (key params)) (IK params)) ->
    get_count ns (name, "count"%string)
    = get_count kv (count_key (buildCounterKey (key params))) ->
    get_count ns (name, "legacy_count"%string)
    = get_count kv (count_key (buildLegacyCounterKey (key params))) ->
    fst (handleSpend name (projectId (key params)) (IK params) (limit params)
           (ttlSeconds params) ns)
    = mkDOResponse (if ok (fst (KVStore_spend params kv)) then 200 else 429)
        (DODecision (fst (KVStore_spend params kv))).
Proof. intros params kv name ns. apply handleSpend_as_KVStore. Qed.

Lemma object_spend_witness :
  fst (handleSpend (buildCounterKey Scenario.testKey) "test-project-123"
         "idempotency_key_123" 3 3600 Scenario.do_with_legacy)
  = mkDOResponse
      (if ok (fst (KVStore_spend Scenario.testSpend Scenario.kv_with_legacy))
       then 200 else 429)
      (DODecision (fst (KVStore_spend Scenario.testSpend Scenario.kv_with_legacy))).
Proof.
  apply (object_spend_decides_as_kv Scenario.testSpend Scenario.kv_with_legacy
           (buildCounterKey Scenario.testKey) Scenario.do_with_legacy).
  - vm_compute. reflexivity.
  - vm_compute. reflexivity.
  - vm_compute. reflexivity.
Defined.

(** ** Further properties of the verifier *)

(** X13.  [ctEqual] is equality of byte strings: it returns true exactly
    when its two arguments have the same length and the same bytes. *)
Theorem ctEqual_is_equality :
  forall a b : bytes, ctEqual a b = true <-> a = b.
Proof. exact ctEqual_eq. Qed.

Lemma ctEqual_witness : ctEqual [1; 2; 3] [1; 2; 3] = true.
Proof. apply (proj2 (ctEqual_is_equality [1; 2; 3] [1; 2; 3])). reflexivity. Defined.

(** X14.  [dleqVerify] accepts only a challenge in 0..n-1 that equals the hash
    of the six encoded points and the binding, reduced modulo n; none of the
    six points is the identity then.  So c and c + n are never both
    accepted. *)
Theorem dleqVerify_accepts_reduced_challenge `{Imports} :
  forall a : DleqArgs,
    dleqVerify a = Ok true ->
    0 <= c a < n
    /\ exists e1 e2 e3 e4 e5 e6,
         P256.toRawBytes (g1 a) = Ok e1 /\ P256.toRawBytes (h1 a) = Ok e2
         /\ P256.toRawBytes (g2 a) = Ok e3 /\ P256.toRawBytes (h2 a) = Ok e4
         /\ P256.toRawBytes (A1 a) = Ok e5 /\ P256.toRawBytes (A2 a) = Ok e6
         /\ c a = bytesToBig
                    (H3 [utf8ToBytes ("BRASS:" +:+ label a +:+ ":");
                         e1; e2; e3; e4; e5; e6; bind a]) mod n.
Proof. exact dleqVerify_accepts. Qed.

Lemma dleqVerify_witness : 0 <= Scenario.client_c < n.
Proof.
  refine (proj1 (dleqVerify_accepts_reduced_challenge
                   (mkDleqArgs CONFIG_LABEL_DLEQ Scenario.clientP Scenario.clientM G G
                      (P256.add (P256.scalar_mul Scenario.clientP Scenario.client_r)
                                (P256.scalar_mul Scenario.clientM Scenario.client_c))
                      G Scenario.client_c Scenario.client_r Scenario.client_bind) _)).
  vm_compute. reflexivity.
Defined.

(** X15.  For the issuer proof the handler checks the full equation and acts
    on it: for an authenticated POST request whose body, digest, points and
    scalars of piI are read, with both scalars in 1..n-1, the handler answers
    401 invalid_piI exactly when the equation of the specification over
    (G, Y, M, Z), with A1 = G^r.Y^c, A2 = M^r.Z^c and the empty binding,
    fails; it then changes nothing but the telemetry. *)
Theorem fetch_checks_issuer_proof `{Imports} :
  forall request env now w tenant payload d Ppt Mpt Zpt Zppt Y cI rI,
    method request = "POST"%string ->
    fst (authenticate request env (mkHState w "unknown")) = Next tenant ->
    decoded request env payload d Ppt Mpt Zpt Zppt Y cI rI ->
    0 < rI < n -> 0 < cI < n ->
    (fst (fetch request env now w) = json_error 401 "invalid_piI"
     <-> reference_equation G Y Mpt Zpt cI rI [] = Ok false)
    /\ (reference_equation G Y Mpt Zpt cI rI [] = Ok false ->
        snd (fetch request env now w) = rejected env "invalid_piI" payload w).
Proof.
  intros request env now w tenant payload d Ppt Mpt Zpt Zppt Y cI rI Hm Hauth Hdec Hr Hc.
  rewrite <- (verifyPiI_reference Y Mpt Zpt cI rI Hr Hc).
  split; [split|].
  - intros Hresp.
    destruct (fetch_answered _ _ _ _ _ _ _ _ _ _ _ _ _ _ _ Hm Hauth Hdec Hresp)
      as [[_ HokI] | [[Hk _] | [Hk _]]]; [exact HokI | discriminate Hk | discriminate Hk].
  - intros HokI.
    by rewrite (fetch_invalid_piI _ _ _ _ _ _ _ _ _ _ _ _ _ _ Hm Hauth Hdec HokI).
  - intros HokI.
    by rewrite (fetch_invalid_piI _ _ _ _ _ _ _ _ _ _ _ _ _ _ Hm Hauth Hdec HokI).
Qed.

Lemma fetch_checks_issuer_proof_witness :
  fst (fetch Scenario.forged_request (Scenario.mockEnv 3) Scenario.noon
             Scenario.empty_world)
  = json_error 401 "invalid_piI".
Proof.
  assert (Hauth : fst (authenticate Scenario.forged_request (Scenario.mockEnv 3)
                         (mkHState Scenario.empty_world "unknown"))
                  = Next ("test_project"%string, 3)) by (vm_compute; reflexivity).
  assert (Hdec : decoded Scenario.forged_request (Scenario.mockEnv 3)
                   Scenario.forged Scenario.digest Scenario.clientP
                   Scenario.clientM Scenario.clientZ Scenario.clientZprime
                   Scenario.issuerY Scenario.client_c Scenario.client_r)
    by (repeat apply conj; vm_compute; reflexivity).
  assert (Hr : 0 < Scenario.client_r < n) by (vm_compute; split; reflexivity).
  assert (Hc : 0 < Scenario.client_c < n) by (vm_compute; split; reflexivity).
  assert (Href : reference_equation G Scenario.issuerY Scenario.clientM Scenario.clientZ
                   Scenario.client_c Scenario.client_r [] = Ok false)
    by (vm_compute; reflexivity).
  exact (proj2 (proj1 (fetch_checks_issuer_proof
                         Scenario.forged_request (Scenario.mockEnv 3) Scenario.noon
                         Scenario.empty_world ("test_project"%string, 3)
                         Scenario.forged Scenario.digest Scenario.clientP
                         Scenario.clientM Scenario.clientZ Scenario.clientZprime
                         Scenario.issuerY Scenario.client_c Scenario.client_r
                         eq_refl Hauth Hdec Hr Hc)) Href).
Defined.

(** X16.  Every point [decodePoint] returns is a point of the curve in
    affine form with both coordinates in 0..p-1; the identity is never
    returned. *)
Theorem decodePoint_returns_curve_points `{Imports} :
  forall (b64 : string) (Ppt : P256.point),
    decodePoint b64 = Ok Ppt ->
    exists x y, Ppt = P256.Affine x y
      /\ 0 <= x < P256.p /\ 0 <= y < P256.p /\ P256.on_curve x y = true.
Proof. exact decodePoint_valid. Qed.

Lemma decodePoint_witness :
  exists x y, Scenario.clientP = P256.Affine x y
    /\ 0 <= x < P256.p /\ 0 <= y < P256.p /\ P256.on_curve x y = true.
Proof.
  apply (decodePoint_returns_curve_points (p_P Scenario.presentation)).
  vm_compute. reflexivity.
Defined.

(** X17.  On an input that is base64url, [decodePoint] throws
    invalid_point_encoding or the library's not-on-curve error and nothing
    else: its own check for the identity is never the one that fails, so
    invalid_point_infinity is not thrown. *)
Theorem decodePoint_error_kinds `{Imports} :
  forall (b64 : string) (enc : bytes) (m : string),
    b64urlToBytes b64 = Ok enc ->
    decodePoint b64 = Threw m ->
    m = "invalid_point_encoding"%string \/ m = P256.err_not_on_curve.
Proof. exact decodePoint_throws. Qed.

Lemma decodePoint_error_witness :
  "invalid_point_encoding"%string = "invalid_point_encoding"%string
  \/ "invalid_point_encoding"%string = P256.err_not_on_curve.
Proof.
  apply (decodePoint_error_kinds "AAAA" [0; 0; 0]).
  - vm_compute. reflexivity.
  - vm_compute. reflexivity.
Defined.

(** ** Further properties of the handler *)

(** X18.  Without a configured telemetry sink the handler emits no event,
    whatever the request and whatever path it takes. *)
Theorem fetch_emits_nothing_unconfigured `{Imports} :
  forall request env now w,
    TELEMETRY_configured env = false ->
    telemetry (snd (fetch request env now w)) = telemetry w.
Proof. exact fetch_silent. Qed.

Lemma fetch_emits_nothing_witness :
  telemetry (snd (fetch Scenario.malformed_request (Scenario.mockEnv 3) Scenario.noon
                        Scenario.empty_world))
  = telemetry Scenario.empty_world.
Proof.
  apply (fetch_emits_nothing_unconfigured Scenario.malformed_request (Scenario.mockEnv 3)).
  reflexivity.
Defined.

(** X19.  Outside the grace period a request that passes the verification
    makes exactly one call on the store interface, [spend]; when it returns,
    the response is built from its result: 200 with remaining, idempotent
    (false when absent) and the server's window for a success, 429 with the
    error, remaining (0 when absent) and the window for a denial; and the
    stores are as [spend] left them. *)
Theorem fetch_outside_grace_spends_once `{Imports} :
  forall request env now w v s kvSecret IK result,
    method request = "POST"%string ->
    verify request env now (mkHState w "unknown") = (Next v, s) ->
    secretToBytes (BRASS_KV_SECRET env) = Ok kvSecret ->
    deriveIdempotencyKey kvSecret (v_y v) (p_c (v_payload v)) = Ok IK ->
    isInGracePeriod now (boundaryGraceSeconds env) = false ->
    fst (store_spend env (choose_store env) (spend_params env now v IK) s)
    = Next result ->
    let spent := snd (store_spend env (choose_store env) (spend_params env now v IK) s) in
    fst (fetch request env now w) = rendered result (v_window v)
    /\ BRASS_KV (snd (fetch request env now w)) = BRASS_KV (world spent)
    /\ BRASS_COUNTER (snd (fetch request env now w)) = BRASS_COUNTER (world spent)
    /\ calls (snd (fetch request env now w))
       = (calls w ++ [CallSpend (spend_params env now v IK)])%list.
Proof. exact fetch_outside_grace. Qed.

Lemma fetch_outside_grace_witness :
  fst (fetch Scenario.request (Scenario.mockEnv 0) Scenario.noon Scenario.empty_world)
  = rendered failureResponse "20000".
Proof.
  pose proof (fetch_outside_grace_spends_once
                Scenario.request (Scenario.mockEnv 0) Scenario.noon Scenario.empty_world
                (Scenario.verified 0)
                (mkHState Scenario.empty_world "https://example.com")
                (repeat 42 32) Scenario.testIK failureResponse) as W.
  cbv zeta in W.
  assert (Hv : verify Scenario.request (Scenario.mockEnv 0) Scenario.noon
                      (mkHState Scenario.empty_world "unknown")
               = (Next (Scenario.verified 0),
                  mkHState Scenario.empty_world "https://example.com"))
    by (vm_compute; reflexivity).
  assert (Hsec : secretToBytes (BRASS_KV_SECRET (Scenario.mockEnv 0))
                 = Ok (repeat 42 32)) by (vm_compute; reflexivity).
  assert (Hik : deriveIdempotencyKey (repeat 42 32) (v_y (Scenario.verified 0))
                  (p_c (v_payload (Scenario.verified 0))) = Ok Scenario.testIK)
    by (vm_compute; reflexivity).
  assert (Hg : isInGracePeriod Scenario.noon
                 (boundaryGraceSeconds (Scenario.mockEnv 0)) = false)
    by (vm_compute; reflexivity).
  assert (Hs : fst (store_spend (Scenario.mockEnv 0) (choose_store (Scenario.mockEnv 0))
                      (spend_params (Scenario.mockEnv 0) Scenario.noon
                                    (Scenario.verified 0) Scenario.testIK)
                      (mkHState Scenario.empty_world "https://example.com"))
               = Next failureResponse) by (vm_compute; reflexivity).
  exact (proj1 (W eq_refl Hv Hsec Hik Hg Hs)).
Defined.

(** X20.  The same request again: with the authentication by environment
    variable and the best-effort store, outside the grace period, a POST
    request that was answered with a decision gets, when it is sent again at
    the same clock value, the same decision with idempotent = true (a denial
    comes back as it was), and the second request writes nothing to the KV
    namespace. *)
Theorem fetch_repeat_is_replay `{Imports} :
  forall request env now w,
    method request = "POST"%string ->
    BRASS_KV_bound env = true ->
    BRASS_USE_ENV_AUTH env = true ->
    choose_store env = KVStore ->
    isInGracePeriod now (boundaryGraceSeconds env) = false ->
    is_decision (fst (fetch request env now w)) ->
    exists result window,
      fst (fetch request env now w) = rendered result window
      /\ fst (fetch request env now (snd (fetch request env now w)))
         = rendered (replayed result) window
      /\ BRASS_KV (snd (fetch request env now (snd (fetch request env now w))))
         = BRASS_KV (snd (fetch request env now w)).
Proof. exact fetch_again. Qed.

Lemma fetch_repeat_witness :
  exists result window,
    fst (fetch Scenario.request (Scenario.mockEnv 3) Scenario.noon Scenario.empty_world)
    = rendered result window
    /\ fst (fetch Scenario.request (Scenario.mockEnv 3) Scenario.noon
              (snd (fetch Scenario.request (Scenario.mockEnv 3) Scenario.noon
                          Scenario.empty_world)))
       = rendered (replayed result) window
    /\ BRASS_KV (snd (fetch Scenario.request (Scenario.mockEnv 3) Scenario.noon
                        (snd (fetch Scenario.request (Scenario.mockEnv 3) Scenario.noon
                                    Scenario.empty_world))))
       = BRASS_KV (snd (fetch Scenario.request (Scenario.mockEnv 3) Scenario.noon
                              Scenario.empty_world)).
Proof.
  apply (fetch_repeat_is_replay Scenario.request (Scenario.mockEnv 3) Scenario.noon
           Scenario.empty_world).
  - reflexivity.
  - reflexivity.
  - reflexivity.
  - reflexivity.
  - vm_compute. reflexivity.
  - vm_compute. exact I.
Defined.

(** X21.  A POST request whose Authorization header is missing or does not
    start with Bearer is answered 401 missing_api_key, and with the
    authentication by environment variable a key other than
    BRASS_SECRET_KEY is answered 401 invalid_api_key; in both cases nothing
    is stored, no store is called and no telemetry event is emitted. *)
Theorem fetch_rejects_unauthenticated `{Imports} :
  forall request env now w,
    method request = "POST"%string ->
    (String.prefix "Bearer " (default ""%string (authorization request)) = false ->
     fetch request env now w = (mkResponse 401 (ErrorBody "missing_api_key"), w))
    /\ (forall apiKey,
          authorization request = Some ("Bearer " +:+ apiKey) ->
          BRASS_KV_bound env && negb (BRASS_USE_ENV_AUTH env) = false ->
          Some apiKey <> BRASS_SECRET_KEY env ->
          fetch request env now w = (mkResponse 401 (ErrorBody "invalid_api_key"), w)).
Proof.
  intros request env now w Hm. split.
  - by apply fetch_without_bearer.
  - intros apiKey. by apply fetch_wrong_key.
Qed.

Lemma fetch_rejects_witness :
  fetch Scenario.anonymous_request (Scenario.mockEnv 3) Scenario.noon
        (Scenario.world_with_grace failureResponse)
  = (mkResponse 401 (ErrorBody "missing_api_key"),
     Scenario.world_with_grace failureResponse).
Proof.
  apply (proj1 (fetch_rejects_unauthenticated Scenario.anonymous_request
                  (Scenario.mockEnv 3) Scenario.noon
                  (Scenario.world_with_grace failureResponse) eq_refl)).
  reflexivity.
Defined.

(** ** The mock of the KV namespace *)

(** X22.  [MockKV]: after [put(key, value)], [get(key)] returns the value,
    except that an empty value reads as null, and every other key reads as
    before; after [delete(key)], [get(key)] returns null and every other key
    reads as before. *)
Theorem MockKV_get_after_put_and_delete :
  forall (kv : MockKV.t) (key value : string) (ttl : option Z) (key' : string),
    MockKV.wf kv ->
    MockKV.get (MockKV.put kv key value ttl) key
    = (if String.eqb value "" then None else Some value)
    /\ (key' <> key ->
        MockKV.get (MockKV.put kv key value ttl) key' = MockKV.get kv key')
    /\ MockKV.get (MockKV.delete kv key) key = None
    /\ (key' <> key -> MockKV.get (MockKV.delete kv key) key' = MockKV.get kv key')
    /\ MockKV.wf (MockKV.put kv key value ttl)
    /\ MockKV.wf (MockKV.delete kv key).
Proof.
  intros kv key value ttl key' Hwf.
  destruct (MockKV_get_put kv key value ttl key') as [H1 H2].
  destruct (MockKV_get_delete kv key key' Hwf) as [H3 H4].
  repeat split; try assumption.
  - by apply MockKV_wf_put.
  - by apply MockKV_wf_delete.
Qed.

Lemma MockKV_get_witness :
  MockKV.get (MockKV.put MockKV.empty "k" "" None) "k" = None.
Proof.
  apply (proj1 (MockKV_get_after_put_and_delete MockKV.empty "k" "" None "j"
                  MockKV_wf_empty)).
Defined.

(** X23.  [MockKV.list]: every listed name is a key of the store and starts
    with the prefix when one is given; at most [limit] names are listed for a
    positive limit and at most 1000 for a missing or zero limit; and
    list_complete is true also when names were cut off. *)
Theorem MockKV_list_names :
  forall (kv : MockKV.t) (prefix : option string) (limit : option Z),
    let listed := MockKV.list kv prefix limit in
    snd listed = true
    /\ (forall name, name ∈ fst listed ->
          name ∈ map fst (MockKV.store kv)
          /\ (truthy prefix = true -> String.prefix (default ""%string prefix) name = true))
    /\ (forall l, limit = Some l -> 0 < l -> Z.of_nat (length (fst listed)) <= l)
    /\ (limit = None \/ limit = Some 0 -> (length (fst listed) <= 1000)%nat).
Proof. exact MockKV_list_spec. Qed.

Lemma MockKV_list_witness :
  Z.of_nat (length (fst (MockKV.list
                           (MockKV.put (MockKV.put MockKV.empty "a" "1" None) "b" "2" None)
                           None (Some 1)))) <= 1.
Proof.
  apply (proj1 (proj2 (proj2 (MockKV_list_names
                                (MockKV.put (MockKV.put MockKV.empty "a" "1" None)
                                            "b" "2" None)
                                None (Some 1)))) 1 eq_refl).
  lia.
Defined.

(** X24.  [MockKV]: the timer that a [put] with a TTL sets deletes the key
    when it fires, also when the key was written again without a TTL in the
    meantime. *)
Theorem MockKV_timer_deletes_later_value :
  forall (kv : MockKV.t) (key v1 v2 : string) (ttl : Z),
    MockKV.wf kv -> ttl <> 0 ->
    MockKV.get
      (MockKV.fire (MockKV.put (MockKV.put kv key v1 (Some ttl)) key v2 None)
                   (length (MockKV.timers kv)))
      key = None.
Proof. exact MockKV_timer_outlives. Qed.

Lemma MockKV_timer_witness :
  MockKV.get
    (MockKV.fire (MockKV.put (MockKV.put MockKV.empty "k" "1" (Some 60)) "k" "2" None) 0)
    "k" = None.
Proof.
  apply (MockKV_timer_deletes_later_value MockKV.empty "k" "1" "2" 60 MockKV_wf_empty).
  lia.
Defined.
